(** * Planet image extraction: a shallow embedding of
      [Planet_imagery_extraction.py] and the properties of its specification.

    The script searches a catalogue for scenes over an area of interest (AOI),
    optionally renders a preview, and places, polls and downloads a clipped
    order.  The embedding follows the source function by function:

    - values parsed from JSON are a [json] tree, with Python's [d[k]],
      [d.get(k, default)], truthiness and [==] written out;
    - exceptions are a type [exn]; a computation returns a [result];
    - the network, the terminal, the clock and the file system are an explicit
      [world] threaded through a small state-and-exception monad [M];
    - shapely is an interface ([Class Shapely]); [Grid] implements it on
      regions made of unit cells, so that every function can be run on
      concrete geometry.

    Python floats ([max_cloud_cover], the nadir angles, [area]) are carried as
    rationals; logging and [print] are not modelled (they do not influence
    control flow, except where an access inside them can raise, which is
    kept). *)

From Stdlib Require Import List String Ascii ZArith QArith Bool Lia Arith.
From Stdlib Require Import DecimalString DecimalNat.
Import ListNotations.

Set Warnings "-register-all".

Local Open Scope string_scope.
Local Open Scope Z_scope.

(* ------------------------------------------------------------------------- *)
(** ** Strings *)

(** [str(n)] of a Python int. *)
Definition str_of_nat (n : nat) : string := NilEmpty.string_of_uint (Nat.to_uint n).
Definition str_of_Z (z : Z) : string := NilEmpty.string_of_int (Z.to_int z).

(** [f"{n:03d}"]: decimal, left-padded with zeros to width 3. *)
Definition fmt_03d (n : nat) : string :=
  let s := str_of_nat n in
  match String.length s with
  | 1%nat => "00" ++ s
  | 2%nat => "0" ++ s
  | _ => s
  end.

(** [s.split(sep)] for a one-character separator. *)
Fixpoint split (sep : ascii) (s : string) : list string :=
  match s with
  | EmptyString => [""]
  | String c r =>
      let parts := split sep r in
      if Ascii.eqb c sep then "" :: parts
      else match parts with
           | p :: ps => String c p :: ps
           | [] => [String c ""]
           end
  end.

(** [c.isspace()] on the ASCII range. *)
Definition is_space (c : ascii) : bool :=
  let n := nat_of_ascii c in
  ((9 <=? n) && (n <=? 13) || (28 <=? n) && (n <=? 32))%nat.

Fixpoint lstrip (s : string) : string :=
  match s with
  | String c r => if is_space c then lstrip r else s
  | EmptyString => EmptyString
  end.

Fixpoint string_rev_onto (s acc : string) : string :=
  match s with
  | EmptyString => acc
  | String c r => string_rev_onto r (String c acc)
  end.
Definition string_rev (s : string) : string := string_rev_onto s "".

(** [s.strip()], for a string of ASCII characters. *)
Definition strip (s : string) : string :=
  string_rev (lstrip (string_rev (lstrip s))).

Definition lower_ascii (c : ascii) : ascii :=
  let n := nat_of_ascii c in
  if ((65 <=? n) && (n <=? 90))%nat then ascii_of_nat (n + 32) else c.

(** [s.lower()] on the ASCII range. *)
Fixpoint lower (s : string) : string :=
  match s with
  | EmptyString => EmptyString
  | String c r => String (lower_ascii c) (lower r)
  end.

(** [s[:n]] for [n >= 0]. *)
Fixpoint str_take (n : nat) (s : string) : string :=
  match n, s with
  | S k, String c r => String c (str_take k r)
  | _, _ => EmptyString
  end.

(** *** pathlib (POSIX flavour)

    [Path(s).parts] without the anchor: the components between slashes, empty
    components and single dots dropped. *)
Definition is_component (p : string) : bool := negb (p =? "")%string && negb (p =? ".")%string.
Definition path_parts (s : string) : list string := filter is_component (split "/" s).

(** [Path(s).name]: the final component, [""] when there is none. *)
Definition path_name (s : string) : string := last (path_parts s) "".

(** Index of the last ["."] of [s], as [s.rfind(".")]. *)
Fixpoint rfind_dot (s : string) : option nat :=
  match s with
  | EmptyString => None
  | String c r =>
      match rfind_dot r with
      | Some i => Some (S i)
      | None => if Ascii.eqb c "." then Some 0%nat else None
      end
  end.

Fixpoint str_drop (n : nat) (s : string) : string :=
  match n, s with
  | S k, String _ r => str_drop k r
  | _, _ => s
  end.

(** [Path(s).suffix] and [Path(s).stem]: the name is cut at its last dot,
    unless that dot is its first or its last character. *)
Definition name_suffix (name : string) : string :=
  match rfind_dot name with
  | Some i => if ((0 <? i) && (i <? String.length name - 1))%nat
              then str_drop i name else ""
  | None => ""
  end.
Definition name_stem (name : string) : string :=
  match rfind_dot name with
  | Some i => if ((0 <? i) && (i <? String.length name - 1))%nat
              then str_take i name else name
  | None => name
  end.

(** [str(Path(d) / n)] for a relative name [n]. *)
Definition path_join (d n : string) : string :=
  match path_parts d with
  | [] => (match d with String "/" _ => "/" | _ => "" end) ++ n
  | ps => (match d with String "/" _ => "/" | _ => "" end)
          ++ String.concat "/" ps ++ "/" ++ n
  end.

(* ------------------------------------------------------------------------- *)
(** ** JSON values, as [resp.json()] returns them *)

Inductive json : Type :=
| JNull
| JBool (b : bool)
| JNum (q : Q)
| JStr (s : string)
| JArr (items : list json)
| JObj (fields : list (string * json)).

Definition dict := list (string * json).

Fixpoint dict_lookup (k : string) (d : dict) : option json :=
  match d with
  | [] => None
  | (k', v) :: r => if (k' =? k)%string then Some v else dict_lookup k r
  end.

(** [d[k] = v]: the value is replaced in place, a new key goes last. *)
Fixpoint dict_set (k : string) (v : json) (d : dict) : dict :=
  match d with
  | [] => [(k, v)]
  | (k', v') :: r => if (k' =? k)%string then (k', v) :: r else (k', v') :: dict_set k v r
  end.

(** [bool(v)] *)
Definition truthy (v : json) : bool :=
  match v with
  | JNull => false
  | JBool b => b
  | JNum q => negb (Qeq_bool q 0)
  | JStr s => negb (s =? "")%string
  | JArr l => match l with [] => false | _ => true end
  | JObj d => match d with [] => false | _ => true end
  end.

(** [a == b].  Strings, numbers, booleans, null and lists compare as in
    Python; two dicts are compared field by field in order (Python ignores
    the order of keys), and a boolean is not identified with 0 or 1. *)
Fixpoint json_eqb (a b : json) {struct a} : bool :=
  match a, b with
  | JNull, JNull => true
  | JBool x, JBool y => Bool.eqb x y
  | JNum x, JNum y => Qeq_bool x y
  | JStr x, JStr y => (x =? y)%string
  | JArr xs, JArr ys =>
      (fix go (xs ys : list json) {struct xs} : bool :=
         match xs, ys with
         | [], [] => true
         | x :: xs', y :: ys' => json_eqb x y && go xs' ys'
         | _, _ => false
         end) xs ys
  | JObj xs, JObj ys =>
      (fix go (xs ys : list (string * json)) {struct xs} : bool :=
         match xs, ys with
         | [], [] => true
         | (k, x) :: xs', (k', y) :: ys' => (k =? k')%string && json_eqb x y && go xs' ys'
         | _, _ => false
         end) xs ys
  | _, _ => false
  end.

(* ------------------------------------------------------------------------- *)
(** ** Exceptions and results *)

Inductive exn : Type :=
| ValueError (msg : string)
| RuntimeError (msg : string)
(** [RuntimeError(f"Order {order_id} failed. Response: {pretty(s)}")]: the
    message embeds [json.dumps(s, indent=2)]; the payload is kept as a value. *)
| RuntimeError_order_failed (order_id : json) (s : json)
| KeyError (key : string)
| IndexError
| TypeError
| AttributeError
| JSONDecodeError
| HTTPError (status : Z)
| InvalidURL
| EOFError
(** Raised by the transport once its retries are used up. *)
| ConnectionError.

(** The outcome of a call: a value, an exception, or [Blocked] when the call
    is still waiting for an answer that the scripted provider never gives. *)
Inductive result (A : Type) : Type :=
| Ret (a : A)
| Raise (e : exn)
| Blocked.
Arguments Ret {A} a.
Arguments Raise {A} e.
Arguments Blocked {A}.

Definition rbind {A B} (r : result A) (k : A -> result B) : result B :=
  match r with
  | Ret a => k a
  | Raise e => Raise e
  | Blocked => Blocked
  end.

(** [v[k]] for a string key. *)
Definition getitem (v : json) (k : string) : result json :=
  match v with
  | JObj d => match dict_lookup k d with Some x => Ret x | None => Raise (KeyError k) end
  | _ => Raise TypeError
  end.

(** [v.get(k, default)] *)
Definition get (v : json) (k : string) (default : json) : result json :=
  match v with
  | JObj d => match dict_lookup k d with Some x => Ret x | None => Ret default end
  | _ => Raise AttributeError
  end.

(** [l[i]] for a Python list and a possibly negative index. *)
Definition list_index {A} (l : list A) (i : Z) : result A :=
  let n := Z.of_nat (List.length l) in
  let j := if i <? 0 then i + n else i in
  if (j <? 0) || (n <=? j) then Raise IndexError
  else match nth_error l (Z.to_nat j) with
       | Some x => Ret x
       | None => Raise IndexError
       end.

(** [l[:n]] for a Python list. *)
Definition slice_to {A} (l : list A) (n : Z) : list A :=
  if n <? 0 then firstn (Z.to_nat (Z.of_nat (List.length l) + n)) l
  else firstn (Z.to_nat n) l.

(* ------------------------------------------------------------------------- *)
(** ** Geometry

    What the script asks of a shapely geometry: the attributes [is_empty],
    [geom_type], [is_valid], [area], [geoms], [wkt], the method [buffer(0)],
    and the functions [unary_union] and [mapping]. *)

Class Shapely (G : Type) : Type := {
  is_empty : G -> bool;
  geom_type : G -> string;
  is_valid : G -> bool;
  area : G -> Q;
  geoms : G -> list G;
  unary_union : G -> G;
  buffer0 : G -> G;
  mapping : G -> json;
  wkt : G -> string
}.

(** [max(xs, key=key)]: the running maximum is replaced only by a strictly
    greater key, so the first of several maximal elements is returned. *)
Definition Qgtb (a b : Q) : bool := negb (Qle_bool a b).

Fixpoint max_from {A} (key : A -> Q) (best : A) (xs : list A) : A :=
  match xs with
  | [] => best
  | x :: r => max_from key (if Qgtb (key x) (key best) then x else best) r
  end.

Definition py_max {A} (key : A -> Q) (xs : list A) : result A :=
  match xs with
  | [] => Raise (ValueError "max() arg is an empty sequence")
  | x :: r => Ret (max_from key x r)
  end.

Section Normalizer.
Context {G : Type} `{Shapely G}.

(** Lines 140-149: the candidate polygon, before the validity check. *)
Definition candidate (geom : G) : result G :=
  if (geom_type geom =? "Polygon")%string then Ret geom
  else
    let merged := unary_union geom in
    if (geom_type merged =? "Polygon")%string then Ret merged
    else if (geom_type merged =? "MultiPolygon")%string then
      py_max area (geoms merged)
    else Raise (ValueError ("Unsupported geometry type for AOI: " ++ geom_type geom)).

(** Lines 150-154: one repair attempt with a zero-width buffer. *)
Definition repair (poly : G) : result G :=
  if negb (is_valid poly) then
    let poly' := buffer0 poly in
    if negb (is_valid poly') then
      Raise (ValueError "AOI polygon is invalid and could not be fixed.")
    else Ret poly'
  else Ret poly.

Definition validate_geometry (geom : G) : result G :=
  if is_empty geom then Raise (ValueError "AOI geometry is empty.")
  else rbind (candidate geom) repair.
End Normalizer.

(** *** Regions of unit cells

    A reference implementation of the interface.  A polygon is the set of
    unit squares it covers, a cell being named by its lower-left corner.
    Squares that share an edge belong to one polygon; squares that meet only
    at a corner do not (a ring pinched at a point is invalid, and two
    polygons that touch at a point stay two members of a MultiPolygon).

    [wkt] and [mapping] write a region out cell by cell, one ring per unit
    square: the outline that GEOS would trace is not computed. *)
Module Grid.

Definition cell : Type := Z * Z.

Inductive geometry : Type :=
| Polygon (cells : list cell)
| MultiPolygon (parts : list (list cell))
| Point (x y : Z).

Definition cell_eqb (a b : cell) : bool := (fst a =? fst b) && (snd a =? snd b).
Definition cell_ltb (a b : cell) : bool :=
  (fst a <? fst b) || ((fst a =? fst b) && (snd a <? snd b)).

Fixpoint insert (c : cell) (r : list cell) : list cell :=
  match r with
  | [] => [c]
  | d :: r' => if cell_eqb c d then r
               else if cell_ltb c d then c :: r
               else d :: insert c r'
  end.

(** The cells of a region, sorted and without repetition. *)
Definition norm (r : list cell) : list cell := fold_right insert [] r.

Definition adjacent (a b : cell) : bool :=
  Z.abs (fst a - fst b) + Z.abs (snd a - snd b) =? 1.
Definition touches (r : list cell) (c : cell) : bool := existsb (adjacent c) r.

(** Extend [comp] with the cells of [rest] reachable through shared edges. *)
Fixpoint grow (fuel : nat) (comp rest : list cell) : list cell * list cell :=
  match fuel with
  | O => (comp, rest)
  | S k =>
      match partition (touches comp) rest with
      | ([], _) => (comp, rest)
      | (near, far) => grow k (comp ++ near) far
      end
  end.

Fixpoint split_components (fuel : nat) (r : list cell) : list (list cell) :=
  match fuel, r with
  | S k, c :: rest =>
      let (comp, others) := grow (List.length rest) [c] rest in
      norm comp :: split_components k others
  | _, _ => []
  end.

(** The edge-connected components of a region. *)
Definition components (r : list cell) : list (list cell) :=
  let n := norm r in split_components (List.length n) n.

Definition of_components (cs : list (list cell)) : geometry :=
  match cs with
  | [] => Polygon []
  | [c] => Polygon c
  | _ => MultiPolygon cs
  end.

Definition connected (r : list cell) : bool := (List.length (components r) <=? 1)%nat.
Definition nonempty (r : list cell) : bool := match r with [] => false | _ => true end.
Definition cell_count (r : list cell) : nat := List.length (norm r).

Definition g_is_empty (g : geometry) : bool :=
  match g with
  | Polygon r => negb (nonempty r)
  | MultiPolygon ps => forallb (fun p => negb (nonempty p)) ps
  | Point _ _ => false
  end.

Definition g_geom_type (g : geometry) : string :=
  match g with
  | Polygon _ => "Polygon"
  | MultiPolygon _ => "MultiPolygon"
  | Point _ _ => "Point"
  end.

(** A polygon is valid when its region is connected; a MultiPolygon when its
    members are valid, disjoint, and no two of them share an edge. *)
Definition g_is_valid (g : geometry) : bool :=
  match g with
  | Polygon r => connected r
  | MultiPolygon ps =>
      forallb connected ps
      && (cell_count (List.concat ps) =? list_sum (map cell_count ps))%nat
      && (List.length (components (List.concat ps)) =? List.length (filter nonempty ps))%nat
  | Point _ _ => true
  end.

Definition g_area (g : geometry) : Q :=
  match g with
  | Polygon r => inject_Z (Z.of_nat (cell_count r))
  | MultiPolygon ps => inject_Z (Z.of_nat (list_sum (map cell_count ps)))
  | Point _ _ => 0%Q
  end.

Definition g_geoms (g : geometry) : list geometry :=
  match g with
  | MultiPolygon ps => map Polygon ps
  | _ => []
  end.

Definition g_unary_union (g : geometry) : geometry :=
  match g with
  | Polygon r => of_components (components r)
  | MultiPolygon ps => of_components (components (List.concat ps))
  | Point _ _ => g
  end.

Definition g_buffer0 (g : geometry) : geometry :=
  match g with
  | Point _ _ => Polygon []
  | _ => g_unary_union g
  end.

Definition ring (c : cell) : list (Z * Z) :=
  let (x, y) := c in [(x, y); (x + 1, y); (x + 1, y + 1); (x, y + 1); (x, y)].

Definition json_position (p : Z * Z) : json :=
  JArr [JNum (inject_Z (fst p)); JNum (inject_Z (snd p))].
Definition json_rings (r : list cell) : json :=
  JArr (map (fun c => JArr (map json_position (ring c))) (norm r)).

Definition g_mapping (g : geometry) : json :=
  match g with
  | Polygon r => JObj [("type", JStr "Polygon"); ("coordinates", json_rings r)]
  | MultiPolygon ps =>
      JObj [("type", JStr "MultiPolygon"); ("coordinates", JArr (map json_rings ps))]
  | Point x y => JObj [("type", JStr "Point"); ("coordinates", json_position (x, y))]
  end.

Definition wkt_position (p : Z * Z) : string := str_of_Z (fst p) ++ " " ++ str_of_Z (snd p).
Definition wkt_rings (r : list cell) : string :=
  "(" ++ String.concat ", "
           (map (fun c => "(" ++ String.concat ", " (map wkt_position (ring c)) ++ ")")
                (norm r)) ++ ")".

Definition g_wkt (g : geometry) : string :=
  match g with
  | Polygon [] => "POLYGON EMPTY"
  | Polygon r => "POLYGON " ++ wkt_rings r
  | MultiPolygon [] => "MULTIPOLYGON EMPTY"
  | MultiPolygon ps => "MULTIPOLYGON (" ++ String.concat ", " (map wkt_rings ps) ++ ")"
  | Point x y => "POINT (" ++ wkt_position (x, y) ++ ")"
  end.

#[global] Instance shapely : Shapely geometry := {|
  is_empty := g_is_empty;
  geom_type := g_geom_type;
  is_valid := g_is_valid;
  area := g_area;
  geoms := g_geoms;
  unary_union := g_unary_union;
  buffer0 := g_buffer0;
  mapping := g_mapping;
  wkt := g_wkt
|}.

(** The square of side [n] whose lower-left corner is [(x, y)]. *)
Definition square (x y : Z) (n : nat) : list cell :=
  flat_map (fun i => map (fun j => (x + Z.of_nat i, y + Z.of_nat j)) (seq 0 n)) (seq 0 n).

End Grid.

(* ------------------------------------------------------------------------- *)
(** ** Data models (lines 71-90) *)

Record SearchParams : Type := {
  start_date : string;          (* YYYY-MM-DD *)
  end_date : string;            (* YYYY-MM-DD *)
  max_cloud_cover : Q;
  min_nadir : Q;
  max_nadir : Q;
  instruments : list string;
  item_types : list string;
  result_limit : Z
}.

Record Config : Type := {
  api_key : string;
  data_url : string;
  orders_url : string;
  poll_interval_s : Z;
  download_dir : string;
  timeout_s : Z
}.

(** [Config(api_key=..., download_dir=...)] with the defaults of the class. *)
Definition mkConfig (key dir : string) : Config := {|
  api_key := key;
  data_url := "https://api.planet.com/data/v1";
  orders_url := "https://api.planet.com/compute/ops/orders/v2";
  poll_interval_s := 30;
  download_dir := dir;
  timeout_s := 30
|}.

(* ------------------------------------------------------------------------- *)
(** ** Filter builder (lines 166-201) *)

Section FilterBuilder.
Context {G : Type} `{Shapely G}.

Definition date_filter (params : SearchParams) : json :=
  JObj [("type", JStr "DateRangeFilter");
        ("field_name", JStr "acquired");
        ("config", JObj [("gt", JStr (start_date params ++ "T00:00:00Z"));
                         ("lt", JStr (end_date params ++ "T00:00:00Z"))])].

Definition build_planet_filters (geometry : G) (params : SearchParams) : json :=
  let geometry_filter :=
    JObj [("type", JStr "GeometryFilter");
          ("field_name", JStr "geometry");
          ("config", mapping geometry)] in
  let cloud_filter :=
    JObj [("type", JStr "RangeFilter");
          ("field_name", JStr "cloud_cover");
          ("config", JObj [("lt", JNum (max_cloud_cover params))])] in
  let nadir_filter :=
    JObj [("type", JStr "RangeFilter");
          ("field_name", JStr "view_angle");
          ("config", JObj [("gt", JNum (min_nadir params));
                           ("lte", JNum (max_nadir params))])] in
  let instrument_filter :=
    JObj [("type", JStr "StringInFilter");
          ("field_name", JStr "instrument");
          ("config", JArr (map JStr (instruments params)))] in
  JObj [("type", JStr "AndFilter");
        ("config", JArr [geometry_filter; date_filter params; cloud_filter;
                         nadir_filter; instrument_filter])].
End FilterBuilder.

(** *** What a date predicate admits

    The provider reads the keys of a range configuration as comparison
    operators: [gt] and [lt] are strict, [gte] and [lte] include the bound.
    Timestamps are RFC 3339 strings in UTC of one fixed shape
    ([YYYY-MM-DDTHH:MM:SSZ]), for which the lexicographic order is the
    chronological one. *)
Definition op_holds (op bound t : string) : bool :=
  if (op =? "gt")%string then String.ltb bound t
  else if (op =? "gte")%string then String.leb bound t
  else if (op =? "lt")%string then String.ltb t bound
  else if (op =? "lte")%string then String.leb t bound
  else false.

Definition bound_holds (t : string) (kv : string * json) : bool :=
  match snd kv with
  | JStr bound => op_holds (fst kv) bound t
  | _ => false
  end.

Definition range_admits (predicate : json) (t : string) : bool :=
  match predicate with
  | JObj d =>
      match dict_lookup "config" d with
      | Some (JObj cfg) => forallb (bound_holds t) cfg
      | _ => false
      end
  | _ => false
  end.

Definition on_field (name : string) (predicate : json) : bool :=
  match predicate with
  | JObj d => match dict_lookup "field_name" d with
              | Some v => json_eqb v (JStr name)
              | None => false
              end
  | _ => false
  end.

(** The predicate of an [AndFilter] that constrains the field [name]. *)
Definition predicate_on (name : string) (combined : json) : option json :=
  match combined with
  | JObj d => match dict_lookup "config" d with
              | Some (JArr ps) => find (on_field name) ps
              | _ => None
              end
  | _ => None
  end.

(** The instant at which a calendar date starts, in UTC. *)
Definition instant (date : string) : string := date ++ "T00:00:00Z".

(* ------------------------------------------------------------------------- *)
(** ** The world: provider, terminal, clock, file system *)

Definition bytes : Type := list Byte.byte.

Record response : Type := {
  status_code : Z;
  text : string;
  body : option json;              (* [resp.json()]; [None]: not JSON *)
  content_length : option string;  (* the Content-Length header *)
  chunks : list bytes              (* what [iter_content] yields *)
}.

(** What a call to the session comes back with: a response, or an exception
    of the transport. *)
Inductive reply : Type :=
| Answer (r : response)
| Fail (e : exn).

Record request : Type := {
  method : string;
  url : string;
  payload : option json
}.

(** A line of the orders reference,
    [f"(api_key=****, item_id={id}, item_type={type}, aoi_wkt={geom.wkt[:120]}...)"]. *)
Record order_ref : Type := {
  ref_item_id : json;
  ref_item_type : json;
  ref_aoi_wkt : string
}.

Inductive file : Type :=
| ZipArchive (entries : list (string * bytes))
| OrdersText (rows : list order_ref)
| PreviewMap (aoi : json) (layers : list (json * json)).

Record world : Type := {
  script : list reply;             (* the provider's answers, in call order *)
  stdin : list string;             (* the lines typed at the prompt *)
  sent : list request;             (* requests issued so far *)
  slept : list Z;                  (* [time.sleep] calls so far *)
  files : list (string * file);    (* files written, the newest first *)
  browser : list string            (* pages handed to the browser *)
}.

Definition M (A : Type) : Type := world -> result A * world.

Definition ret {A} (a : A) : M A := fun w => (Ret a, w).
Definition raise {A} (e : exn) : M A := fun w => (Raise e, w).
Definition lift {A} (r : result A) : M A := fun w => (r, w).
Definition bind {A B} (m : M A) (k : A -> M B) : M B :=
  fun w => match m w with
           | (Ret a, w') => k a w'
           | (Raise e, w') => (Raise e, w')
           | (Blocked, w') => (Blocked, w')
           end.

Notation "x <- m ;; k" := (bind m (fun x => k))
  (at level 61, m at next level, right associativity).
Notation "m ;;; k" := (bind m (fun _ => k))
  (at level 61, right associativity).

(** [try: m except Exception as e: handler(e)] *)
Definition try_except {A} (m : M A) (handler : exn -> M A) : M A :=
  fun w => match m w with
           | (Raise e, w') => handler e w'
           | other => other
           end.

Definition set_script (w : world) (s : list reply) : world :=
  {| script := s; stdin := stdin w; sent := sent w; slept := slept w;
     files := files w; browser := browser w |}.
Definition log_request (w : world) (rq : request) : world :=
  {| script := script w; stdin := stdin w; sent := sent w ++ [rq]; slept := slept w;
     files := files w; browser := browser w |}.

(** One call through the session: the request goes out, the next answer of
    the script comes back. *)
Definition http (rq : request) : M response :=
  fun w =>
    let w' := log_request w rq in
    match script w with
    | [] => (Blocked, w')
    | Answer r :: rest => (Ret r, set_script w' rest)
    | Fail e :: rest => (Raise e, set_script w' rest)
    end.

(** [session.get(u)]: requests refuses anything but a string before sending. *)
Definition http_get (u : json) : M response :=
  match u with
  | JStr s => http {| method := "GET"; url := s; payload := None |}
  | _ => raise InvalidURL
  end.

Definition sleep (seconds : Z) : M unit :=
  fun w => (Ret tt,
            {| script := script w; stdin := stdin w; sent := sent w;
               slept := slept w ++ [seconds]; files := files w; browser := browser w |}).

Definition write_file (path : string) (f : file) : M unit :=
  fun w => (Ret tt,
            {| script := script w; stdin := stdin w; sent := sent w; slept := slept w;
               files := (path, f) :: files w; browser := browser w |}).

Definition open_browser (path : string) : M unit :=
  fun w => (Ret tt,
            {| script := script w; stdin := stdin w; sent := sent w; slept := slept w;
               files := files w; browser := browser w ++ [path] |}).

(** [input(...)] *)
Definition input : M string :=
  fun w => match stdin w with
           | [] => (Raise EOFError, w)
           | line :: rest =>
               (Ret line,
                {| script := script w; stdin := rest; sent := sent w; slept := slept w;
                   files := files w; browser := browser w |})
           end.

(** [resp.ok]: [raise_for_status] would not raise. *)
Definition ok (r : response) : bool :=
  negb ((400 <=? status_code r) && (status_code r <? 600)).

Definition resp_json (r : response) : M json :=
  match body r with
  | Some v => ret v
  | None => raise JSONDecodeError
  end.

(** [int(s)] for a string of ASCII characters. *)
Definition digit_val (c : ascii) : option Z :=
  let n := nat_of_ascii c in
  if ((48 <=? n) && (n <=? 57))%nat then Some (Z.of_nat (n - 48)) else None.

Fixpoint parse_digits (s : string) (acc : Z) (after_digit : bool) : option Z :=
  match s with
  | EmptyString => if after_digit then Some acc else None
  | String c r =>
      if Ascii.eqb c "_" then
        if after_digit then parse_digits r acc false else None
      else match digit_val c with
           | Some d => parse_digits r (10 * acc + d) true
           | None => None
           end
  end.

Definition py_int (s : string) : result Z :=
  let parsed :=
    match strip s with
    | String "-" r => option_map Z.opp (parse_digits r 0 false)
    | String "+" r => parse_digits r 0 false
    | r => parse_digits r 0 false
    end in
  match parsed with
  | Some z => Ret z
  | None => Raise (ValueError "invalid literal for int() with base 10")
  end.

(* ------------------------------------------------------------------------- *)
(** ** Search client (lines 204-222) *)

(** Lines 218-221, on the parsed body.  Only a dict passes both the test of
    line 218 and the [data.get] of line 221, whose value must have a length;
    for any other value one of the two raises. *)
Definition cap_features (limit : Z) (data : json) : result json :=
  match data with
  | JObj d =>
      match dict_lookup "features" d with
      | Some (JArr fs) =>
          if Z.of_nat (List.length fs) >? limit
          then Ret (JObj (dict_set "features" (JArr (slice_to fs limit)) d))
          else Ret data
      | Some (JNull | JBool _ | JNum _) => Raise TypeError
      | _ => Ret data
      end
  | JArr l =>
      if existsb (json_eqb (JStr "features")) l then Raise TypeError
      else Raise AttributeError
  | JStr s =>
      match index 0 "features" s with
      | Some _ => Raise TypeError
      | None => Raise AttributeError
      end
  | _ => Raise TypeError
  end.

Section Client.
Context {G : Type} `{Shapely G}.

Definition quick_search (cfg : Config) (geometry : G) (params : SearchParams) : M json :=
  let request_payload :=
    JObj [("item_types", JArr (map JStr (item_types params)));
          ("filter", build_planet_filters geometry params)] in
  let quick_url := data_url cfg ++ "/quick-search" in
  resp <- http {| method := "POST"; url := quick_url; payload := Some request_payload |} ;;
  if negb (ok resp) then
    raise (RuntimeError ("Quick-search failed: " ++ str_of_Z (status_code resp)
                           ++ " " ++ text resp))
  else
    data <- resp_json resp ;;
    lift (cap_features (result_limit params) data).

(* ----------------------------------------------------------------------- *)
(** ** Order lifecycle (lines 259-332) *)

(** Lines 271-277. *)
Definition order_request (item_id item_type : json) (aoi_geometry : G)
           (product_bundle order_name : string) : json :=
  JObj [("name", JStr order_name);
        ("products",
         JArr [JObj [("item_ids", JArr [item_id]);
                     ("item_type", item_type);
                     ("product_bundle", JStr product_bundle)]]);
        ("tools", JArr [JObj [("clip", JObj [("aoi", mapping aoi_geometry)])]])].

(** Lines 278-286: submit, and read the order's id and status link. *)
Definition submit_order (cfg : Config) (item_id item_type : json) (aoi_geometry : G)
           (product_bundle order_name : string) : M (json * json) :=
  resp <- http {| method := "POST"; url := orders_url cfg;
                  payload := Some (order_request item_id item_type aoi_geometry
                                                 product_bundle order_name) |} ;;
  if negb (status_code resp =? 202) then
    raise (RuntimeError ("Order failed: " ++ str_of_Z (status_code resp)
                           ++ " " ++ text resp))
  else
    order <- resp_json resp ;;
    order_id <- lift (getitem order "id") ;;
    links <- lift (getitem order "_links") ;;
    order_url <- lift (getitem links "_self") ;;
    ret (order_id, order_url).

(** Lines 289-300: the [while True] loop.  Every turn that does not leave
    the loop has consumed one answer of the script, so [fuel] turns are
    enough when [fuel] exceeds the length of the script. *)
Fixpoint poll (fuel : nat) (cfg : Config) (order_id order_url : json) : M json :=
  match fuel with
  | O => lift Blocked
  | S k =>
      stat <- http_get order_url ;;
      if negb (ok stat) then
        raise (RuntimeError ("Failed to fetch order status: "
                               ++ str_of_Z (status_code stat) ++ " " ++ text stat))
      else
        s <- resp_json stat ;;
        state <- lift (get s "state" JNull) ;;
        if json_eqb state (JStr "success") then ret s
        else if json_eqb state (JStr "failed") then
          raise (RuntimeError_order_failed order_id s)
        else
          sleep (poll_interval_s cfg) ;;;
          poll k cfg order_id order_url
  end.

Definition poll_order (cfg : Config) (order_id order_url : json) : M json :=
  fun w => poll (S (List.length (script w))) cfg order_id order_url w.

(** Lines 313-330: fetch one result and write it as an archive entry.
    [writestr] looks at the last character of the entry name to tell a
    directory from a file; where it does so by indexing ([filename[-1]], as
    older CPython does), an empty name raises.  That failure is kept, so that
    nothing is promised about an entry without a name. *)
Definition download_result (idx : nat) (result : json) : M (string * bytes) :=
  url <- lift (get result "location" JNull) ;;
  orig_name <- lift (get result "name" (JStr ("result_" ++ str_of_nat idx))) ;;
  file_name <- lift (match orig_name with
                     | JStr s => Ret (path_name s)
                     | _ => Raise TypeError
                     end) ;;
  r <- http_get url ;;
  if negb (ok r) then raise (HTTPError (status_code r))
  else
    lift (py_int (match content_length r with Some s => s | None => "0" end)) ;;;
    let buffer :=
      List.concat (filter (fun b => match b with [] => false | _ => true end) (chunks r)) in
    if (file_name =? "")%string then raise IndexError
    else ret (file_name, buffer).

(** Lines 312-330: the entries written before the loop ends or fails. *)
Fixpoint download_results (idx : nat) (results : list json)
         (written : list (string * bytes))
  : world -> (list (string * bytes) * result unit) * world :=
  fun w =>
    match results with
    | [] => ((written, Ret tt), w)
    | result :: rest =>
        match download_result idx result w with
        | (Ret entry, w') => download_results (S idx) rest (written ++ [entry]) w'
        | (Raise e, w') => ((written, Raise e), w')
        | (Blocked, w') => ((written, Blocked), w')
        end
    end.

(** Lines 303-332.  The archive is created when it is opened and closed by
    the [with] blocks, also when an exception passes through them: it then
    holds the entries written so far. *)
Definition download_bundle (cfg : Config) (order_name : string) (s : json) : M string :=
  links <- lift (get s "_links" (JObj [])) ;;
  results <- lift (get links "results" (JArr [])) ;;
  if negb (truthy results) then
    raise (RuntimeError "No results links present in completed order.")
  else
    let zip_path := path_join (download_dir cfg) (order_name ++ "_bundle.zip") in
    match results with
    | JArr rs =>
        fun w =>
          match download_results 1 rs [] w with
          | ((written, outcome), w') =>
              match write_file zip_path (ZipArchive written) w' with
              | (_, w'') =>
                  match outcome with
                  | Ret _ => (Ret zip_path, w'')
                  | Raise e => (Raise e, w'')
                  | Blocked => (Blocked, w'')
                  end
              end
          end
    | JNum _ | JBool _ =>
        (* [enumerate] of a number *)
        write_file zip_path (ZipArchive []) ;;; raise TypeError
    | _ =>
        (* the items of a string or of a dict are strings: no [.get] *)
        write_file zip_path (ZipArchive []) ;;; raise AttributeError
    end.

Definition place_order_and_download (cfg : Config) (item_id item_type : json)
           (aoi_geometry : G) (product_bundle order_name : string) : M string :=
  order <- submit_order cfg item_id item_type aoi_geometry product_bundle order_name ;;
  s <- poll_order cfg (fst order) (snd order) ;;
  download_bundle cfg order_name s.
End Client.

(* ------------------------------------------------------------------------- *)
(** ** Run orchestrator (lines 380-485) *)

Record Args : Type := {
  arg_start_date : string;
  arg_end_date : string;
  arg_max_cloud : Q;
  arg_min_nadir : Q;
  arg_max_nadir : Q;
  arg_instrument : list string;
  arg_item_type : list string;
  arg_bundle : string;
  arg_download_dir : string;
  arg_orders_out : string;
  arg_map_out : string;
  arg_preview : bool;
  arg_open_map : bool;
  arg_prompt : bool;
  arg_item_id : string;
  arg_order : bool
}.

(** The defaults of [parse_args]. *)
Definition default_args : Args := {|
  arg_start_date := "2020-09-01";
  arg_end_date := "2020-12-31";
  arg_max_cloud := 1 # 10;
  arg_min_nadir := - (1);
  arg_max_nadir := 1;
  arg_instrument := ["PSB.SD"];
  arg_item_type := ["PSScene"];
  arg_bundle := "visual";
  arg_download_dir := "./downloads";
  arg_orders_out := "./orders/list_of_orders_2020.txt";
  arg_map_out := "./preview/planet_search_preview_map.html";
  arg_preview := false;
  arg_open_map := false;
  arg_prompt := false;
  arg_item_id := "";
  arg_order := false
|}.

(** Lines 390-398; [result_limit] keeps the default of the class. *)
Definition params_of_args (args : Args) : SearchParams := {|
  start_date := arg_start_date args;
  end_date := arg_end_date args;
  max_cloud_cover := arg_max_cloud args;
  min_nadir := arg_min_nadir args;
  max_nadir := arg_max_nadir args;
  instruments := arg_instrument args;
  item_types := arg_item_type args;
  result_limit := 100
|}.

(** The features of a search result, used as a list.  A value that is truthy
    but not a list fails at its first use; the class of that exception
    depends on the value and is not distinguished here. *)
Definition as_list (v : json) : result (list json) :=
  match v with
  | JArr l => Ret l
  | _ => Raise TypeError
  end.

(** Lines 239-243: the tile layers of the preview, one for every feature
    with an id and an item type. *)
Fixpoint preview_layers (feats : list json) : result (list (json * json)) :=
  match feats with
  | [] => Ret []
  | feat :: rest =>
      rbind (get feat "id" JNull) (fun item_id =>
      rbind (get feat "properties" (JObj [])) (fun props =>
      rbind (get props "item_type" JNull) (fun item_type =>
      rbind (preview_layers rest) (fun layers =>
      if negb (truthy item_id) || negb (truthy item_type) then Ret layers
      else Ret ((item_type, item_id) :: layers)))))
  end.

(** Lines 437-442: listing the features reads [f.get("properties", {})] and
    three fields of it. *)
Fixpoint print_features (feats : list json) : result unit :=
  match feats with
  | [] => Ret tt
  | f :: rest =>
      rbind (get f "properties" (JObj [])) (fun props =>
      rbind (get props "acquired" (JStr "n/a")) (fun _ =>
      rbind (get f "id" JNull) (fun _ =>
      print_features rest)))
  end.

(** [feats[0]["id"]] *)
Definition first_id (feats : list json) : result json :=
  rbind (list_index feats 0) (fun f => getitem f "id").

(** Line 461: [next((f for f in feats if f["id"] == chosen), feats[0])].  The
    default is evaluated first; the scan stops at the first match. *)
Fixpoint first_match (chosen : json) (feats : list json) : result (option json) :=
  match feats with
  | [] => Ret None
  | f :: rest =>
      rbind (getitem f "id") (fun i =>
      if json_eqb i chosen then Ret (Some f) else first_match chosen rest)
  end.

Definition resolve_match (chosen : json) (feats : list json) : result json :=
  rbind (list_index feats 0) (fun default =>
  rbind (first_match chosen feats) (fun found =>
  match found with
  | Some f => Ret f
  | None => Ret default
  end)).

(** The root of a POSIX path: a pathname that begins with exactly two
    slashes keeps both, more than two count as one. *)
Definition path_root (s : string) : string :=
  match s with
  | String "/" (String "/" (String "/" _)) => "/"
  | String "/" (String "/" _) => "//"
  | String "/" _ => "/"
  | _ => ""
  end.

(** [str(Path(s).with_name(n))], for a name [n] that is one component:
    pathlib refuses a path that has no name. *)
Definition with_name (s n : string) : result string :=
  let parts := path_parts s in
  let root := path_root s in
  if (path_name s =? "")%string then
    Raise (ValueError ("PosixPath('" ++ (if (root =? "")%string then "." else root)
                         ++ "') has an empty name"))
  else Ret (root ++ String.concat "/" (removelast parts ++ [n])%list).

Record loop_state : Type := {
  orders_list : list order_ref;
  order_idx : nat
}.

Section Orchestrator.
Context {G : Type} `{Shapely G}.

(** Lines 225-256. *)
Definition make_preview_map (geometry : G) (search_geojson : json) (out_html : string)
  : M unit :=
  feats <- lift (rbind (get search_geojson "features" (JArr [])) as_list) ;;
  layers <- lift (preview_layers feats) ;;
  write_file out_html (PreviewMap (mapping geometry) layers).

(** Lines 434-458: [None] stands for the [continue] of line 446. *)
Definition pick_item (args : Args) (feats : list json) : M (option json) :=
  let chosen_item_id := strip (arg_item_id args) in
  if arg_prompt args then
    lift (print_features feats) ;;;
    line <- input ;;
    let pick := lower (strip line) in
    if (pick =? "s")%string then ret None
    else if negb (pick =? "")%string then
      try_except
        (lift (rbind (py_int pick) (fun n =>
               rbind (list_index feats (n - 1)) (fun f =>
               rbind (getitem f "id") (fun i => Ret (Some i))))))
        (fun _ => lift (rbind (first_id feats) (fun i => Ret (Some i))))
    else lift (rbind (first_id feats) (fun i => Ret (Some i)))
  else
    if (chosen_item_id =? "")%string
    then lift (rbind (first_id feats) (fun i => Ret (Some i)))
    else ret (Some (JStr chosen_item_id)).

(** The body of the loop of line 411, for the row at position [idx]: the
    index that [iterrows] yields for a file just read is the position of the
    row, counted from 0.  [nrows] is [len(gdf)]. *)
Definition process_aoi (args : Args) (cfg : Config) (params : SearchParams)
           (nrows idx : nat) (row : G) (st : loop_state) : M loop_state :=
  geom <- lift (validate_geometry row) ;;
  geojson <- quick_search cfg geom params ;;
  feats_v <- lift (get geojson "features" (JArr [])) ;;
  if negb (truthy feats_v) then ret st
  else
    (if arg_preview args then
       map_path <- (if (1 <? nrows)%nat then
                      let name := path_name (arg_map_out args) in
                      lift (with_name (arg_map_out args)
                                      (name_stem name ++ "_aoi" ++ str_of_nat (idx + 1)
                                                 ++ name_suffix name))
                    else ret (arg_map_out args)) ;;
       make_preview_map geom geojson map_path ;;;
       (if arg_open_map args then open_browser map_path else ret tt)
     else ret tt) ;;;
    feats <- lift (as_list feats_v) ;;
    picked <- pick_item args feats ;;
    match picked with
    | None => ret st
    | Some chosen_item_id =>
        match_ <- lift (resolve_match chosen_item_id feats) ;;
        props <- lift (getitem match_ "properties") ;;
        item_type <- lift (getitem props "item_type") ;;
        let orders := (orders_list st
                         ++ [{| ref_item_id := chosen_item_id;
                                ref_item_type := item_type;
                                ref_aoi_wkt := str_take 120 (wkt geom) |}])%list in
        if arg_order args then
          let order_idx' := S (order_idx st) in
          let order_name := "AOI_" ++ fmt_03d (idx + 1) ++ "_" ++ fmt_03d order_idx' in
          try_except
            (place_order_and_download cfg chosen_item_id item_type geom
                                      (arg_bundle args) order_name ;;; ret tt)
            (fun _ => ret tt) ;;;
          ret {| orders_list := orders; order_idx := order_idx' |}
        else ret {| orders_list := orders; order_idx := order_idx st |}
    end.

Fixpoint aoi_loop (args : Args) (cfg : Config) (params : SearchParams)
         (nrows idx : nat) (rows : list G) (st : loop_state) : M loop_state :=
  match rows with
  | [] => ret st
  | row :: rest =>
      st' <- process_aoi args cfg params nrows idx row st ;;
      aoi_loop args cfg params nrows (S idx) rest st'
  end.

(** [main]: [pl_api_key] is the value of [PL_API_KEY] in the environment
    ([""] when unset), [rows] the geometries of the records read from the AOI
    file, in order.  The result is the exit code; an exception that leaves
    [main] ends the run. *)
Definition main (args : Args) (pl_api_key : string) (rows : list G) : M Z :=
  let key := strip pl_api_key in
  if (key =? "")%string then ret 2
  else
    let cfg := mkConfig key (arg_download_dir args) in
    let params := params_of_args args in
    match rows with
    | [] => ret 2
    | _ =>
        st <- aoi_loop args cfg params (List.length rows) 0 rows
                       {| orders_list := []; order_idx := 0 |} ;;
        match orders_list st with
        | [] => ret 0
        | rows_out => write_file (arg_orders_out args) (OrdersText rows_out) ;;; ret 0
        end
    end.
End Orchestrator.

(* ------------------------------------------------------------------------- *)
(** ** Vocabulary of the properties *)

(** Whether the date predicate emitted for [p] admits the timestamp [t]. *)
Definition admits_date {G : Type} `{Shapely G} (g : G) (p : SearchParams) (t : string) : bool :=
  match predicate_on "acquired" (build_planet_filters g p) with
  | Some predicate => range_admits predicate t
  | None => false
  end.

(** No two geometries of the list have the same area. *)
Fixpoint distinct_areas {G : Type} `{Shapely G} (l : list G) : bool :=
  match l with
  | [] => true
  | x :: r => forallb (fun y => negb (Qeq_bool (area x) (area y))) r && distinct_areas r
  end.

(** The status payload and the state that an answer to a status fetch
    reports: the fetch succeeded and its body is a JSON object. *)
Definition reported (r : response) : option (json * json) :=
  if ok r then
    match body r with
    | Some (JObj d) =>
        Some (JObj d, match dict_lookup "state" d with Some v => v | None => JNull end)
    | _ => None
    end
  else None.

(** An answer that reports a state other than [success] and [failed]. *)
Definition reports_pending (r : response) : Prop :=
  exists s state, reported r = Some (s, state)
                  /\ state <> JStr "success" /\ state <> JStr "failed".

Definition get_request (u : string) : request :=
  {| method := "GET"; url := u; payload := None |}.

(** The world after [gets] status fetches of [u] and [sleeps] waits, the
    provider's remaining answers being [rest]. *)
Definition after_polls (cfg : Config) (u : string) (gets sleeps : nat)
           (rest : list reply) (w : world) : world :=
  {| script := rest; stdin := stdin w;
     sent := (sent w ++ repeat (get_request u) gets)%list;
     slept := (slept w ++ repeat (poll_interval_s cfg) sleeps)%list;
     files := files w; browser := browser w |}.

(** The world once the request [rq] has gone out and has been answered, the
    provider's remaining answers being [rest]: nothing else has changed. *)
Definition answered (rq : request) (rest : list reply) (w : world) : world :=
  set_script (log_request w rq) rest.

(** The request that submits an order. *)
Definition order_post {G : Type} `{Shapely G} (cfg : Config) (item_id item_type : json)
           (aoi : G) (product_bundle order_name : string) : request :=
  {| method := "POST"; url := orders_url cfg;
     payload := Some (order_request item_id item_type aoi product_bundle order_name) |}.

(** A result descriptor as the provider documents it: an object with a
    string [location] and, when it has a [name], a string. *)
Definition descriptor_ok (result : json) : bool :=
  match result with
  | JObj d =>
      match dict_lookup "location" d with Some (JStr _) => true | _ => false end
      && match dict_lookup "name" d with None | Some (JStr _) => true | _ => false end
  | _ => false
  end.

Definition location (result : json) : string :=
  match get result "location" JNull with
  | Ret (JStr u) => u
  | _ => ""
  end.

(** The name a descriptor suggests for its file, or the default of the
    descriptor at position [idx] (counted from 1). *)
Definition suggested_name (idx : nat) (result : json) : string :=
  match result with
  | JObj d => match dict_lookup "name" d with
              | Some (JStr n) => n
              | _ => ("result_" ++ str_of_nat idx)%string
              end
  | _ => ""
  end.

(** Every descriptor, counted from [idx], suggests a name that has a final
    component. *)
Fixpoint named (idx : nat) (results : list json) : bool :=
  match results with
  | [] => true
  | result :: rest =>
      negb (path_name (suggested_name idx result) =? "")%string && named (S idx) rest
  end.

(** A download succeeds: the status is not an error and the Content-Length
    header, when there is one, is a number. *)
Definition download_ok (r : response) : bool :=
  ok r && match py_int (match content_length r with Some s => s | None => "0" end) with
          | Ret _ => true
          | _ => false
          end.

(** The bytes of a response body, as the provider streams them. *)
Definition fetched (r : response) : bytes := List.concat (chunks r).

(** What the specification asks the archive to hold: one entry per
    descriptor, in order, named by the last component of the suggested name
    and holding the bytes fetched for it. *)
Fixpoint packaged (idx : nat) (results : list json) (downloads : list response)
  : list (string * bytes) :=
  match results, downloads with
  | result :: results', r :: downloads' =>
      (path_name (suggested_name idx result), fetched r)
        :: packaged (S idx) results' downloads'
  | _, _ => []
  end.

(** The world after the results have been fetched one by one. *)
Definition after_downloads (results : list json) (rest : list reply) (w : world) : world :=
  {| script := rest; stdin := stdin w;
     sent := (sent w ++ map (fun result => get_request (location result)) results)%list;
     slept := slept w; files := files w; browser := browser w |}.

(** [growing m]: running [m] keeps every request already sent and may add
    some after them. *)
Definition growing {A} (m : M A) : Prop :=
  forall w, exists more, sent (snd (m w)) = (sent w ++ more)%list.

Fixpoint no_slash (s : string) : bool :=
  match s with
  | EmptyString => true
  | String c r => negb (Ascii.eqb c "/") && no_slash r
  end.

(** *** Sample data *)
Module Sample.

Definition feature (i t : string) : json :=
  JObj [("id", JStr i); ("properties", JObj [("item_type", JStr t)])].

Definition answer (status : Z) (b : json) : reply :=
  Answer {| status_code := status; text := ""; body := Some b;
            content_length := None; chunks := [] |}.

Definition streamed (cs : list bytes) : response :=
  {| status_code := 200; text := ""; body := None;
     content_length := Some "3"; chunks := cs |}.

Definition fresh (answers : list reply) : world :=
  {| script := answers; stdin := []; sent := []; slept := [];
     files := []; browser := [] |}.

Definition three_features : reply :=
  answer 200 (JObj [("type", JStr "FeatureCollection");
                    ("features", JArr [feature "s1" "PSScene";
                                       feature "s2" "PSScene";
                                       feature "s3" "SkySatScene"])]).

Definition accepted : reply :=
  answer 202 (JObj [("id", JStr "order-1");
                    ("_links", JObj [("_self", JStr "https://orders/order-1")])]).

Definition state_payload (state : string) (results : list json) : json :=
  JObj [("state", JStr state); ("_links", JObj [("results", JArr results)])].

Definition status (state : string) (results : list json) : response :=
  {| status_code := 200; text := ""; body := Some (state_payload state results);
     content_length := None; chunks := [] |}.

Definition waiting : list response := [status "queued" []; status "running" []].
Definition order_link : string := "https://orders/order-1".

Definition descriptors : list json :=
  [JObj [("location", JStr "https://files/1"); ("name", JStr "order-1/PSScene/s1_clip.tif")];
   JObj [("location", JStr "https://files/2")]].

Definition downloads : list response :=
  [streamed [[Byte.x50; Byte.x4b]; []; [Byte.x03]];
   streamed [[Byte.x49; Byte.x49; Byte.x2a]]].

Definition cfg : Config := mkConfig "KEY" "./downloads".

Definition cap2 : SearchParams := {|
  start_date := "2020-09-01"; end_date := "2020-12-31";
  max_cloud_cover := 1 # 10; min_nadir := - (1); max_nadir := 1;
  instruments := ["PSB.SD"]; item_types := ["PSScene"]; result_limit := 2 |}.

Definition unit_square : Grid.geometry := Grid.Polygon (Grid.square 0 0 1).


End Sample.

(* ------------------------------------------------------------------------- *)
(** ** The remaining helpers of the script *)

(** *** Logging (lines 53-63)

    The levels of the [logging] module, and the level that [setup_logging]
    hands to [basicConfig]. *)
Definition WARNING : Z := 30.
Definition INFO : Z := 20.
Definition DEBUG : Z := 10.

Definition setup_logging (verbosity : Z) : Z :=
  if verbosity =? 1 then INFO
  else if verbosity >=? 2 then DEBUG
  else WARNING.

(** *** Timeout wrapper (lines 124-128)

    [kwargs.setdefault(k, v)] on the keyword arguments of a call. *)
Definition setdefault (k : string) (v : json) (kwargs : dict) : dict :=
  match dict_lookup k kwargs with
  | Some _ => kwargs
  | None => (kwargs ++ [(k, v)])%list
  end.

Definition _with_timeout {R : Type} (request_func : string -> string -> dict -> R)
           (timeout_s : Z) : string -> string -> dict -> R :=
  fun method url kwargs =>
    request_func method url (setdefault "timeout" (JNum (inject_Z timeout_s)) kwargs).

(** *** Text list (lines 157-161)

    The text that [write_text_list] writes to the file it has opened for
    writing: every row followed by a newline. *)
Definition newline : ascii := ascii_of_nat 10.

Fixpoint write_text_list (rows : list string) : string :=
  match rows with
  | [] => ""
  | r :: rest => r ++ String newline (write_text_list rest)
  end.

Fixpoint no_newline (s : string) : bool :=
  match s with
  | EmptyString => true
  | String c r => negb (Ascii.eqb c newline) && no_newline r
  end.

(* ------------------------------------------------------------------------- *)
(** ** Further vocabulary *)

(** The provider's range operators on numbers. *)
Definition num_op_holds (op : string) (bound x : Q) : bool :=
  if (op =? "gt")%string then negb (Qle_bool x bound)
  else if (op =? "gte")%string then Qle_bool bound x
  else if (op =? "lt")%string then negb (Qle_bool bound x)
  else if (op =? "lte")%string then Qle_bool x bound
  else false.

Definition num_bound_holds (x : Q) (kv : string * json) : bool :=
  match snd kv with
  | JNum bound => num_op_holds (fst kv) bound x
  | _ => false
  end.

Definition range_admits_number (predicate : json) (x : Q) : bool :=
  match predicate with
  | JObj d =>
      match dict_lookup "config" d with
      | Some (JObj cfg) => forallb (num_bound_holds x) cfg
      | _ => false
      end
  | _ => false
  end.

(** Whether the filter emitted for [p] admits a scene with the value [x] in
    the numeric field [name]. *)
Definition admits_number {G : Type} `{Shapely G} (name : string) (g : G)
           (p : SearchParams) (x : Q) : bool :=
  match predicate_on name (build_planet_filters g p) with
  | Some predicate => range_admits_number predicate x
  | None => false
  end.

(** The request of a quick-search. *)
Definition search_post {G : Type} `{Shapely G} (cfg : Config) (g : G) (p : SearchParams)
  : request :=
  {| method := "POST"; url := (data_url cfg ++ "/quick-search")%string;
     payload := Some (JObj [("item_types", JArr (map JStr (item_types p)));
                            ("filter", build_planet_filters g p)]) |}.

Definition is_search (cfg : Config) (rq : request) : Prop :=
  method rq = "POST" /\ url rq = (data_url cfg ++ "/quick-search")%string.

(** [searching cfg m]: the only requests that [m] adds are quick-searches. *)
Definition searching {A} (cfg : Config) (m : M A) : Prop :=
  forall w, exists more,
      sent (snd (m w)) = (sent w ++ more)%list /\ Forall (is_search cfg) more.

(** An entry name of a flat archive: not empty, no directory part. *)
Definition flat_name (entry : string * bytes) : Prop :=
  no_slash (fst entry) = true /\ fst entry <> "".

(** A search answer without features: a success whose body has no [features]
    key, or an empty list under it. *)
Definition no_features (r : response) : Prop :=
  ok r = true
  /\ exists d, body r = Some (JObj d)
               /\ (dict_lookup "features" d = None
                   \/ dict_lookup "features" d = Some (JArr [])).

(** What one turn of the loop may do to its state: nothing, or one more
    reference line, with or without one more order. *)
Definition one_step (st st' : loop_state) : Prop :=
  st' = st
  \/ exists line,
      orders_list st' = (orders_list st ++ [line])%list
      /\ (order_idx st' = order_idx st \/ order_idx st' = S (order_idx st)).

(** *** Further sample data *)
Module Cases.

Definition unauthorized : response :=
  {| status_code := 401; text := "bad key";
     body := Some (JObj [("features", JArr [])]);
     content_length := None; chunks := [] |}.

Definition with_cap (n : Z) : SearchParams := {|
  start_date := "2020-09-01"; end_date := "2020-12-31";
  max_cloud_cover := 1 # 10; min_nadir := - (1); max_nadir := 1;
  instruments := ["PSB.SD"]; item_types := ["PSScene"]; result_limit := n |}.

Definition swapped_dates : SearchParams := {|
  start_date := "2020-12-31"; end_date := "2020-09-01";
  max_cloud_cover := 1 # 10; min_nadir := - (1); max_nadir := 1;
  instruments := ["PSB.SD"]; item_types := ["PSScene"]; result_limit := 100 |}.

End Cases.

Module Cases2.

Definition unavailable : response :=
  {| status_code := 503; text := "try later"; body := None;
     content_length := None; chunks := [] |}.

Definition gone : response :=
  {| status_code := 404; text := "not found"; body := None;
     content_length := None; chunks := [] |}.

Definition nothing_found : response :=
  {| status_code := 200; text := "";
     body := Some (JObj [("type", JStr "FeatureCollection"); ("features", JArr [])]);
     content_length := None; chunks := [] |}.

Definition no_list : response :=
  {| status_code := 200; text := ""; body := Some (JObj [("message", JStr "ok")]);
     content_length := None; chunks := [] |}.

Definition rejected : response :=
  {| status_code := 400; text := "bad order"; body := None;
     content_length := None; chunks := [] |}.

(** [--order], nothing else. *)
Definition order_first : Args := {|
  arg_start_date := "2020-09-01"; arg_end_date := "2020-12-31";
  arg_max_cloud := 1 # 10; arg_min_nadir := - (1); arg_max_nadir := 1;
  arg_instrument := ["PSB.SD"]; arg_item_type := ["PSScene"];
  arg_bundle := "visual"; arg_download_dir := "./downloads";
  arg_orders_out := "./orders/list_of_orders_2020.txt";
  arg_map_out := "./preview/planet_search_preview_map.html";
  arg_preview := false; arg_open_map := false; arg_prompt := false;
  arg_item_id := ""; arg_order := true |}.

(** [--prompt --item-id s3] *)
Definition prompting : Args := {|
  arg_start_date := "2020-09-01"; arg_end_date := "2020-12-31";
  arg_max_cloud := 1 # 10; arg_min_nadir := - (1); arg_max_nadir := 1;
  arg_instrument := ["PSB.SD"]; arg_item_type := ["PSScene"];
  arg_bundle := "visual"; arg_download_dir := "./downloads";
  arg_orders_out := "./orders/list_of_orders_2020.txt";
  arg_map_out := "./preview/planet_search_preview_map.html";
  arg_preview := false; arg_open_map := false; arg_prompt := true;
  arg_item_id := "s3"; arg_order := false |}.

Definition three : list json :=
  [Sample.feature "s1" "PSScene"; Sample.feature "s2" "PSScene";
   Sample.feature "s3" "SkySatScene"].

Definition typing (line : string) : world :=
  {| script := []; stdin := [line]; sent := []; slept := []; files := []; browser := [] |}.

(** [--preview], nothing else. *)
Definition previewing : Args := {|
  arg_start_date := "2020-09-01"; arg_end_date := "2020-12-31";
  arg_max_cloud := 1 # 10; arg_min_nadir := - (1); arg_max_nadir := 1;
  arg_instrument := ["PSB.SD"]; arg_item_type := ["PSScene"];
  arg_bundle := "visual"; arg_download_dir := "./downloads";
  arg_orders_out := "./orders/list_of_orders_2020.txt";
  arg_map_out := "./preview/planet_search_preview_map.html";
  arg_preview := true; arg_open_map := false; arg_prompt := false;
  arg_item_id := ""; arg_order := false |}.

End Cases2.

(** *** Preview (lines 239-243 and 424-426) *)

(** A feature that the preview can read: an object whose [properties], when
    present, is an object. *)
Definition feature_ok (f : json) : bool :=
  match f with
  | JObj d => match dict_lookup "properties" d with
              | None | Some (JObj _) => true
              | _ => false
              end
  | _ => false
  end.

(** The tile layer of a feature: its item type and id, when it has both. *)
Definition layer_of (f : json) : option (json * json) :=
  match f with
  | JObj d =>
      let item_id := match dict_lookup "id" d with Some v => v | None => JNull end in
      let item_type :=
        match dict_lookup "properties" d with
        | Some (JObj p) => match dict_lookup "item_type" p with Some v => v | None => JNull end
        | _ => JNull
        end in
      if truthy item_id && truthy item_type then Some (item_type, item_id) else None
  | _ => None
  end.

Fixpoint layers_of (feats : list json) : list (json * json) :=
  match feats with
  | [] => []
  | f :: rest => match layer_of f with
                 | Some layer => layer :: layers_of rest
                 | None => layers_of rest
                 end
  end.

(** [s.isascii()] *)
Definition isascii (s : string) : bool :=
  forallb (fun c => (nat_of_ascii c <? 128)%nat) (list_ascii_of_string s).

(** [keeps_files m]: [m] writes no file. *)
Definition keeps_files {A} (m : M A) : Prop :=
  forall w, files (snd (m w)) = files w.

(** [previews_at path m]: the only file that [m] may write is one preview
    map, at [path]. *)
Definition previews_at {A} (path : result string) (m : M A) : Prop :=
  forall w, files (snd (m w)) = files w
            \/ exists p aoi layers,
                path = Ret p
                /\ files (snd (m w)) = (p, PreviewMap aoi layers) :: files w.

(** A geometry library in which no polygon is valid and no buffer repairs
    one: the last refusal of the normalizer. *)
Module Stubborn.
Definition shapely : Shapely unit := {|
  is_empty := fun _ => false;
  geom_type := fun _ => "Polygon";
  is_valid := fun _ => false;
  area := fun _ => 0%Q;
  geoms := fun _ => [];
  unary_union := fun g => g;
  buffer0 := fun g => g;
  mapping := fun _ => JNull;
  wkt := fun _ => "POLYGON EMPTY"
|}.
End Stubborn.

(* ------------------------------------------------------------------------- *)
(** * Properties *)

Local Open Scope list_scope.

(** ** Filter builder *)

Lemma string_compare_refl (s : string) : String.compare s s = Eq.
Proof.
  induction s as [|c s IH]; simpl; [reflexivity|].
  unfold Ascii.compare. rewrite N.compare_refl. exact IH.
Qed.

Lemma string_ltb_irrefl (s : string) : String.ltb s s = false.
Proof. unfold String.ltb. now rewrite string_compare_refl. Qed.

Lemma string_leb_refl (s : string) : String.leb s s = true.
Proof. unfold String.leb. now rewrite string_compare_refl. Qed.

Lemma admits_date_unfold {G : Type} `{Shapely G} (g : G) (p : SearchParams) (t : string) :
  admits_date g p t
  = String.ltb (instant (start_date p)) t && (String.ltb t (instant (end_date p)) && true).
Proof. reflexivity. Qed.

(** C1, as the code has it: the date predicate carries [gt] and [lt], so it
    admits exactly the timestamps strictly between the start instant (start
    date at 00:00:00Z) and the end instant; neither instant is admitted. *)
Theorem date_predicate_is_open_interval :
  forall (G : Type) (SG : Shapely G) (g : G) (p : SearchParams) (t : string),
    (admits_date g p t = true <->
     String.ltb (instant (start_date p)) t = true
     /\ String.ltb t (instant (end_date p)) = true)
    /\ admits_date g p (instant (start_date p)) = false
    /\ admits_date g p (instant (end_date p)) = false.
Proof.
  intros G SG g p t. repeat split.
  - rewrite admits_date_unfold in H. apply andb_prop in H. tauto.
  - rewrite admits_date_unfold in H. apply andb_prop in H.
    destruct H as [_ H]. apply andb_prop in H. tauto.
  - intros [H1 H2]. rewrite admits_date_unfold, H1, H2. reflexivity.
  - rewrite admits_date_unfold, string_ltb_irrefl. reflexivity.
  - rewrite admits_date_unfold, string_ltb_irrefl. apply andb_false_r.
Qed.

(** C1, as the specification words it ([start, end), the start instant
    included), fails: with the default dates the instant
    2020-09-01T00:00:00Z lies in [start, end) and is not admitted. *)
Lemma date_predicate_excludes_start_instant :
  ~ (forall (p : SearchParams) (t : string),
        admits_date Sample.unit_square p t = true <->
        String.leb (instant (start_date p)) t = true
        /\ String.ltb t (instant (end_date p)) = true).
Proof.
  intro claim.
  destruct (claim (params_of_args default_args) "2020-09-01T00:00:00Z") as [_ back].
  assert (rejected : admits_date Sample.unit_square (params_of_args default_args)
                                 "2020-09-01T00:00:00Z" = false) by reflexivity.
  rewrite back in rejected; [discriminate | split; reflexivity].
Qed.

(** ** Geometry normalizer *)

Section NormalizerFacts.
Context {G : Type} `{Shapely G}.

Lemma validate_valid_polygon (p : G) :
  geom_type p = "Polygon" -> is_valid p = true -> is_empty p = false ->
  validate_geometry p = Ret p.
Proof.
  intros Hty Hvalid Hne. unfold validate_geometry, candidate, repair.
  rewrite Hne, Hty. simpl. rewrite Hvalid. reflexivity.
Qed.

Lemma Qgtb_true (a b : Q) : Qgtb a b = true <-> (b < a)%Q.
Proof.
  unfold Qgtb. rewrite negb_true_iff. split.
  - intro E. apply Qnot_le_lt. intro L. apply Qle_bool_iff in L. congruence.
  - intro L. destruct (Qle_bool a b) eqn:E; [|reflexivity].
    apply Qle_bool_iff in E. exfalso. exact (Qlt_not_le _ _ L E).
Qed.

Lemma Qgtb_false (a b : Q) : Qgtb a b = false <-> (a <= b)%Q.
Proof.
  unfold Qgtb. rewrite negb_false_iff. apply Qle_bool_iff.
Qed.

(** The running maximum: either the start value survives, and nothing later
    exceeds it, or the result sits in the list, strictly above everything
    before it (the start value included) and not below anything after. *)
Lemma max_from_cases (key : G -> Q) (xs : list G) :
  forall best,
    (max_from key best xs = best /\ Forall (fun x => (key x <= key best)%Q) xs)
    \/ (exists before after,
           xs = before ++ max_from key best xs :: after
           /\ (key best < key (max_from key best xs))%Q
           /\ Forall (fun x => (key x < key (max_from key best xs))%Q) before
           /\ Forall (fun x => (key x <= key (max_from key best xs))%Q) after).
Proof.
  induction xs as [|x r IH]; intro best; simpl.
  - left. split; [reflexivity | constructor].
  - destruct (Qgtb (key x) (key best)) eqn:E.
    + apply Qgtb_true in E. right.
      destruct (IH x) as [[Hx Hall] | (bf & af & Hsplit & Hlt & Hbf & Haf)].
      * exists [], r. rewrite Hx. repeat split; auto.
      * exists (x :: bf), af. repeat split.
        -- simpl. f_equal. exact Hsplit.
        -- eapply Qlt_trans; eauto.
        -- constructor; assumption.
        -- assumption.
    + apply Qgtb_false in E.
      destruct (IH best) as [[Hb Hall] | (bf & af & Hsplit & Hlt & Hbf & Haf)].
      * left. split; [exact Hb | constructor; assumption].
      * right. exists (x :: bf), af. repeat split.
        -- simpl. f_equal. exact Hsplit.
        -- assumption.
        -- constructor; [eapply Qle_lt_trans; eauto | assumption].
        -- assumption.
Qed.

Lemma py_max_first_greatest (key : G -> Q) (m : G) (ms : list G) :
  exists before c after,
    py_max key (m :: ms) = Ret c
    /\ m :: ms = before ++ c :: after
    /\ Forall (fun x => (key x < key c)%Q) before
    /\ Forall (fun x => (key x <= key c)%Q) after.
Proof.
  simpl. destruct (max_from_cases key ms m) as [[Hm Hall] | (bf & af & Hsplit & Hlt & Hbf & Haf)].
  - exists [], m, ms. rewrite Hm. repeat split; auto.
  - exists (m :: bf), (max_from key m ms), af. repeat split; auto.
    simpl. f_equal. exact Hsplit.
Qed.

Lemma distinct_areas_app_r (l1 l2 : list G) :
  distinct_areas (l1 ++ l2) = true -> distinct_areas l2 = true.
Proof.
  induction l1 as [|x l1 IH]; simpl; [tauto|].
  intro E. apply andb_prop in E. tauto.
Qed.

Lemma distinct_areas_head (c : G) (after : list G) :
  distinct_areas (c :: after) = true ->
  Forall (fun x => ~ (area c == area x)%Q) after.
Proof.
  simpl. intro E. apply andb_prop in E. destruct E as [E _].
  rewrite forallb_forall in E. apply Forall_forall. intros x Hin Heq.
  specialize (E x Hin). apply negb_true_iff in E.
  apply Qeq_bool_neq in E. contradiction.
Qed.
End NormalizerFacts.

(** C7: a valid polygon is returned as it is, so normalizing the output of
    normalization gives that output again. *)
Theorem validate_geometry_idempotent :
  forall (G : Type) (SG : Shapely G) (p : G),
    geom_type p = "Polygon" -> is_valid p = true ->
    (is_empty p = false -> validate_geometry p = Ret p)
    /\ (forall q, validate_geometry p = Ret q -> q = p /\ validate_geometry q = Ret q).
Proof.
  intros G SG p Hty Hvalid. split.
  - now apply validate_valid_polygon.
  - intros q Hq. destruct (is_empty p) eqn:Hne.
    + unfold validate_geometry in Hq. rewrite Hne in Hq. discriminate.
    + rewrite (validate_valid_polygon p Hty Hvalid Hne) in Hq.
      injection Hq as <-. split; [reflexivity | now apply validate_valid_polygon].
Qed.

Lemma validate_geometry_idempotent_witness :
  validate_geometry (Grid.Polygon (Grid.square 0 0 2)) = Ret (Grid.Polygon (Grid.square 0 0 2))
  /\ (forall q, validate_geometry (Grid.Polygon (Grid.square 0 0 2)) = Ret q ->
                q = Grid.Polygon (Grid.square 0 0 2) /\ validate_geometry q = Ret q).
Proof.
  destruct (validate_geometry_idempotent Grid.geometry Grid.shapely
              (Grid.Polygon (Grid.square 0 0 2))) as [H1 H2];
    [reflexivity | reflexivity |].
  split; [apply H1; reflexivity | exact H2].
Defined.

(** C3, as the code has it: a MultiPolygon is first dissolved by
    [unary_union].  When the union is one polygon (members that overlap or
    share an edge), that merged polygon is the candidate.  When the union is
    again a MultiPolygon, the candidate is the member of the union with the
    greatest area, the first such member in the order of the union; with
    pairwise distinct areas it is strictly greater than every other member.
    The candidate is returned unmodified unless it is invalid, in which case
    the zero-width buffer is applied once. *)
Theorem validate_geometry_multipolygon :
  forall (G : Type) (SG : Shapely G) (g : G),
    is_empty g = false -> geom_type g = "MultiPolygon" ->
    (geom_type (unary_union g) = "Polygon" ->
     validate_geometry g = repair (unary_union g))
    /\ (geom_type (unary_union g) = "MultiPolygon" ->
        forall m ms, geoms (unary_union g) = m :: ms ->
        exists before c after,
          m :: ms = before ++ c :: after
          /\ Forall (fun x => (area x < area c)%Q) before
          /\ Forall (fun x => (area x <= area c)%Q) after
          /\ (distinct_areas (m :: ms) = true ->
              Forall (fun x => (area x < area c)%Q) after)
          /\ validate_geometry g = repair c).
Proof.
  intros G SG g Hne Hty.
  assert (Hcand : validate_geometry g = rbind (candidate g) repair).
  { unfold validate_geometry. now rewrite Hne. }
  assert (Hnot : (geom_type g =? "Polygon")%string = false).
  { rewrite Hty. reflexivity. }
  split.
  - intro Hu. rewrite Hcand. unfold candidate. rewrite Hnot, Hu. reflexivity.
  - intros Hu m ms Hgeoms.
    destruct (py_max_first_greatest area m ms) as (bf & c & af & Hmax & Hsplit & Hbf & Haf).
    exists bf, c, af. repeat split; auto.
    + intro Hdistinct. rewrite Hsplit in Hdistinct.
      apply distinct_areas_app_r in Hdistinct.
      apply distinct_areas_head in Hdistinct.
      rewrite Forall_forall in *. intros x Hin.
      destruct (Qle_lt_or_eq _ _ (Haf x Hin)) as [Hlt | Heq]; [exact Hlt|].
      exfalso. apply (Hdistinct x Hin). symmetry. exact Heq.
    + rewrite Hcand. unfold candidate. rewrite Hnot, Hu. simpl.
      rewrite Hgeoms, Hmax. reflexivity.
Qed.

(** Two squares that do not touch: the union keeps them apart and one of
    them is selected; two squares that overlap: the union is one polygon. *)
Lemma validate_geometry_multipolygon_witness :
  (exists before c after,
      [Grid.Polygon (Grid.square 0 0 2); Grid.Polygon (Grid.square 5 5 3)]
      = before ++ c :: after
      /\ Forall (fun x => (area x < area c)%Q) before
      /\ Forall (fun x => (area x <= area c)%Q) after
      /\ validate_geometry (Grid.MultiPolygon [Grid.square 0 0 2; Grid.square 5 5 3])
         = repair c)
  /\ validate_geometry (Grid.MultiPolygon [Grid.square 0 0 2; Grid.square 1 1 3])
     = repair (unary_union (Grid.MultiPolygon [Grid.square 0 0 2; Grid.square 1 1 3])).
Proof.
  split.
  - destruct (validate_geometry_multipolygon Grid.geometry Grid.shapely
                (Grid.MultiPolygon [Grid.square 0 0 2; Grid.square 5 5 3])
                eq_refl eq_refl) as [_ Hmulti].
    destruct (Hmulti eq_refl (Grid.Polygon (Grid.square 0 0 2))
                     [Grid.Polygon (Grid.square 5 5 3)] eq_refl)
      as (bf & c & af & Hsplit & Hbf & Haf & _ & Hv).
    exists bf, c, af. repeat split; assumption.
  - destruct (validate_geometry_multipolygon Grid.geometry Grid.shapely
                (Grid.MultiPolygon [Grid.square 0 0 2; Grid.square 1 1 3])
                eq_refl eq_refl) as [Hpoly _].
    exact (Hpoly eq_refl).
Defined.

(** C3, as the specification words it (the result is one of the input
    parts, never a merge), fails: a square of area 4 and a square of area 9
    that overlap in one cell are merged into a single polygon of area 12,
    which is neither of the two parts. *)
Lemma validate_geometry_merges_overlapping_parts :
  ~ (forall g : Grid.geometry,
        geom_type g = "MultiPolygon" -> is_empty g = false ->
        distinct_areas (geoms g) = true ->
        exists part,
          In part (geoms g)
          /\ Forall (fun other => (area other <= area part)%Q) (geoms g)
          /\ validate_geometry g = repair part).
Proof.
  intro claim.
  destruct (claim (Grid.MultiPolygon [Grid.square 0 0 2; Grid.square 1 1 3])
                  eq_refl eq_refl eq_refl) as (part & Hin & _ & Hv).
  simpl in Hin. destruct Hin as [<- | [<- | []]]; vm_compute in Hv; discriminate.
Qed.

(** ** Search client *)

Lemma dict_lookup_set_same (k : string) (v : json) (d : dict) :
  dict_lookup k (dict_set k v d) = Some v.
Proof.
  induction d as [|[k' v'] d IH]; simpl.
  - now rewrite String.eqb_refl.
  - destruct (k' =? k)%string eqn:E; simpl; rewrite E; [reflexivity | exact IH].
Qed.

Lemma dict_lookup_set_other (k k' : string) (v : json) (d : dict) :
  k' <> k -> dict_lookup k' (dict_set k v d) = dict_lookup k' d.
Proof.
  intro Hneq. induction d as [|[k0 v0] d IH]; simpl.
  - destruct (k =? k')%string eqn:E; [|reflexivity].
    apply String.eqb_eq in E. congruence.
  - destruct (k0 =? k)%string eqn:E; simpl.
    + apply String.eqb_eq in E. subst k0.
      destruct (k =? k')%string eqn:E'; [|reflexivity].
      apply String.eqb_eq in E'. congruence.
    + now rewrite IH.
Qed.

Section ClientFacts.
Context {G : Type} `{Shapely G}.

(** One successful answer: the search returns the capped body and leaves
    the rest of the script. *)
Lemma quick_search_answer (cfg : Config) (g : G) (p : SearchParams)
      (resp : response) (data : json) (rest : list reply) (w : world) :
  script w = Answer resp :: rest -> ok resp = true -> body resp = Some data ->
  fst (quick_search cfg g p w) = cap_features (result_limit p) data.
Proof.
  intros Hs Hok Hbody. unfold quick_search, bind, http. rewrite Hs. simpl.
  rewrite Hok. simpl. unfold resp_json. rewrite Hbody. reflexivity.
Qed.
End ClientFacts.

(** C6: with a cap [N >= 0] and a response of [M] features, the search keeps
    exactly the first [N] features, in the provider's order, when [M > N], and
    returns the body unchanged when [M <= N]. *)
Theorem quick_search_caps_features :
  forall (G : Type) (SG : Shapely G) (cfg : Config) (g : G) (p : SearchParams)
         (resp : response) (d : dict) (fs : list json) (rest : list reply) (w : world),
    script w = Answer resp :: rest -> ok resp = true ->
    body resp = Some (JObj d) -> dict_lookup "features" d = Some (JArr fs) ->
    0 <= result_limit p ->
    (Z.of_nat (List.length fs) > result_limit p ->
     exists d',
       fst (quick_search cfg g p w) = Ret (JObj d')
       /\ dict_lookup "features" d' = Some (JArr (firstn (Z.to_nat (result_limit p)) fs))
       /\ Z.of_nat (List.length (firstn (Z.to_nat (result_limit p)) fs)) = result_limit p
       /\ (forall k, k <> "features" -> dict_lookup k d' = dict_lookup k d))
    /\ (Z.of_nat (List.length fs) <= result_limit p ->
        fst (quick_search cfg g p w) = Ret (JObj d)).
Proof.
  intros G SG cfg g p resp d fs rest w Hs Hok Hbody Hfs Hcap.
  rewrite (quick_search_answer cfg g p resp (JObj d) rest w Hs Hok Hbody).
  unfold cap_features. rewrite Hfs. split; intro HM.
  - destruct (Z.of_nat (List.length fs) >? result_limit p) eqn:E.
    2:{ rewrite Z.gtb_ltb in E. apply Z.ltb_ge in E. lia. }
    exists (dict_set "features" (JArr (slice_to fs (result_limit p))) d).
    assert (Hslice : slice_to fs (result_limit p) = firstn (Z.to_nat (result_limit p)) fs).
    { unfold slice_to. destruct (result_limit p <? 0) eqn:E'; [|reflexivity].
      apply Z.ltb_lt in E'. lia. }
    rewrite Hslice. repeat split.
    + apply dict_lookup_set_same.
    + rewrite firstn_length_le by lia. lia.
    + intros k Hk. now apply dict_lookup_set_other.
  - destruct (Z.of_nat (List.length fs) >? result_limit p) eqn:E; [|reflexivity].
    rewrite Z.gtb_ltb in E. apply Z.ltb_lt in E. lia.
Qed.

Lemma quick_search_caps_features_witness :
  exists d',
    fst (quick_search Sample.cfg Sample.unit_square Sample.cap2
                      (Sample.fresh [Sample.three_features])) = Ret (JObj d')
    /\ dict_lookup "features" d'
       = Some (JArr [Sample.feature "s1" "PSScene"; Sample.feature "s2" "PSScene"]).
Proof.
  destruct (quick_search_caps_features Grid.geometry Grid.shapely
              Sample.cfg Sample.unit_square Sample.cap2 _ _ _ [] 
              (Sample.fresh [Sample.three_features])
              eq_refl eq_refl eq_refl eq_refl) as [Hcap _]; [simpl; lia|].
  destruct Hcap as (d' & Hret & Hfs & _); [simpl; lia|].
  exists d'. split; [exact Hret | exact Hfs].
Defined.

(** ** Order lifecycle: polling *)

Lemma json_eqb_str (v : json) (s : string) : json_eqb v (JStr s) = true <-> v = JStr s.
Proof.
  destruct v; simpl; split; intro E; try discriminate.
  - apply String.eqb_eq in E. now subst.
  - injection E as ->. apply String.eqb_refl.
Qed.

Lemma json_eqb_str_false (v : json) (s : string) : v <> JStr s -> json_eqb v (JStr s) = false.
Proof.
  intro Hneq. destruct (json_eqb v (JStr s)) eqn:E; [|reflexivity].
  apply json_eqb_str in E. contradiction.
Qed.

Lemma reported_inv (r : response) (s state : json) :
  reported r = Some (s, state) ->
  ok r = true /\ body r = Some s /\ get s "state" JNull = Ret state.
Proof.
  unfold reported. destruct (ok r); [|discriminate].
  destruct (body r) as [[| | | | |d]|]; try discriminate.
  intro E. injection E as <- <-. repeat split.
  simpl. destruct (dict_lookup "state" d); reflexivity.
Qed.

Lemma after_polls_after_polls (cfg : Config) (u : string) (a b a' b' : nat)
      (rest rest' : list reply) (w : world) :
  after_polls cfg u a b rest (after_polls cfg u a' b' rest' w)
  = after_polls cfg u (a' + a) (b' + b) rest w.
Proof.
  unfold after_polls. simpl. rewrite !repeat_app, !app_assoc. reflexivity.
Qed.

Section PollingFacts.
Variables (cfg : Config) (order_id : json) (u : string).

(** One turn of the loop on an answer of the provider. *)
Lemma poll_turn (k : nat) (r : response) (s state : json) (tl : list reply) (w : world) :
  script w = Answer r :: tl -> reported r = Some (s, state) ->
  poll (S k) cfg order_id (JStr u) w
  = if json_eqb state (JStr "success") then (Ret s, after_polls cfg u 1 0 tl w)
    else if json_eqb state (JStr "failed")
         then (Raise (RuntimeError_order_failed order_id s), after_polls cfg u 1 0 tl w)
         else poll k cfg order_id (JStr u) (after_polls cfg u 1 1 tl w).
Proof.
  intros Hs Hrep. apply reported_inv in Hrep. destruct Hrep as (Hok & Hbody & Hstate).
  simpl. unfold bind, http_get, http. rewrite Hs. simpl. rewrite Hok. simpl.
  unfold resp_json. rewrite Hbody. unfold ret, lift. rewrite Hstate.
  unfold after_polls. simpl. rewrite app_nil_r.
  destruct (json_eqb state (JStr "success")); [reflexivity|].
  destruct (json_eqb state (JStr "failed")); reflexivity.
Qed.

(** Answers that report a pending state are consumed one per turn, with one
    wait each. *)
Lemma poll_through_pending (pending : list response) :
  Forall reports_pending pending ->
  forall (k : nat) (tl : list reply) (w : world),
    script w = map Answer pending ++ tl ->
    poll (List.length pending + k) cfg order_id (JStr u) w
    = poll k cfg order_id (JStr u)
           (after_polls cfg u (List.length pending) (List.length pending) tl w).
Proof.
  induction 1 as [|r pending Hr _ IH]; intros k tl w Hs.
  - simpl in *. f_equal. unfold after_polls. simpl. rewrite !app_nil_r.
    destruct w; simpl in *. now subst.
  - destruct Hr as (s & state & Hrep & Hns & Hnf).
    simpl List.length. simpl plus.
    rewrite (poll_turn _ r s state (map Answer pending ++ tl) w Hs Hrep).
    rewrite (json_eqb_str_false _ _ Hns), (json_eqb_str_false _ _ Hnf).
    rewrite (IH k tl) by reflexivity.
    rewrite after_polls_after_polls. reflexivity.
Qed.

Lemma poll_order_through_pending (pending : list response) (tl : list reply) (w : world) :
  Forall reports_pending pending ->
  script w = map Answer pending ++ tl ->
  poll_order cfg order_id (JStr u) w
  = poll (S (List.length tl)) cfg order_id (JStr u)
         (after_polls cfg u (List.length pending) (List.length pending) tl w).
Proof.
  intros Hp Hs. unfold poll_order. rewrite Hs, length_app, length_map.
  rewrite <- (poll_through_pending pending Hp (S (List.length tl)) tl w Hs).
  f_equal. lia.
Qed.
End PollingFacts.

(** C4: while the provider reports states other than [success] and [failed],
    the loop stays in: after [n] such answers it has slept [n] times and is
    waiting on fetch [n + 1].  It leaves on the first answer that reports
    [success], returning that payload, or [failed], raising an error that
    carries the whole status payload; later answers are not consumed. *)
Theorem polling_exits_on_first_terminal_state :
  forall (cfg : Config) (order_id : json) (u : string)
         (pending : list response) (w : world),
    Forall reports_pending pending ->
    let n := List.length pending in
    (script w = map Answer pending ->
     poll_order cfg order_id (JStr u) w = (Blocked, after_polls cfg u (S n) n [] w))
    /\ (forall r s rest,
           script w = map Answer pending ++ Answer r :: rest ->
           reported r = Some (s, JStr "success") ->
           poll_order cfg order_id (JStr u) w = (Ret s, after_polls cfg u (S n) n rest w))
    /\ (forall r s rest,
           script w = map Answer pending ++ Answer r :: rest ->
           reported r = Some (s, JStr "failed") ->
           poll_order cfg order_id (JStr u) w
           = (Raise (RuntimeError_order_failed order_id s),
              after_polls cfg u (S n) n rest w)).
Proof.
  intros cfg order_id u pending w Hp n. repeat split.
  - intro Hs.
    rewrite (poll_order_through_pending cfg order_id u pending [] w Hp)
      by (now rewrite app_nil_r).
    simpl. unfold bind, http. simpl. f_equal.
    unfold after_polls, log_request. simpl. f_equal.
    rewrite <- app_assoc. f_equal. fold (get_request u).
    change [get_request u] with (repeat (get_request u) 1).
    rewrite <- repeat_app.
    replace (List.length pending + 1)%nat with (S n) by (subst n; lia). reflexivity.
  - intros r s rest Hs Hrep.
    rewrite (poll_order_through_pending cfg order_id u pending _ w Hp Hs).
    erewrite poll_turn by (simpl; eauto). simpl.
    rewrite after_polls_after_polls.
    do 2 f_equal; lia.
  - intros r s rest Hs Hrep.
    rewrite (poll_order_through_pending cfg order_id u pending _ w Hp Hs).
    erewrite poll_turn by (simpl; eauto). simpl.
    rewrite after_polls_after_polls.
    do 2 f_equal; lia.
Qed.

Lemma pending_samples : Forall reports_pending Sample.waiting.
Proof.
  repeat constructor;
    (eexists; eexists; split; [reflexivity | split; discriminate]).
Defined.

Lemma polling_exits_on_first_terminal_state_witness :
  poll_order Sample.cfg (JStr "order-1") (JStr Sample.order_link)
             (Sample.fresh (map Answer Sample.waiting))
  = (Blocked,
     after_polls Sample.cfg Sample.order_link 3 2 []
                 (Sample.fresh (map Answer Sample.waiting)))
  /\ poll_order Sample.cfg (JStr "order-1") (JStr Sample.order_link)
                (Sample.fresh (map Answer Sample.waiting
                               ++ [Answer (Sample.status "success" Sample.descriptors);
                                   Answer (Sample.status "failed" [])]))
     = (Ret (Sample.state_payload "success" Sample.descriptors),
        after_polls Sample.cfg Sample.order_link 3 2
                    [Answer (Sample.status "failed" [])]
                    (Sample.fresh (map Answer Sample.waiting
                                   ++ [Answer (Sample.status "success" Sample.descriptors);
                                       Answer (Sample.status "failed" [])])))
  /\ poll_order Sample.cfg (JStr "order-1") (JStr Sample.order_link)
                (Sample.fresh (map Answer Sample.waiting
                               ++ [Answer (Sample.status "failed" [])]))
     = (Raise (RuntimeError_order_failed (JStr "order-1") (Sample.state_payload "failed" [])),
        after_polls Sample.cfg Sample.order_link 3 2 []
                    (Sample.fresh (map Answer Sample.waiting
                                   ++ [Answer (Sample.status "failed" [])]))).
Proof.
  split; [|split].
  - exact (proj1 (polling_exits_on_first_terminal_state
                    Sample.cfg (JStr "order-1") Sample.order_link Sample.waiting
                    (Sample.fresh (map Answer Sample.waiting)) pending_samples)
                 eq_refl).
  - exact (proj1 (proj2 (polling_exits_on_first_terminal_state
                    Sample.cfg (JStr "order-1") Sample.order_link Sample.waiting
                    (Sample.fresh (map Answer Sample.waiting
                                   ++ [Answer (Sample.status "success" Sample.descriptors);
                                       Answer (Sample.status "failed" [])]))
                    pending_samples))
                 _ _ _ eq_refl eq_refl).
  - exact (proj2 (proj2 (polling_exits_on_first_terminal_state
                    Sample.cfg (JStr "order-1") Sample.order_link Sample.waiting
                    (Sample.fresh (map Answer Sample.waiting
                                   ++ [Answer (Sample.status "failed" [])]))
                    pending_samples))
                 _ _ _ eq_refl eq_refl).
Defined.

(** ** Order lifecycle: submission *)

(** C8: the order counts as submitted exactly when the provider answers 202.
    Any other status, 200 or 201 included, raises the "Order failed" error
    after that single request: no status is fetched, nothing is slept,
    nothing is downloaded or written.  With 202 and a body that carries the
    order's id and status link, submission returns them. *)
Theorem order_submitted_iff_accepted :
  forall (G : Type) (SG : Shapely G) (cfg : Config) (item_id item_type : json) (aoi : G)
         (product_bundle order_name : string)
         (resp : response) (rest : list reply) (w : world),
    script w = Answer resp :: rest ->
    let rq := order_post cfg item_id item_type aoi product_bundle order_name in
    (status_code resp <> 202 ->
     place_order_and_download cfg item_id item_type aoi product_bundle order_name w
     = (Raise (RuntimeError ("Order failed: " ++ str_of_Z (status_code resp)
                               ++ " " ++ text resp)%string),
        answered rq rest w)
     /\ sent (answered rq rest w) = sent w ++ [rq]
     /\ slept (answered rq rest w) = slept w
     /\ files (answered rq rest w) = files w
     /\ script (answered rq rest w) = rest)
    /\ (forall order w',
           submit_order cfg item_id item_type aoi product_bundle order_name w
           = (Ret order, w') ->
           status_code resp = 202)
    /\ (status_code resp = 202 ->
        forall order order_id links order_url,
          body resp = Some order ->
          getitem order "id" = Ret order_id ->
          getitem order "_links" = Ret links ->
          getitem links "_self" = Ret order_url ->
          submit_order cfg item_id item_type aoi product_bundle order_name w
          = (Ret (order_id, order_url), answered rq rest w)).
Proof.
  intros G SG cfg item_id item_type aoi product_bundle order_name resp rest w Hs rq.
  assert (Hsubmit :
            status_code resp <> 202 ->
            submit_order cfg item_id item_type aoi product_bundle order_name w
            = (Raise (RuntimeError ("Order failed: " ++ str_of_Z (status_code resp)
                                      ++ " " ++ text resp)%string),
               answered rq rest w)).
  { intro Hst. unfold submit_order, bind, http. rewrite Hs.
    apply Z.eqb_neq in Hst. rewrite Hst. reflexivity. }
  repeat split.
  - unfold place_order_and_download, bind. now rewrite (Hsubmit H).
  - intros order w' Hret.
    destruct (Z.eq_dec (status_code resp) 202) as [E | E]; [exact E|].
    rewrite (Hsubmit E) in Hret. discriminate.
  - intros Hst order order_id links order_url Hbody Hid Hlinks Hself.
    unfold submit_order, bind, http. rewrite Hs.
    apply Z.eqb_eq in Hst. rewrite Hst. simpl.
    unfold resp_json. rewrite Hbody. unfold ret, lift.
    rewrite Hid, Hlinks, Hself. reflexivity.
Qed.

Lemma order_submitted_iff_accepted_witness :
  (place_order_and_download Sample.cfg (JStr "s1") (JStr "PSScene") Sample.unit_square
                            "visual" "AOI_001_001"
                            (Sample.fresh [Sample.answer 200 (JObj [("id", JStr "order-1")]);
                                           Answer (Sample.status "success" Sample.descriptors)])
   = (Raise (RuntimeError "Order failed: 200 "),
      answered (order_post Sample.cfg (JStr "s1") (JStr "PSScene") Sample.unit_square
                           "visual" "AOI_001_001")
               [Answer (Sample.status "success" Sample.descriptors)]
               (Sample.fresh [Sample.answer 200 (JObj [("id", JStr "order-1")]);
                              Answer (Sample.status "success" Sample.descriptors)])))
  /\ submit_order Sample.cfg (JStr "s1") (JStr "PSScene") Sample.unit_square
                  "visual" "AOI_001_001" (Sample.fresh [Sample.accepted])
     = (Ret (JStr "order-1", JStr Sample.order_link),
        answered (order_post Sample.cfg (JStr "s1") (JStr "PSScene") Sample.unit_square
                             "visual" "AOI_001_001")
                 [] (Sample.fresh [Sample.accepted])).
Proof.
  split.
  - refine (proj1 (proj1 (order_submitted_iff_accepted
                            Grid.geometry Grid.shapely Sample.cfg (JStr "s1") (JStr "PSScene")
                            Sample.unit_square "visual" "AOI_001_001" _ _
                            (Sample.fresh [Sample.answer 200 (JObj [("id", JStr "order-1")]);
                                           Answer (Sample.status "success" Sample.descriptors)])
                            eq_refl) _)).
    simpl. discriminate.
  - exact (proj2 (proj2 (order_submitted_iff_accepted
                           Grid.geometry Grid.shapely Sample.cfg (JStr "s1") (JStr "PSScene")
                           Sample.unit_square "visual" "AOI_001_001" _ _
                           (Sample.fresh [Sample.accepted]) eq_refl))
                 eq_refl _ _ _ _ eq_refl eq_refl eq_refl eq_refl).
Defined.

(** ** Order lifecycle: download and packaging *)

Lemma split_nonempty (sep : ascii) (s : string) : split sep s <> [].
Proof.
  destruct s as [|c s]; simpl; [discriminate|].
  destruct (Ascii.eqb c sep); [discriminate|].
  destruct (split sep s); discriminate.
Qed.

Lemma split_no_slash (s : string) : no_slash s = true -> split "/" s = [s].
Proof.
  induction s as [|c s IH]; simpl; [reflexivity|].
  intro E. apply andb_prop in E. destruct E as [Hc Hs].
  apply negb_true_iff in Hc. rewrite Hc, (IH Hs). reflexivity.
Qed.

Lemma split_app_slash (a b : string) :
  split "/" (a ++ String "/" b)%string = split "/" a ++ split "/" b.
Proof.
  induction a as [|c a IH]; simpl; [reflexivity|].
  rewrite IH. destruct (Ascii.eqb c "/"); [reflexivity|].
  destruct (split "/" a) as [|p ps] eqn:E; [|reflexivity].
  exfalso. exact (split_nonempty _ _ E).
Qed.

Lemma path_name_plain (s : string) :
  no_slash s = true -> is_component s = true -> path_name s = s.
Proof.
  intros Hs Hc. unfold path_name, path_parts.
  rewrite (split_no_slash s Hs). simpl. rewrite Hc. reflexivity.
Qed.

(** [Path(dir + "/" + base).name] is [base]: the directory part is dropped. *)
Lemma path_name_strips_directories (dir base : string) :
  no_slash base = true -> is_component base = true ->
  path_name (dir ++ String "/" base)%string = base.
Proof.
  intros Hs Hc. unfold path_name, path_parts.
  rewrite split_app_slash, filter_app, (split_no_slash base Hs). simpl.
  rewrite Hc. apply last_last.
Qed.

Lemma no_slash_uint (d : Decimal.uint) : no_slash (NilEmpty.string_of_uint d) = true.
Proof. induction d; simpl; auto. Qed.

Lemma path_name_default (idx : nat) :
  path_name ("result_" ++ str_of_nat idx)%string = ("result_" ++ str_of_nat idx)%string.
Proof.
  apply path_name_plain; [|reflexivity].
  simpl. apply no_slash_uint.
Qed.

Lemma concat_nonempty_chunks (cs : list bytes) :
  List.concat (filter (fun b : bytes => match b with [] => false | _ => true end) cs)
  = List.concat cs.
Proof.
  induction cs as [|[|x c] cs IH]; simpl; [reflexivity | exact IH|].
  now rewrite IH.
Qed.

Lemma download_result_ok (idx : nat) (result : json) (r : response)
      (rest : list reply) (w : world) :
  descriptor_ok result = true -> download_ok r = true ->
  path_name (suggested_name idx result) <> "" ->
  script w = Answer r :: rest ->
  download_result idx result w
  = (Ret (path_name (suggested_name idx result), fetched r),
     answered (get_request (location result)) rest w).
Proof.
  intros Hd Hr Hnamed Hs. apply String.eqb_neq in Hnamed.
  destruct result as [| | | | |d]; try discriminate.
  unfold descriptor_ok in Hd. apply andb_prop in Hd. destruct Hd as [Hloc Hname].
  apply andb_prop in Hr. destruct Hr as [Hok Hlen].
  unfold download_result, bind, lift, location, suggested_name, get, http_get, http in *.
  destruct (dict_lookup "location" d) as [[| | |u| |]|]; try discriminate.
  destruct (dict_lookup "name" d) as [[| | |n| |]|]; try discriminate;
    rewrite Hs, Hok; cbv beta iota; change (negb true) with false; cbv iota;
    (destruct (py_int _); try discriminate);
    rewrite Hnamed; unfold ret, fetched; now rewrite concat_nonempty_chunks.
Qed.

Lemma after_downloads_answered (result : json) (results : list json)
      (rest rest' : list reply) (w : world) :
  after_downloads results rest (answered (get_request (location result)) rest' w)
  = after_downloads (result :: results) rest w.
Proof.
  unfold after_downloads, answered. simpl. now rewrite <- app_assoc.
Qed.

Lemma download_results_ok (results : list json) :
  forall (idx : nat) (written : list (string * bytes)) (downloads : list response)
         (rest : list reply) (w : world),
    forallb descriptor_ok results = true -> forallb download_ok downloads = true ->
    named idx results = true ->
    List.length downloads = List.length results ->
    script w = map Answer downloads ++ rest ->
    download_results idx results written w
    = ((written ++ packaged idx results downloads, Ret tt),
       after_downloads results rest w).
Proof.
  induction results as [|result results IH];
    intros idx written [|r downloads] rest w Hd Hr Hn Hlen Hs; try discriminate.
  - simpl in *. rewrite app_nil_r. f_equal.
    unfold after_downloads. simpl. rewrite app_nil_r. destruct w; simpl in *. now subst.
  - simpl in Hd, Hr, Hn, Hlen, Hs.
    apply andb_prop in Hd. destruct Hd as [Hd Hds].
    apply andb_prop in Hr. destruct Hr as [Hr Hrs].
    apply andb_prop in Hn. destruct Hn as [Hn Hns].
    apply negb_true_iff, String.eqb_neq in Hn.
    simpl. rewrite (download_result_ok idx result r _ w Hd Hr Hn Hs).
    rewrite (IH (S idx) _ downloads rest) by (auto; lia).
    rewrite after_downloads_answered, <- app_assoc. reflexivity.
Qed.

Lemma packaged_length (results : list json) :
  forall (idx : nat) (downloads : list response),
    List.length downloads = List.length results ->
    List.length (packaged idx results downloads) = List.length results.
Proof.
  induction results as [|result results IH]; intros idx [|r downloads] Hlen;
    simpl in *; try discriminate; auto.
Qed.

Lemma packaged_nth (results : list json) :
  forall (idx i : nat) (downloads : list response) (result : json) (r : response),
    nth_error results i = Some result -> nth_error downloads i = Some r ->
    nth_error (packaged idx results downloads) i
    = Some (path_name (suggested_name (idx + i) result), fetched r).
Proof.
  induction results as [|x results IH]; intros idx [|i] [|y downloads] result r Hx Hy;
    simpl in *; try discriminate.
  - injection Hx as ->. injection Hy as ->. now rewrite Nat.add_0_r.
  - rewrite (IH (S idx) i downloads result r Hx Hy).
    replace (S idx + i)%nat with (idx + S i)%nat by lia. reflexivity.
Qed.

(** A completed order whose descriptors are well formed and whose downloads
    succeed: one archive is written, holding [packaged]. *)
Lemma download_bundle_ok (cfg : Config) (order_name : string) (s links : json)
      (results : list json) (downloads : list response) (rest : list reply) (w : world) :
  get s "_links" (JObj []) = Ret links ->
  get links "results" (JArr []) = Ret (JArr results) ->
  results <> [] ->
  forallb descriptor_ok results = true -> forallb download_ok downloads = true ->
  named 1 results = true ->
  List.length downloads = List.length results ->
  script w = map Answer downloads ++ rest ->
  let zip_path := path_join (download_dir cfg) (order_name ++ "_bundle.zip")%string in
  download_bundle cfg order_name s w
  = (Ret zip_path,
     snd (write_file zip_path (ZipArchive (packaged 1 results downloads))
                     (after_downloads results rest w))).
Proof.
  intros Hlinks Hres Hne Hd Hr Hn Hlen Hs zip_path.
  unfold download_bundle, bind, lift. rewrite Hlinks, Hres.
  destruct results as [|x xs]; [contradiction|].
  cbv beta iota. change (truthy (JArr (x :: xs))) with true. cbv beta iota.
  change (negb true) with false. cbv iota.
  cbv beta.
  rewrite (download_results_ok (x :: xs) 1 [] downloads rest w Hd Hr Hn Hlen Hs).
  reflexivity.
Qed.

(** C5: for a completed order with [K >= 1] well-formed result descriptors
    (a location, and a suggested name that has a final component or no name
    at all) whose downloads all succeed, the archive written at the bundle
    path holds
    exactly [K] entries; entry [i] holds the bytes of the answer to the fetch
    of descriptor [i]'s location, and is named by the last path component of
    the suggested name, so that a name [dir/base] gives the entry [base]. *)
Theorem bundle_holds_every_result :
  forall (cfg : Config) (order_name : string) (s links : json)
         (results : list json) (downloads : list response)
         (rest : list reply) (w : world),
    get s "_links" (JObj []) = Ret links ->
    get links "results" (JArr []) = Ret (JArr results) ->
    (1 <= List.length results)%nat ->
    forallb descriptor_ok results = true -> forallb download_ok downloads = true ->
    named 1 results = true ->
    List.length downloads = List.length results ->
    script w = map Answer downloads ++ rest ->
    exists entries w',
      download_bundle cfg order_name s w
      = (Ret (path_join (download_dir cfg) (order_name ++ "_bundle.zip")%string), w')
      /\ files w'
         = (path_join (download_dir cfg) (order_name ++ "_bundle.zip")%string,
            ZipArchive entries) :: files w
      /\ List.length entries = List.length results
      /\ sent w' = sent w ++ map (fun result => get_request (location result)) results
      /\ script w' = rest
      /\ (forall i result r,
             nth_error results i = Some result -> nth_error downloads i = Some r ->
             nth_error entries i
             = Some (path_name (suggested_name (S i) result), fetched r)
             /\ (forall dir base,
                    suggested_name (S i) result = (dir ++ String "/" base)%string ->
                    no_slash base = true -> is_component base = true ->
                    nth_error entries i = Some (base, fetched r))).
Proof.
  intros cfg order_name s links results downloads rest w
         Hlinks Hres HK Hd Hr Hn Hlen Hs.
  assert (Hne : results <> []) by (destruct results; [simpl in HK; lia | discriminate]).
  exists (packaged 1 results downloads). eexists. split.
  - exact (download_bundle_ok cfg order_name s links results downloads rest w
                              Hlinks Hres Hne Hd Hr Hn Hlen Hs).
  - simpl. split; [reflexivity|]. split; [now apply packaged_length|].
    split; [reflexivity|]. split; [reflexivity|].
    intros i x r Hx Hy.
    pose proof (packaged_nth results 1 i downloads x r Hx Hy) as Hnth.
    simpl in Hnth. split; [exact Hnth|].
    intros dir base Hname Hb Hc.
    rewrite Hnth, Hname, (path_name_strips_directories dir base Hb Hc). reflexivity.
Qed.

Lemma bundle_holds_every_result_witness :
  exists entries w',
    download_bundle Sample.cfg "AOI_001_001"
                    (Sample.state_payload "success" Sample.descriptors)
                    (Sample.fresh (map Answer Sample.downloads))
    = (Ret "downloads/AOI_001_001_bundle.zip", w')
    /\ files w' = [("downloads/AOI_001_001_bundle.zip", ZipArchive entries)]
    /\ List.length entries = 2%nat
    /\ nth_error entries 0 = Some ("s1_clip.tif", [Byte.x50; Byte.x4b; Byte.x03])
    /\ nth_error entries 1 = Some ("result_2", [Byte.x49; Byte.x49; Byte.x2a]).
Proof.
  destruct (bundle_holds_every_result
              Sample.cfg "AOI_001_001"
              (Sample.state_payload "success" Sample.descriptors)
              (JObj [("results", JArr Sample.descriptors)])
              Sample.descriptors Sample.downloads []
              (Sample.fresh (map Answer Sample.downloads)))
    as (entries & w' & Hret & Hfiles & Hlen & _ & _ & Hnth);
    try reflexivity.
  { simpl. lia. }
  exists entries, w'. split; [exact Hret|]. split; [exact Hfiles|]. split; [exact Hlen|].
  split.
  - exact (proj1 (Hnth 0%nat _ _ eq_refl eq_refl)).
  - exact (proj1 (Hnth 1%nat _ _ eq_refl eq_refl)).
Defined.

(** C9: a descriptor without a [name], at position [i + 1] of the results of
    a completed order, gets the archive entry [result_<i+1>], and packaging
    returns the bundle path as it does when every descriptor has a name. *)
Theorem nameless_result_gets_default_name :
  forall (cfg : Config) (order_name : string) (s links : json)
         (results : list json) (downloads : list response)
         (rest : list reply) (w : world) (i : nat) (d : dict),
    get s "_links" (JObj []) = Ret links ->
    get links "results" (JArr []) = Ret (JArr results) ->
    forallb descriptor_ok results = true -> forallb download_ok downloads = true ->
    named 1 results = true ->
    List.length downloads = List.length results ->
    script w = map Answer downloads ++ rest ->
    nth_error results i = Some (JObj d) -> dict_lookup "name" d = None ->
    exists entries w' r,
      download_bundle cfg order_name s w
      = (Ret (path_join (download_dir cfg) (order_name ++ "_bundle.zip")%string), w')
      /\ files w'
         = (path_join (download_dir cfg) (order_name ++ "_bundle.zip")%string,
            ZipArchive entries) :: files w
      /\ nth_error downloads i = Some r
      /\ nth_error entries i = Some (("result_" ++ str_of_nat (S i))%string, fetched r).
Proof.
  intros cfg order_name s links results downloads rest w i d
         Hlinks Hres Hd Hr Hn Hlen Hs Hi Hname.
  assert (Hne : results <> []) by (intros ->; destruct i; discriminate).
  assert (Hlt : (i < List.length downloads)%nat).
  { rewrite Hlen. apply nth_error_Some. congruence. }
  destruct (nth_error downloads i) as [r|] eqn:Hdl;
    [|apply nth_error_Some in Hlt; contradiction].
  exists (packaged 1 results downloads). eexists. exists r. split.
  - exact (download_bundle_ok cfg order_name s links results downloads rest w
                              Hlinks Hres Hne Hd Hr Hn Hlen Hs).
  - simpl. split; [reflexivity|]. split; [reflexivity|].
    rewrite (packaged_nth results 1 i downloads (JObj d) r Hi Hdl).
    unfold suggested_name. rewrite Hname.
    change (1 + i)%nat with (S i). rewrite path_name_default. reflexivity.
Qed.

Lemma nameless_result_gets_default_name_witness :
  exists entries w' r,
    download_bundle Sample.cfg "AOI_001_001"
                    (Sample.state_payload "success" Sample.descriptors)
                    (Sample.fresh (map Answer Sample.downloads))
    = (Ret "downloads/AOI_001_001_bundle.zip", w')
    /\ files w' = [("downloads/AOI_001_001_bundle.zip", ZipArchive entries)]
    /\ nth_error Sample.downloads 1 = Some r
    /\ nth_error entries 1 = Some ("result_2", fetched r).
Proof.
  exact (nameless_result_gets_default_name
           Sample.cfg "AOI_001_001"
           (Sample.state_payload "success" Sample.descriptors)
           (JObj [("results", JArr Sample.descriptors)])
           Sample.descriptors Sample.downloads []
           (Sample.fresh (map Answer Sample.downloads)) 1%nat
           [("location", JStr "https://files/2")]
           eq_refl eq_refl eq_refl eq_refl eq_refl eq_refl eq_refl eq_refl eq_refl).
Defined.

(** ** Requests only accumulate *)

Lemma growing_ret {A} (a : A) : growing (ret a).
Proof. intro w. exists []. simpl. now rewrite app_nil_r. Qed.

Lemma growing_raise {A} (e : exn) : growing (@raise A e).
Proof. intro w. exists []. simpl. now rewrite app_nil_r. Qed.

Lemma growing_lift {A} (r : result A) : growing (lift r).
Proof. intro w. exists []. simpl. now rewrite app_nil_r. Qed.

Lemma growing_sleep (seconds : Z) : growing (sleep seconds).
Proof. intro w. exists []. simpl. now rewrite app_nil_r. Qed.

Lemma growing_write_file (path : string) (f : file) : growing (write_file path f).
Proof. intro w. exists []. simpl. now rewrite app_nil_r. Qed.

Lemma growing_http (rq : request) : growing (http rq).
Proof.
  intro w. exists [rq]. unfold http. destruct (script w) as [|[r|e] rest]; reflexivity.
Qed.

Lemma growing_http_get (u : json) : growing (http_get u).
Proof. destruct u; simpl; auto using growing_raise, growing_http. Qed.

Lemma growing_resp_json (r : response) : growing (resp_json r).
Proof. unfold resp_json. destruct (body r); auto using growing_ret, growing_raise. Qed.

Lemma growing_bind {A B} (m : M A) (k : A -> M B) :
  growing m -> (forall a, growing (k a)) -> growing (bind m k).
Proof.
  intros Hm Hk w. unfold bind. destruct (Hm w) as [more Hmore].
  destruct (m w) as [[a|e|] w1]; simpl in *.
  - destruct (Hk a w1) as [more' Hmore']. exists (more ++ more').
    rewrite Hmore', Hmore. now rewrite app_assoc.
  - now exists more.
  - now exists more.
Qed.

Lemma growing_try_except {A} (m : M A) (handler : exn -> M A) :
  growing m -> (forall e, growing (handler e)) -> growing (try_except m handler).
Proof.
  intros Hm Hh w. unfold try_except. destruct (Hm w) as [more Hmore].
  destruct (m w) as [[a|e|] w1]; simpl in *.
  - now exists more.
  - destruct (Hh e w1) as [more' Hmore']. exists (more ++ more').
    rewrite Hmore', Hmore. now rewrite app_assoc.
  - now exists more.
Qed.

Create HintDb growing.
#[local] Hint Resolve growing_ret growing_raise growing_lift growing_sleep
  growing_write_file growing_http growing_http_get growing_resp_json : growing.

Ltac grow :=
  repeat first
    [ apply growing_bind; [|intro]
    | apply growing_try_except; [|intro]
    | solve [auto with growing]
    | match goal with
      | |- growing (if ?b then _ else _) => destruct b
      | |- growing (match ?x with _ => _ end) => destruct x
      end ].








Section OrderFacts.
Context {G : Type} `{Shapely G}.

End OrderFacts.

(** ** Run orchestrator *)

Section OrchestratorFacts.
Context {G : Type} `{Shapely G}.
Variables (args : Args) (cfg : Config) (params : SearchParams) (nrows : nat).

Lemma process_aoi_invalid (idx : nat) (row : G) (st : loop_state) (w : world) (e : exn) :
  validate_geometry row = Raise e ->
  process_aoi args cfg params nrows idx row st w = (Raise e, w).
Proof. intro Hv. unfold process_aoi, bind, lift. now rewrite Hv. Qed.

(** The loop over [before ++ rows] is the loop over [before] followed, when
    that returns, by the loop over [rows]. *)
Lemma aoi_loop_app (before rows : list G) :
  forall (idx : nat) (st : loop_state) (w : world),
    aoi_loop args cfg params nrows idx (before ++ rows) st w
    = match aoi_loop args cfg params nrows idx before st w with
      | (Ret st', w') =>
          aoi_loop args cfg params nrows (idx + List.length before) rows st' w'
      | other => other
      end.
Proof.
  induction before as [|b before IH]; intros idx st w; simpl.
  - now rewrite Nat.add_0_r.
  - unfold bind. destruct (process_aoi args cfg params nrows idx b st w) as [[st1|e|] w1];
      try reflexivity.
    rewrite IH. replace (S idx + List.length before)%nat
                  with (idx + S (List.length before))%nat by lia.
    reflexivity.
Qed.

End OrchestratorFacts.

(** With a key and at least one record, [main] is the loop followed by the
    writing of the orders reference. *)
Lemma main_with_records {G : Type} `{Shapely G} (args : Args) (pl_api_key : string)
      (rows : list G) (w : world) :
  strip pl_api_key <> "" -> rows <> [] ->
  main args pl_api_key rows w
  = bind (aoi_loop args (mkConfig (strip pl_api_key) (arg_download_dir args))
                   (params_of_args args) (List.length rows) 0 rows
                   {| orders_list := []; order_idx := 0 |})
         (fun st => match orders_list st with
                    | [] => ret 0
                    | rows_out =>
                        write_file (arg_orders_out args) (OrdersText rows_out) ;;; ret 0
                    end) w.
Proof.
  intros Hkey Hrows. unfold main. apply String.eqb_neq in Hkey. rewrite Hkey.
  destruct rows; [contradiction | reflexivity].
Qed.

(** C2, as the code has it: the call that normalizes a record's geometry is
    not guarded.  When it fails on a record, the run ends there with that
    exception: the effects of the records before it stay, no record after it
    is processed, and the orders reference is not written. *)
Theorem run_ends_at_invalid_geometry :
  forall (G : Type) (SG : Shapely G) (args : Args) (pl_api_key : string)
         (before : list G) (row : G) (rest : list G)
         (st' : loop_state) (w w' : world) (e : exn),
    strip pl_api_key <> "" ->
    validate_geometry row = Raise e ->
    aoi_loop args (mkConfig (strip pl_api_key) (arg_download_dir args))
             (params_of_args args) (List.length (before ++ row :: rest)) 0 before
             {| orders_list := []; order_idx := 0 |} w
    = (Ret st', w') ->
    main args pl_api_key (before ++ row :: rest) w = (Raise e, w').
Proof.
  intros G SG args pl_api_key before row rest st' w w' e Hkey Hv Hbefore.
  rewrite main_with_records by (auto; destruct before; discriminate).
  unfold bind at 1.
  rewrite aoi_loop_app, Hbefore. simpl aoi_loop. unfold bind at 1.
  now rewrite (process_aoi_invalid _ _ _ _ _ row st' w' e Hv).
Qed.

(** Three records, the second with an empty geometry: the first is searched
    for, the run ends with the error at the second, and the answer that the
    provider holds for the third is never asked for. *)
Lemma run_ends_at_invalid_geometry_witness :
  main default_args "KEY" [Sample.unit_square; Grid.Polygon []; Sample.unit_square]
       (Sample.fresh [Sample.three_features; Sample.three_features])
  = (Raise (ValueError "AOI geometry is empty."),
     snd (aoi_loop default_args (mkConfig "KEY" "./downloads")
                   (params_of_args default_args) 3 0 [Sample.unit_square]
                   {| orders_list := []; order_idx := 0 |}
                   (Sample.fresh [Sample.three_features; Sample.three_features])))
  /\ script (snd (main default_args "KEY"
                       [Sample.unit_square; Grid.Polygon []; Sample.unit_square]
                       (Sample.fresh [Sample.three_features; Sample.three_features])))
     = [Sample.three_features]
  /\ files (snd (main default_args "KEY"
                      [Sample.unit_square; Grid.Polygon []; Sample.unit_square]
                      (Sample.fresh [Sample.three_features; Sample.three_features])))
     = [].
Proof.
  split; [|split; reflexivity].
  exact (run_ends_at_invalid_geometry
           Grid.geometry Grid.shapely default_args "KEY"
           [Sample.unit_square] (Grid.Polygon []) [Sample.unit_square]
           {| orders_list := [{| ref_item_id := JStr "s1";
                                 ref_item_type := JStr "PSScene";
                                 ref_aoi_wkt := "POLYGON ((0 0, 1 0, 1 1, 0 1, 0 0))" |}];
              order_idx := 0 |}
           (Sample.fresh [Sample.three_features; Sample.three_features])
           (snd (aoi_loop default_args (mkConfig "KEY" "./downloads")
                          (params_of_args default_args) 3 0 [Sample.unit_square]
                          {| orders_list := []; order_idx := 0 |}
                          (Sample.fresh [Sample.three_features; Sample.three_features])))
           (ValueError "AOI geometry is empty.")
           ltac:(discriminate) eq_refl eq_refl).
Defined.

(** C2, as the specification words it (the failing record is skipped and the
    run goes on with the next one), fails: with an empty polygon followed by
    a unit square, the loop raises, whereas the loop over the remaining
    record returns after searching for it. *)
Lemma invalid_geometry_is_not_skipped :
  ~ (forall (args : Args) (cfg : Config) (params : SearchParams) (nrows idx : nat)
            (row : Grid.geometry) (rest : list Grid.geometry)
            (st : loop_state) (w : world) (e : exn),
        validate_geometry row = Raise e ->
        aoi_loop args cfg params nrows idx (row :: rest) st w
        = aoi_loop args cfg params nrows (S idx) rest st w).
Proof.
  intro claim.
  specialize (claim default_args Sample.cfg Sample.cap2 2%nat 0%nat
                    (Grid.Polygon []) [Sample.unit_square]
                    {| orders_list := []; order_idx := 0 |}
                    (Sample.fresh [Sample.three_features])
                    (ValueError "AOI geometry is empty.") eq_refl).
  vm_compute in claim. discriminate.
Qed.




(* ------------------------------------------------------------------------- *)
(** * Further properties *)

(** ** Geometry normalizer: what comes out, and how it fails *)

(** X1: whatever [validate_geometry] returns is valid: either the candidate
    was valid, or its zero-width buffer is. *)
Theorem validate_geometry_returns_valid :
  forall (G : Type) (SG : Shapely G) (g p : G),
    validate_geometry g = Ret p -> is_valid p = true.
Proof.
  intros G SG g p. unfold validate_geometry.
  destruct (is_empty g); [discriminate|].
  destruct (candidate g) as [c| |]; simpl; try discriminate.
  unfold repair. destruct (is_valid c) eqn:Ec; simpl.
  - intro E. injection E as <-. exact Ec.
  - destruct (is_valid (buffer0 c)) eqn:Eb; simpl; [|discriminate].
    intro E. injection E as <-. exact Eb.
Qed.

Lemma validate_geometry_returns_valid_witness :
  is_valid (Grid.Polygon (Grid.square 5 5 3)) = true.
Proof.
  exact (validate_geometry_returns_valid
           Grid.geometry Grid.shapely
           (Grid.MultiPolygon [Grid.square 0 0 2; Grid.square 5 5 3])
           (Grid.Polygon (Grid.square 5 5 3)) eq_refl).
Defined.

(** X2: the three refusals of the normalizer, each a [ValueError].  An empty
    geometry is refused first, whatever its type; a geometry that is not a
    Polygon and whose union is neither a Polygon nor a MultiPolygon is
    refused with a message that names the type of the input, not of the
    union; a candidate that is invalid and whose zero-width buffer is invalid
    too is refused, after that one attempt. *)
Theorem validate_geometry_fails_with_value_error :
  forall (G : Type) (SG : Shapely G) (g : G),
    (is_empty g = true ->
     validate_geometry g = Raise (ValueError "AOI geometry is empty."))
    /\ (is_empty g = false ->
        geom_type g <> "Polygon" ->
        geom_type (unary_union g) <> "Polygon" ->
        geom_type (unary_union g) <> "MultiPolygon" ->
        validate_geometry g
        = Raise (ValueError ("Unsupported geometry type for AOI: " ++ geom_type g)%string))
    /\ (forall c, is_empty g = false -> candidate g = Ret c ->
                  is_valid c = false -> is_valid (buffer0 c) = false ->
                  validate_geometry g
                  = Raise (ValueError "AOI polygon is invalid and could not be fixed.")).
Proof.
  intros G SG g. unfold validate_geometry. repeat split.
  - intros ->. reflexivity.
  - intros -> Hg Hu Hm. unfold candidate.
    apply String.eqb_neq in Hg, Hu, Hm. now rewrite Hg, Hu, Hm.
  - intros c -> Hc Hv Hb. rewrite Hc. simpl. unfold repair. now rewrite Hv, Hb.
Qed.

(** An empty polygon, a point, and a polygon that no buffer repairs. *)
Lemma validate_geometry_fails_with_value_error_witness :
  validate_geometry (Grid.Polygon []) = Raise (ValueError "AOI geometry is empty.")
  /\ validate_geometry (Grid.Point 3 4)
     = Raise (ValueError "Unsupported geometry type for AOI: Point")
  /\ @validate_geometry unit Stubborn.shapely tt
     = Raise (ValueError "AOI polygon is invalid and could not be fixed.").
Proof.
  destruct (validate_geometry_fails_with_value_error
              Grid.geometry Grid.shapely (Grid.Polygon [])) as (Hempty & _).
  destruct (validate_geometry_fails_with_value_error
              Grid.geometry Grid.shapely (Grid.Point 3 4)) as (_ & Hpoint & _).
  destruct (validate_geometry_fails_with_value_error
              unit Stubborn.shapely tt) as (_ & _ & Hbroken).
  split; [exact (Hempty eq_refl)|]. split.
  - apply Hpoint; [reflexivity | | |]; discriminate.
  - exact (Hbroken tt eq_refl eq_refl eq_refl eq_refl).
Defined.

(** ** Filter builder: the numeric bounds and the unchecked date range *)

Lemma admits_cloud_unfold {G : Type} `{Shapely G} (g : G) (p : SearchParams) (x : Q) :
  admits_number "cloud_cover" g p x = Qgtb (max_cloud_cover p) x && true.
Proof. reflexivity. Qed.

Lemma admits_angle_unfold {G : Type} `{Shapely G} (g : G) (p : SearchParams) (x : Q) :
  admits_number "view_angle" g p x
  = Qgtb x (min_nadir p) && (Qle_bool x (max_nadir p) && true).
Proof. reflexivity. Qed.

(** X3: the cloud-cover predicate admits exactly the values strictly below
    the configured maximum, and the view-angle predicate exactly the values
    strictly above the minimum and up to the maximum, the maximum included. *)
Theorem numeric_predicates_bounds :
  forall (G : Type) (SG : Shapely G) (g : G) (p : SearchParams) (x : Q),
    (admits_number "cloud_cover" g p x = true <-> (x < max_cloud_cover p)%Q)
    /\ (admits_number "view_angle" g p x = true <->
        (min_nadir p < x)%Q /\ (x <= max_nadir p)%Q)
    /\ admits_number "cloud_cover" g p (max_cloud_cover p) = false
    /\ admits_number "view_angle" g p (min_nadir p) = false
    /\ ((min_nadir p < max_nadir p)%Q ->
        admits_number "view_angle" g p (max_nadir p) = true).
Proof.
  intros G SG g p x.
  assert (Hirrefl : forall q, Qgtb q q = false).
  { intro q. apply Qgtb_false. apply Qle_refl. }
  repeat split.
  - rewrite admits_cloud_unfold, andb_true_r. apply Qgtb_true.
  - rewrite admits_cloud_unfold, andb_true_r. apply Qgtb_true.
  - rewrite admits_angle_unfold in H. apply andb_prop in H.
    apply Qgtb_true. tauto.
  - rewrite admits_angle_unfold in H. apply andb_prop in H. destruct H as [_ H].
    rewrite andb_true_r in H. now apply Qle_bool_iff.
  - intros [Hlo Hhi]. rewrite admits_angle_unfold.
    apply Qgtb_true in Hlo. apply Qle_bool_iff in Hhi. now rewrite Hlo, Hhi.
  - now rewrite admits_cloud_unfold, Hirrefl.
  - now rewrite admits_angle_unfold, Hirrefl.
  - intro Hlt. rewrite admits_angle_unfold.
    apply Qgtb_true in Hlt. rewrite Hlt.
    assert (Hrefl : Qle_bool (max_nadir p) (max_nadir p) = true)
      by (apply Qle_bool_iff, Qle_refl).
    now rewrite Hrefl.
Qed.

Lemma numeric_predicates_bounds_witness :
  admits_number "view_angle" Sample.unit_square (params_of_args default_args) 1 = true.
Proof.
  apply (numeric_predicates_bounds Grid.geometry Grid.shapely Sample.unit_square
                                   (params_of_args default_args) 0).
  reflexivity.
Defined.

Lemma ascii_compare_lt_trans (a b c : ascii) :
  Ascii.compare a b = Lt -> Ascii.compare b c = Lt -> Ascii.compare a c = Lt.
Proof.
  unfold Ascii.compare. rewrite !N.compare_lt_iff. apply N.lt_trans.
Qed.

Lemma ascii_compare_eq (a b : ascii) : Ascii.compare a b = Eq -> a = b.
Proof. apply Ascii.compare_eq_iff. Qed.

Lemma string_compare_lt_trans (a : string) :
  forall b c, String.compare a b = Lt -> String.compare b c = Lt ->
              String.compare a c = Lt.
Proof.
  induction a as [|x a IH]; intros [|y b] [|z c]; simpl; try discriminate; auto.
  destruct (Ascii.compare x y) eqn:Exy; try discriminate;
    destruct (Ascii.compare y z) eqn:Eyz; try discriminate; intros Hab Hbc.
  - apply ascii_compare_eq in Exy, Eyz. subst.
    rewrite (proj2 (N.compare_eq_iff _ _) eq_refl : Ascii.compare z z = Eq).
    eauto.
  - apply ascii_compare_eq in Exy. subst. now rewrite Eyz.
  - apply ascii_compare_eq in Eyz. subst. now rewrite Exy.
  - now rewrite (ascii_compare_lt_trans x y z Exy Eyz).
Qed.

(** X4: the builder does not compare the two dates.  When the end instant is
    not after the start instant, the filter is emitted all the same and its
    date predicate admits no timestamp at all. *)
Theorem date_predicate_empty_when_end_not_after_start :
  forall (G : Type) (SG : Shapely G) (g : G) (p : SearchParams),
    String.leb (instant (end_date p)) (instant (start_date p)) = true ->
    forall t, admits_date g p t = false.
Proof.
  intros G SG g p Hle t. rewrite admits_date_unfold, andb_true_r.
  destruct (String.ltb (instant (start_date p)) t) eqn:E1; [|reflexivity].
  destruct (String.ltb t (instant (end_date p))) eqn:E2; [|reflexivity].
  exfalso. unfold String.ltb, String.leb in *.
  destruct (String.compare (instant (start_date p)) t) eqn:C1; try discriminate.
  destruct (String.compare t (instant (end_date p))) eqn:C2; try discriminate.
  pose proof (string_compare_lt_trans _ _ _ C1 C2) as C3.
  rewrite String.compare_antisym, C3 in Hle. discriminate.
Qed.

Lemma date_predicate_empty_when_end_not_after_start_witness :
  admits_date Sample.unit_square Cases.swapped_dates "2020-10-15T12:00:00Z" = false.
Proof.
  exact (date_predicate_empty_when_end_not_after_start
           Grid.geometry Grid.shapely Sample.unit_square Cases.swapped_dates
           eq_refl "2020-10-15T12:00:00Z").
Defined.

(** ** Search client: one request, failures, negative caps *)

(** X5: a search issues exactly one request, the POST of the item types and
    of the filter to the quick-search endpoint, whatever the provider
    answers: there is no second page and no retry at this layer. *)
Theorem quick_search_sends_one_request :
  forall (G : Type) (SG : Shapely G) (cfg : Config) (g : G) (p : SearchParams) (w : world),
    sent (snd (quick_search cfg g p w)) = sent w ++ [search_post cfg g p]
    /\ slept (snd (quick_search cfg g p w)) = slept w
    /\ files (snd (quick_search cfg g p w)) = files w.
Proof.
  intros G SG cfg g p w. unfold quick_search, bind, http, search_post.
  destruct (script w) as [|[r|e] rest]; simpl; try (repeat split; reflexivity).
  destruct (ok r); simpl; try (repeat split; reflexivity).
  unfold resp_json. destruct (body r); simpl; repeat split; reflexivity.
Qed.

(** X6: an answer with an error status (400 to 599) makes the search fail
    with "Quick-search failed", the status and the text of the answer; its
    body is not read, and the remaining answers are left. *)
Theorem quick_search_fails_on_error_status :
  forall (G : Type) (SG : Shapely G) (cfg : Config) (g : G) (p : SearchParams)
         (resp : response) (rest : list reply) (w : world),
    script w = Answer resp :: rest ->
    400 <= status_code resp < 600 ->
    quick_search cfg g p w
    = (Raise (RuntimeError ("Quick-search failed: " ++ str_of_Z (status_code resp)
                              ++ " " ++ text resp)%string),
       answered (search_post cfg g p) rest w).
Proof.
  intros G SG cfg g p resp rest w Hs Hst.
  unfold quick_search, bind, http. rewrite Hs.
  assert (Hok : ok resp = false).
  { unfold ok. apply negb_false_iff, andb_true_intro.
    split; [apply Z.leb_le | apply Z.ltb_lt]; lia. }
  rewrite Hok. reflexivity.
Qed.

Lemma quick_search_fails_on_error_status_witness :
  quick_search Sample.cfg Sample.unit_square Sample.cap2
               (Sample.fresh [Answer Cases.unauthorized; Sample.three_features])
  = (Raise (RuntimeError "Quick-search failed: 401 bad key"),
     answered (search_post Sample.cfg Sample.unit_square Sample.cap2)
              [Sample.three_features]
              (Sample.fresh [Answer Cases.unauthorized; Sample.three_features])).
Proof.
  exact (quick_search_fails_on_error_status
           Grid.geometry Grid.shapely Sample.cfg Sample.unit_square Sample.cap2
           Cases.unauthorized [Sample.three_features]
           (Sample.fresh [Answer Cases.unauthorized; Sample.three_features])
           eq_refl ltac:(simpl; lia)).
Defined.

(** X7: the cap is used as a slice bound without a sign check.  With a
    negative cap [-k] the search does not return an empty list: it drops the
    last [k] features and keeps the others, in order. *)
Theorem quick_search_negative_cap_drops_tail :
  forall (G : Type) (SG : Shapely G) (cfg : Config) (g : G) (p : SearchParams)
         (resp : response) (d : dict) (fs : list json) (rest : list reply) (w : world),
    script w = Answer resp :: rest -> ok resp = true ->
    body resp = Some (JObj d) -> dict_lookup "features" d = Some (JArr fs) ->
    result_limit p < 0 ->
    exists d',
      fst (quick_search cfg g p w) = Ret (JObj d')
      /\ dict_lookup "features" d'
         = Some (JArr (firstn (List.length fs - Z.to_nat (- result_limit p)) fs)).
Proof.
  intros G SG cfg g p resp d fs rest w Hs Hok Hbody Hfs Hneg.
  rewrite (quick_search_answer cfg g p resp (JObj d) rest w Hs Hok Hbody).
  unfold cap_features. rewrite Hfs.
  destruct (Z.of_nat (List.length fs) >? result_limit p) eqn:E.
  2:{ rewrite Z.gtb_ltb in E. apply Z.ltb_ge in E. lia. }
  eexists. split; [reflexivity|].
  rewrite dict_lookup_set_same. unfold slice_to.
  apply Z.ltb_lt in Hneg. rewrite Hneg. apply Z.ltb_lt in Hneg.
  do 3 f_equal. lia.
Qed.

Lemma quick_search_negative_cap_drops_tail_witness :
  exists d',
    fst (quick_search Sample.cfg Sample.unit_square (Cases.with_cap (-1))
                      (Sample.fresh [Sample.three_features])) = Ret (JObj d')
    /\ dict_lookup "features" d'
       = Some (JArr [Sample.feature "s1" "PSScene"; Sample.feature "s2" "PSScene"]).
Proof.
  exact (quick_search_negative_cap_drops_tail
           Grid.geometry Grid.shapely Sample.cfg Sample.unit_square (Cases.with_cap (-1))
           _ _ _ [] (Sample.fresh [Sample.three_features])
           eq_refl eq_refl eq_refl eq_refl eq_refl).
Defined.

(** ** Order lifecycle: failures while polling and downloading *)

Lemma error_status_not_ok (r : response) : 400 <= status_code r < 600 -> ok r = false.
Proof.
  intro Hst. unfold ok. apply negb_false_iff, andb_true_intro.
  split; [apply Z.leb_le | apply Z.ltb_lt]; lia.
Qed.

Lemma poll_turn_error (cfg : Config) (order_id : json) (u : string) (k : nat)
      (r : response) (tl : list reply) (w : world) :
  script w = Answer r :: tl -> ok r = false ->
  poll (S k) cfg order_id (JStr u) w
  = (Raise (RuntimeError ("Failed to fetch order status: "
                            ++ str_of_Z (status_code r) ++ " " ++ text r)%string),
     after_polls cfg u 1 0 tl w).
Proof.
  intros Hs Hok. simpl. unfold bind, http_get, http. rewrite Hs. simpl. rewrite Hok. simpl.
  unfold raise, after_polls. simpl. now rewrite app_nil_r.
Qed.

(** X8: a status fetch that comes back with an error status ends the wait at
    once: after [n] pending answers the loop has slept [n] times, raises
    "Failed to fetch order status" with the status and text of that answer,
    and fetches nothing more. *)
Theorem polling_stops_on_fetch_error :
  forall (cfg : Config) (order_id : json) (u : string)
         (pending : list response) (r : response) (rest : list reply) (w : world),
    Forall reports_pending pending ->
    script w = map Answer pending ++ Answer r :: rest ->
    400 <= status_code r < 600 ->
    poll_order cfg order_id (JStr u) w
    = (Raise (RuntimeError ("Failed to fetch order status: "
                              ++ str_of_Z (status_code r) ++ " " ++ text r)%string),
       after_polls cfg u (S (List.length pending)) (List.length pending) rest w).
Proof.
  intros cfg order_id u pending r rest w Hp Hs Hst.
  rewrite (poll_order_through_pending cfg order_id u pending _ w Hp Hs).
  erewrite poll_turn_error by (simpl; eauto using error_status_not_ok).
  rewrite after_polls_after_polls. do 2 f_equal; lia.
Qed.

Lemma polling_stops_on_fetch_error_witness :
  poll_order Sample.cfg (JStr "order-1") (JStr Sample.order_link)
             (Sample.fresh (map Answer Sample.waiting
                            ++ [Answer Cases2.unavailable;
                                Answer (Sample.status "success" Sample.descriptors)]))
  = (Raise (RuntimeError "Failed to fetch order status: 503 try later"),
     after_polls Sample.cfg Sample.order_link 3 2
                 [Answer (Sample.status "success" Sample.descriptors)]
                 (Sample.fresh (map Answer Sample.waiting
                                ++ [Answer Cases2.unavailable;
                                    Answer (Sample.status "success" Sample.descriptors)]))).
Proof.
  exact (polling_stops_on_fetch_error
           Sample.cfg (JStr "order-1") Sample.order_link Sample.waiting Cases2.unavailable
           [Answer (Sample.status "success" Sample.descriptors)]
           (Sample.fresh (map Answer Sample.waiting
                          ++ [Answer Cases2.unavailable;
                              Answer (Sample.status "success" Sample.descriptors)]))
           pending_samples eq_refl ltac:(simpl; lia)).
Defined.

(** X9: a completed order whose payload has no [_links], no [results] under
    it, or a [results] value that is empty (an empty list, [null]) fails with
    "No results links present in completed order."; no archive is created
    and nothing is fetched. *)
Theorem completed_order_without_results_writes_nothing :
  forall (cfg : Config) (order_name : string) (d : dict) (w : world),
    (dict_lookup "_links" d = None
     \/ exists l, dict_lookup "_links" d = Some (JObj l)
                  /\ (dict_lookup "results" l = None
                      \/ exists v, dict_lookup "results" l = Some v /\ truthy v = false)) ->
    download_bundle cfg order_name (JObj d) w
    = (Raise (RuntimeError "No results links present in completed order."), w).
Proof.
  intros cfg order_name d w H. unfold download_bundle, bind, lift, get.
  destruct H as [Hd | (l & Hd & Hl)]; rewrite Hd; [reflexivity|].
  destruct Hl as [Hl | (v & Hl & Hv)]; rewrite Hl; [reflexivity|].
  now rewrite Hv.
Qed.

Lemma completed_order_without_results_writes_nothing_witness :
  download_bundle Sample.cfg "AOI_001_001" (Sample.state_payload "success" [])
                  (Sample.fresh (map Answer Sample.downloads))
  = (Raise (RuntimeError "No results links present in completed order."),
     Sample.fresh (map Answer Sample.downloads)).
Proof.
  apply completed_order_without_results_writes_nothing.
  right. exists [("results", JArr [])]. split; [reflexivity|].
  right. exists (JArr []). split; reflexivity.
Defined.

Lemma download_result_error_status (idx : nat) (result : json) (r : response)
      (rest : list reply) (w : world) :
  descriptor_ok result = true -> ok r = false ->
  script w = Answer r :: rest ->
  download_result idx result w
  = (Raise (HTTPError (status_code r)),
     answered (get_request (location result)) rest w).
Proof.
  intros Hd Hok Hs. destruct result as [| | | | |d]; try discriminate.
  unfold descriptor_ok in Hd. apply andb_prop in Hd. destruct Hd as [Hloc Hname].
  unfold download_result, bind, lift, location, get, http_get, http.
  destruct (dict_lookup "location" d) as [[| | |u| |]|]; try discriminate.
  destruct (dict_lookup "name" d) as [[| | |n| |]|]; try discriminate;
    rewrite Hs, Hok; reflexivity.
Qed.

(** The downloads that succeed at the head of the list are written, and the
    loop goes on with the others. *)
Lemma download_results_prefix (done : list json) :
  forall (idx : nat) (others : list json) (written : list (string * bytes))
         (downloads : list response) (rest : list reply) (w : world),
    forallb descriptor_ok done = true -> forallb download_ok downloads = true ->
    named idx done = true ->
    List.length downloads = List.length done ->
    script w = map Answer downloads ++ rest ->
    download_results idx (done ++ others) written w
    = download_results (idx + List.length done) others
                       (written ++ packaged idx done downloads)
                       (after_downloads done rest w).
Proof.
  induction done as [|result done IH];
    intros idx others written [|r downloads] rest w Hd Hr Hn Hlen Hs; try discriminate.
  - simpl in *. rewrite app_nil_r, Nat.add_0_r. f_equal.
    unfold after_downloads. simpl. rewrite app_nil_r. destruct w; simpl in *. now subst.
  - simpl in Hd, Hr, Hn, Hlen, Hs.
    apply andb_prop in Hd. destruct Hd as [Hd Hds].
    apply andb_prop in Hr. destruct Hr as [Hr Hrs].
    apply andb_prop in Hn. destruct Hn as [Hn Hns].
    apply negb_true_iff, String.eqb_neq in Hn.
    simpl. rewrite (download_result_ok idx result r _ w Hd Hr Hn Hs).
    rewrite (IH (S idx) others _ downloads rest) by (auto; lia).
    rewrite after_downloads_answered, <- app_assoc.
    replace (S idx + List.length done)%nat with (idx + S (List.length done))%nat by lia.
    reflexivity.
Qed.

(** X10: the archive is not written atomically.  When the first [k]
    downloads of a completed order succeed and the next one comes back with
    an error status, the order fails with that HTTP error, the archive is
    left at the bundle path with the [k] entries written so far, and the
    descriptors after the failing one are never fetched. *)
Theorem failed_download_leaves_partial_archive :
  forall (cfg : Config) (order_name : string) (s links : json)
         (done later : list json) (failing : json)
         (downloads : list response) (bad : response)
         (rest : list reply) (w : world),
    get s "_links" (JObj []) = Ret links ->
    get links "results" (JArr []) = Ret (JArr (done ++ failing :: later)) ->
    forallb descriptor_ok done = true -> descriptor_ok failing = true ->
    forallb download_ok downloads = true -> named 1 done = true ->
    List.length downloads = List.length done ->
    400 <= status_code bad < 600 ->
    script w = map Answer downloads ++ Answer bad :: rest ->
    exists w',
      download_bundle cfg order_name s w = (Raise (HTTPError (status_code bad)), w')
      /\ files w'
         = (path_join (download_dir cfg) (order_name ++ "_bundle.zip")%string,
            ZipArchive (packaged 1 done downloads)) :: files w
      /\ List.length (packaged 1 done downloads) = List.length done
      /\ sent w' = sent w ++ map (fun result => get_request (location result))
                                 (done ++ [failing])
      /\ script w' = rest.
Proof.
  intros cfg order_name s links done later failing downloads bad rest w
         Hlinks Hres Hd Hf Hr Hn Hlen Hst Hs.
  unfold download_bundle, bind, lift. rewrite Hlinks, Hres.
  assert (Htruthy : truthy (JArr (done ++ failing :: later)) = true)
    by (destruct done; reflexivity).
  rewrite Htruthy. cbv beta iota. change (negb true) with false. cbv beta iota.
  rewrite (download_results_prefix done 1 (failing :: later) [] downloads
                                   (Answer bad :: rest) w Hd Hr Hn Hlen Hs).
  simpl download_results.
  rewrite (download_result_error_status
             _ failing bad rest (after_downloads done (Answer bad :: rest) w) Hf
             (error_status_not_ok bad Hst) eq_refl).
  eexists. split; [reflexivity|]. simpl. split; [reflexivity|].
  split; [now apply packaged_length|]. split; [|reflexivity].
  rewrite map_app, app_assoc. reflexivity.
Qed.

Lemma failed_download_leaves_partial_archive_witness :
  exists w',
    download_bundle Sample.cfg "AOI_001_001"
                    (Sample.state_payload "success" Sample.descriptors)
                    (Sample.fresh [Answer (Sample.streamed [[Byte.x50; Byte.x4b]]);
                                   Answer Cases2.gone])
    = (Raise (HTTPError 404), w')
    /\ files w' = [("downloads/AOI_001_001_bundle.zip",
                    ZipArchive [("s1_clip.tif", [Byte.x50; Byte.x4b])])].
Proof.
  destruct (failed_download_leaves_partial_archive
              Sample.cfg "AOI_001_001"
              (Sample.state_payload "success" Sample.descriptors)
              (JObj [("results", JArr Sample.descriptors)])
              [JObj [("location", JStr "https://files/1");
                     ("name", JStr "order-1/PSScene/s1_clip.tif")]]
              [] (JObj [("location", JStr "https://files/2")])
              [Sample.streamed [[Byte.x50; Byte.x4b]]] Cases2.gone []
              (Sample.fresh [Answer (Sample.streamed [[Byte.x50; Byte.x4b]]);
                             Answer Cases2.gone])
              eq_refl eq_refl eq_refl eq_refl eq_refl eq_refl eq_refl
              ltac:(simpl; lia) eq_refl)
    as (w' & Hret & Hfiles & _).
  exists w'. split; [exact Hret | exact Hfiles].
Defined.

(** ** Order lifecycle: what an archive can contain *)

Lemma split_parts_no_slash (s : string) :
  Forall (fun part => no_slash part = true) (split "/" s).
Proof.
  induction s as [|c s IH]; simpl.
  - repeat constructor.
  - destruct (Ascii.eqb c "/") eqn:E.
    + constructor; [reflexivity | exact IH].
    + destruct (split "/" s) as [|part parts]; inversion IH; subst;
        constructor; simpl; try rewrite E; auto.
Qed.

Lemma last_Forall {A} (P : A -> Prop) (l : list A) (d : A) :
  Forall P l -> P d -> P (last l d).
Proof.
  induction 1 as [|x l Hx Hl IH]; intro Hd; simpl; [exact Hd|].
  destruct l; [exact Hx | apply IH, Hd].
Qed.

(** [Path(s).name] never contains a slash. *)
Lemma path_name_no_slash (s : string) : no_slash (path_name s) = true.
Proof.
  unfold path_name, path_parts. apply last_Forall; [|reflexivity].
  apply Forall_forall. intros part Hin. apply filter_In in Hin.
  pose proof (split_parts_no_slash s) as Hall. rewrite Forall_forall in Hall.
  apply Hall. tauto.
Qed.

Lemma download_result_flat (idx : nat) (result : json) (w w' : world)
      (entry : string * bytes) :
  download_result idx result w = (Ret entry, w') -> flat_name entry.
Proof.
  unfold download_result, bind, lift.
  destruct (get result "location" JNull) as [url| |]; try discriminate.
  destruct (get result "name" _) as [[| | |n| |]| |]; try discriminate.
  destruct (http_get url w) as [[r|e|] w1]; try discriminate.
  destruct (negb (ok r)); [discriminate|].
  destruct (py_int _); try discriminate.
  destruct (path_name n =? "")%string eqn:E; [discriminate|].
  unfold ret. intro H. injection H as <- _. split; simpl.
  - apply path_name_no_slash.
  - now apply String.eqb_neq.
Qed.

Lemma download_results_flat (results : list json) :
  forall idx written w,
    Forall flat_name written ->
    Forall flat_name (fst (fst (download_results idx results written w))).
Proof.
  induction results as [|x results IH]; intros idx written w Hw; simpl; [exact Hw|].
  destruct (download_result idx x w) as [[entry|e|] w1] eqn:E; simpl; try exact Hw.
  apply IH. apply Forall_app. split; [exact Hw|].
  constructor; [|constructor]. exact (download_result_flat _ _ _ _ _ E).
Qed.

Lemma download_result_keeps_files (idx : nat) (result : json) (w : world) :
  files (snd (download_result idx result w)) = files w.
Proof.
  unfold download_result, bind, lift.
  destruct (get result "location" JNull) as [url| |]; try reflexivity.
  destruct (get result "name" _) as [[| | |n| |]| |]; try reflexivity.
  unfold http_get. destruct url; try reflexivity.
  unfold http. destruct (script w) as [|[r|e] rest]; try reflexivity.
  destruct (negb (ok r)); [reflexivity|].
  destruct (py_int _); try reflexivity.
  destruct (path_name n =? "")%string; reflexivity.
Qed.

Lemma download_results_keeps_files (results : list json) :
  forall idx written w,
    files (snd (download_results idx results written w)) = files w.
Proof.
  induction results as [|x results IH]; intros idx written w; simpl; [reflexivity|].
  pose proof (download_result_keeps_files idx x w) as Hx.
  destruct (download_result idx x w) as [[entry|e|] w1]; simpl in *; try exact Hx.
  now rewrite IH.
Qed.

(** X11: whatever the status payload and the provider's answers,
    [download_bundle] writes at most one file, the archive at the bundle
    path, and every entry of that archive has a non-empty name without a
    directory part: the archive is flat. *)
Theorem bundle_is_one_flat_archive :
  forall (cfg : Config) (order_name : string) (s : json) (w : world),
    files (snd (download_bundle cfg order_name s w)) = files w
    \/ exists entries,
        files (snd (download_bundle cfg order_name s w))
        = (path_join (download_dir cfg) (order_name ++ "_bundle.zip")%string,
           ZipArchive entries) :: files w
        /\ Forall flat_name entries.
Proof.
  intros cfg order_name s w. unfold download_bundle, bind, lift.
  destruct (get s "_links" (JObj [])) as [links| |]; [|now left|now left].
  destruct (get links "results" (JArr [])) as [results| |]; [|now left|now left].
  destruct (negb (truthy results)); [now left|].
  destruct results as [| | | |rs|]; simpl;
    try (right; exists []; split; [reflexivity | constructor]).
  pose proof (download_results_flat rs 1 [] w (Forall_nil _)) as Hflat.
  pose proof (download_results_keeps_files rs 1 [] w) as Hfiles.
  destruct (download_results 1 rs [] w) as [[written outcome] w1]. simpl in *.
  right. exists written. split; [|exact Hflat].
  destruct outcome; simpl; now rewrite Hfiles.
Qed.

(** ** Order lifecycle: the three phases in sequence *)

Lemma submit_order_accepted {G : Type} `{Shapely G} (cfg : Config)
      (item_id item_type : json) (aoi : G) (product_bundle order_name : string)
      (resp : response) (order order_id links order_url : json)
      (rest : list reply) (w : world) :
  script w = Answer resp :: rest -> status_code resp = 202 ->
  body resp = Some order -> getitem order "id" = Ret order_id ->
  getitem order "_links" = Ret links -> getitem links "_self" = Ret order_url ->
  submit_order cfg item_id item_type aoi product_bundle order_name w
  = (Ret (order_id, order_url),
     answered (order_post cfg item_id item_type aoi product_bundle order_name) rest w).
Proof.
  intros Hs Hst Hbody Hid Hlinks Hself.
  unfold submit_order, bind, http. rewrite Hs.
  apply Z.eqb_eq in Hst. rewrite Hst. simpl.
  unfold resp_json. rewrite Hbody. unfold ret, lift.
  rewrite Hid, Hlinks, Hself. reflexivity.
Qed.

Lemma poll_order_success (cfg : Config) (order_id : json) (u : string)
      (pending : list response) (r : response) (s : json)
      (rest : list reply) (w : world) :
  Forall reports_pending pending ->
  script w = map Answer pending ++ Answer r :: rest ->
  reported r = Some (s, JStr "success") ->
  poll_order cfg order_id (JStr u) w
  = (Ret s, after_polls cfg u (S (List.length pending)) (List.length pending) rest w).
Proof.
  intros Hp Hs Hrep.
  rewrite (poll_order_through_pending cfg order_id u pending _ w Hp Hs).
  erewrite poll_turn by (simpl; eauto). simpl.
  rewrite after_polls_after_polls. do 2 f_equal; lia.
Qed.

(** X12: the whole lifecycle on a provider that accepts the order, reports
    [n] pending states and then [success] with [K >= 1] results, and serves
    every result.  The call returns the bundle path; it has sent the order,
    then [n + 1] status fetches, then one fetch per result, in that order;
    it has slept [n] times for the polling interval; and it has written one
    archive, holding the [K] results. *)
Theorem order_lifecycle_end_to_end :
  forall (G : Type) (SG : Shapely G) (cfg : Config) (item_id item_type : json) (aoi : G)
         (product_bundle order_name u : string)
         (accepted : response) (order order_id links : json)
         (pending : list response) (completed : response) (s links_s : json)
         (results : list json) (downloads : list response)
         (rest : list reply) (w : world),
    script w = Answer accepted
                 :: map Answer pending
                 ++ Answer completed :: map Answer downloads ++ rest ->
    status_code accepted = 202 -> body accepted = Some order ->
    getitem order "id" = Ret order_id -> getitem order "_links" = Ret links ->
    getitem links "_self" = Ret (JStr u) ->
    Forall reports_pending pending ->
    reported completed = Some (s, JStr "success") ->
    get s "_links" (JObj []) = Ret links_s ->
    get links_s "results" (JArr []) = Ret (JArr results) ->
    results <> [] ->
    forallb descriptor_ok results = true -> forallb download_ok downloads = true ->
    named 1 results = true ->
    List.length downloads = List.length results ->
    exists w',
      place_order_and_download cfg item_id item_type aoi product_bundle order_name w
      = (Ret (path_join (download_dir cfg) (order_name ++ "_bundle.zip")%string), w')
      /\ sent w'
         = sent w
           ++ order_post cfg item_id item_type aoi product_bundle order_name
           :: repeat (get_request u) (S (List.length pending))
           ++ map (fun result => get_request (location result)) results
      /\ slept w' = slept w ++ repeat (poll_interval_s cfg) (List.length pending)
      /\ files w'
         = (path_join (download_dir cfg) (order_name ++ "_bundle.zip")%string,
            ZipArchive (packaged 1 results downloads)) :: files w
      /\ List.length (packaged 1 results downloads) = List.length results
      /\ script w' = rest.
Proof.
  intros G SG cfg item_id item_type aoi product_bundle order_name u
         accepted order order_id links pending completed s links_s results downloads
         rest w Hs Hst Hbody Hid Hlinks Hself Hp Hrep Hls Hres Hne Hd Hr Hn Hlen.
  unfold place_order_and_download. unfold bind at 1.
  rewrite (submit_order_accepted cfg item_id item_type aoi product_bundle order_name
             accepted order order_id links (JStr u) _ w Hs Hst Hbody Hid Hlinks Hself).
  simpl fst. simpl snd. unfold bind at 1.
  set (w1 := answered (order_post cfg item_id item_type aoi product_bundle order_name)
                      (map Answer pending
                       ++ Answer completed :: map Answer downloads ++ rest) w).
  rewrite (poll_order_success cfg order_id u pending completed s
             (map Answer downloads ++ rest) w1 Hp eq_refl Hrep).
  set (w2 := after_polls cfg u (S (List.length pending)) (List.length pending)
                         (map Answer downloads ++ rest) w1).
  rewrite (download_bundle_ok cfg order_name s links_s results downloads rest w2
             Hls Hres Hne Hd Hr Hn Hlen eq_refl).
  eexists. split; [reflexivity|]. simpl.
  split; [now rewrite <- !app_assoc|].
  split; [reflexivity|]. split; [reflexivity|].
  split; [now apply packaged_length | reflexivity].
Qed.

Lemma order_lifecycle_end_to_end_witness :
  exists w',
    place_order_and_download Sample.cfg (JStr "s1") (JStr "PSScene") Sample.unit_square
                             "visual" "AOI_001_001"
                             (Sample.fresh (Sample.accepted
                                              :: map Answer Sample.waiting
                                              ++ Answer (Sample.status "success"
                                                                       Sample.descriptors)
                                              :: map Answer Sample.downloads ++ []))
    = (Ret "downloads/AOI_001_001_bundle.zip", w')
    /\ List.length (sent w') = 6%nat
    /\ slept w' = [30; 30]
    /\ files w'
       = [("downloads/AOI_001_001_bundle.zip",
           ZipArchive [("s1_clip.tif", [Byte.x50; Byte.x4b; Byte.x03]);
                       ("result_2", [Byte.x49; Byte.x49; Byte.x2a])])].
Proof.
  destruct (order_lifecycle_end_to_end
              Grid.geometry Grid.shapely Sample.cfg (JStr "s1") (JStr "PSScene")
              Sample.unit_square "visual" "AOI_001_001" Sample.order_link
              {| status_code := 202; text := "";
                 body := Some (JObj [("id", JStr "order-1");
                                     ("_links", JObj [("_self", JStr Sample.order_link)])]);
                 content_length := None; chunks := [] |}
              (JObj [("id", JStr "order-1");
                     ("_links", JObj [("_self", JStr Sample.order_link)])])
              (JStr "order-1") (JObj [("_self", JStr Sample.order_link)])
              Sample.waiting (Sample.status "success" Sample.descriptors)
              (Sample.state_payload "success" Sample.descriptors)
              (JObj [("results", JArr Sample.descriptors)])
              Sample.descriptors Sample.downloads []
              (Sample.fresh (Sample.accepted
                               :: map Answer Sample.waiting
                               ++ Answer (Sample.status "success" Sample.descriptors)
                               :: map Answer Sample.downloads ++ []))
              eq_refl eq_refl eq_refl eq_refl eq_refl eq_refl pending_samples
              eq_refl eq_refl eq_refl ltac:(discriminate) eq_refl eq_refl eq_refl eq_refl)
    as (w' & Hret & Hsent & Hslept & Hfiles & _).
  exists w'. split; [exact Hret|]. split; [now rewrite Hsent|].
  split; [exact Hslept | exact Hfiles].
Defined.

(** ** Run orchestrator: exit codes, empty searches, dry runs *)

Lemma bind_ret_inv {A B} (m : M A) (k : A -> M B) (w w' : world) (b : B) :
  bind m k w = (Ret b, w') ->
  exists a w1, m w = (Ret a, w1) /\ k a w1 = (Ret b, w').
Proof.
  unfold bind. destruct (m w) as [[a|e|] w1]; try discriminate. eauto.
Qed.

Lemma main_ret_inv {G : Type} `{Shapely G} (args : Args) (pl_api_key : string)
      (rows : list G) (w w' : world) (code : Z) :
  main args pl_api_key rows w = (Ret code, w') ->
  (code = 2 /\ w' = w /\ (strip pl_api_key = "" \/ rows = []))
  \/ (code = 0 /\ strip pl_api_key <> "" /\ rows <> []).
Proof.
  unfold main.
  destruct (strip pl_api_key =? "")%string eqn:Ekey.
  - apply String.eqb_eq in Ekey. unfold ret. intro E. inversion E; subst. auto.
  - apply String.eqb_neq in Ekey. destruct rows as [|row rows].
    + unfold ret. intro E. inversion E; subst. auto.
    + intro E. apply bind_ret_inv in E. destruct E as (st & w1 & _ & E).
      right. repeat split; [|exact Ekey|discriminate].
      destruct (orders_list st); unfold ret in E.
      * now injection E as <- _.
      * apply bind_ret_inv in E. destruct E as (u & w2 & _ & E).
        now injection E as <- _.
Qed.

(** *** A blank key: [strip] leaves nothing exactly when every character is
    white space *)

Lemma lstrip_nil_iff (s : string) :
  lstrip s = "" <-> forallb is_space (list_ascii_of_string s) = true.
Proof.
  induction s as [|c r IH]; simpl; [tauto|].
  destruct (is_space c); simpl; [exact IH|]. split; discriminate.
Qed.

Lemma lstrip_head (s : string) (c : ascii) (r : string) :
  lstrip s = String c r -> is_space c = false.
Proof.
  induction s as [|d t IH]; simpl; [discriminate|].
  destruct (is_space d) eqn:Ed; [exact IH|].
  intro E. injection E as <- _. exact Ed.
Qed.

Lemma string_rev_onto_chars (s : string) :
  forall acc, list_ascii_of_string (string_rev_onto s acc)
              = rev (list_ascii_of_string s) ++ list_ascii_of_string acc.
Proof.
  induction s as [|c r IH]; intro acc; simpl; [reflexivity|].
  rewrite IH. simpl. now rewrite <- app_assoc.
Qed.

Lemma string_rev_chars (s : string) :
  list_ascii_of_string (string_rev s) = rev (list_ascii_of_string s).
Proof. unfold string_rev. rewrite string_rev_onto_chars. apply app_nil_r. Qed.

Lemma string_rev_nil (s : string) : string_rev s = "" -> s = "".
Proof.
  intro E. apply (f_equal list_ascii_of_string) in E. rewrite string_rev_chars in E.
  simpl in E. destruct s as [|c r]; [reflexivity|]. simpl in E.
  destruct (rev (list_ascii_of_string r)); discriminate.
Qed.

Lemma strip_blank_iff (s : string) :
  strip s = "" <-> forallb is_space (list_ascii_of_string s) = true.
Proof.
  unfold strip. split.
  - intro E. apply string_rev_nil, lstrip_nil_iff in E.
    rewrite string_rev_chars in E.
    destruct (lstrip s) as [|c r] eqn:El; [now apply lstrip_nil_iff|].
    apply lstrip_head in El. exfalso.
    rewrite forallb_forall in E. specialize (E c).
    rewrite E in El; [discriminate|]. apply -> in_rev. now left.
  - intro E. apply lstrip_nil_iff in E. now rewrite E.
Qed.

(** X13: the exit codes of a run that ends normally, for an API key made of
    ASCII characters.  The code is 2, with no request sent, no file written
    and no line read from the prompt, exactly when the key is blank (missing,
    or made of white space only: the characters 9 to 13 and 28 to 32) or the
    AOI file has no record; otherwise it is 0. *)
Theorem main_exit_codes :
  forall (G : Type) (SG : Shapely G) (args : Args) (pl_api_key : string)
         (rows : list G) (w : world),
    isascii pl_api_key = true ->
    (forallb is_space (list_ascii_of_string pl_api_key) = true \/ rows = [] ->
     main args pl_api_key rows w = (Ret 2, w))
    /\ (forall code w',
           main args pl_api_key rows w = (Ret code, w') ->
           (code = 2 /\ w' = w
            /\ (forallb is_space (list_ascii_of_string pl_api_key) = true \/ rows = []))
           \/ (code = 0
               /\ forallb is_space (list_ascii_of_string pl_api_key) = false
               /\ rows <> [])).
Proof.
  intros G SG args pl_api_key rows w _. split.
  - intros [Hkey | ->]; unfold main.
    + apply strip_blank_iff in Hkey. rewrite Hkey. reflexivity.
    + destruct (strip pl_api_key =? "")%string; reflexivity.
  - intros code w' E. apply main_ret_inv in E.
    destruct E as [(-> & -> & [Hkey | ->]) | (-> & Hkey & Hrows)].
    + left. repeat split. left. now apply strip_blank_iff.
    + left. repeat split. now right.
    + right. repeat split; [|exact Hrows].
      destruct (forallb is_space (list_ascii_of_string pl_api_key)) eqn:Eb;
        [|reflexivity].
      exfalso. apply Hkey. now apply strip_blank_iff.
Qed.

(** A key of blanks only, and a file without records. *)
Lemma main_exit_codes_witness :
  main default_args "   " [Sample.unit_square] (Sample.fresh [Sample.three_features])
  = (Ret 2, Sample.fresh [Sample.three_features])
  /\ main default_args " KEY " (@nil Grid.geometry) (Sample.fresh [Sample.three_features])
     = (Ret 2, Sample.fresh [Sample.three_features]).
Proof.
  split.
  - apply (main_exit_codes Grid.geometry Grid.shapely default_args "   " _ _ eq_refl).
    left. reflexivity.
  - apply (main_exit_codes Grid.geometry Grid.shapely default_args " KEY " _ _ eq_refl).
    right. reflexivity.
Defined.

Lemma quick_search_ok {G : Type} `{Shapely G} (cfg : Config) (g : G) (p : SearchParams)
      (resp : response) (data : json) (rest : list reply) (w : world) :
  script w = Answer resp :: rest -> ok resp = true -> body resp = Some data ->
  quick_search cfg g p w
  = (cap_features (result_limit p) data, answered (search_post cfg g p) rest w).
Proof.
  intros Hs Hok Hbody. unfold quick_search, bind, http. rewrite Hs. simpl.
  rewrite Hok. simpl. unfold resp_json. rewrite Hbody. reflexivity.
Qed.

Lemma cap_features_none (limit : Z) (d : dict) :
  dict_lookup "features" d = None \/ dict_lookup "features" d = Some (JArr []) ->
  exists data, cap_features limit (JObj d) = Ret data
               /\ exists v, get data "features" (JArr []) = Ret v /\ truthy v = false.
Proof.
  intros [Hf | Hf]; unfold cap_features; rewrite Hf.
  - exists (JObj d). split; [reflexivity|]. exists (JArr []). simpl. now rewrite Hf.
  - destruct (Z.of_nat (List.length (@nil json)) >? limit).
    + eexists. split; [reflexivity|]. exists (JArr []). simpl.
      rewrite dict_lookup_set_same. unfold slice_to.
      destruct (limit <? 0); rewrite firstn_nil; auto.
    + exists (JObj d). split; [reflexivity|]. exists (JArr []). simpl. now rewrite Hf.
Qed.

Section EmptySearches.
Context {G : Type} `{Shapely G}.
Variables (args : Args) (cfg : Config) (params : SearchParams) (nrows : nat).

(** A record whose search finds nothing is passed over: the state of the
    loop is unchanged and only the search has been sent. *)
Lemma process_aoi_no_features (idx : nat) (row geom : G) (st : loop_state)
      (r : response) (rest : list reply) (w : world) :
  validate_geometry row = Ret geom -> script w = Answer r :: rest -> no_features r ->
  process_aoi args cfg params nrows idx row st w
  = (Ret st, answered (search_post cfg geom params) rest w).
Proof.
  intros Hv Hs (Hok & d & Hbody & Hf).
  destruct (cap_features_none (result_limit params) d Hf) as (data & Hcap & v & Hget & Hv').
  unfold process_aoi. unfold bind at 1. unfold lift at 1. rewrite Hv.
  unfold bind at 1. rewrite (quick_search_ok cfg geom params r (JObj d) rest w Hs Hok Hbody).
  rewrite Hcap. unfold bind at 1. unfold lift at 1. rewrite Hget, Hv'. reflexivity.
Qed.

Lemma aoi_loop_no_features (rows : list G) :
  forall (idx : nat) (answers : list response) (rest : list reply)
         (st : loop_state) (w : world),
    Forall (fun row => exists geom, validate_geometry row = Ret geom) rows ->
    Forall no_features answers ->
    List.length answers = List.length rows ->
    script w = map Answer answers ++ rest ->
    exists w',
      aoi_loop args cfg params nrows idx rows st w = (Ret st, w')
      /\ script w' = rest /\ files w' = files w /\ slept w' = slept w
      /\ stdin w' = stdin w /\ browser w' = browser w
      /\ List.length (sent w') = (List.length (sent w) + List.length rows)%nat.
Proof.
  induction rows as [|row rows IH]; intros idx [|r answers] rest st w Hrows Hans Hlen Hs;
    try discriminate.
  - exists w. simpl in *. repeat split; auto.
  - inversion Hrows as [|? ? (geom & Hv) Hrows']; subst.
    inversion Hans as [|? ? Hr Hans']; subst. simpl in Hs, Hlen.
    simpl. unfold bind.
    rewrite (process_aoi_no_features idx row geom st r _ w Hv Hs Hr).
    destruct (IH (S idx) answers rest st
                 (answered (search_post cfg geom params) (map Answer answers ++ rest) w)
                 Hrows' Hans' ltac:(lia) eq_refl)
      as (w' & Hloop & Hscript & Hfiles & Hslept & Hstdin & Hbrowser & Hsent).
    exists w'. rewrite Hloop. repeat split; auto.
    rewrite Hsent. simpl. rewrite length_app. simpl. lia.
Qed.
End EmptySearches.

(** X14: a run in which every record has a usable geometry and every search
    comes back without features ends with exit code 0: one search per record
    has been sent, and no file is written, not even the orders reference. *)
Theorem run_without_matches_exits_zero :
  forall (G : Type) (SG : Shapely G) (args : Args) (pl_api_key : string)
         (rows : list G) (answers : list response) (rest : list reply) (w : world),
    strip pl_api_key <> "" -> rows <> [] ->
    Forall (fun row => exists geom, validate_geometry row = Ret geom) rows ->
    Forall no_features answers ->
    List.length answers = List.length rows ->
    script w = map Answer answers ++ rest ->
    exists w',
      main args pl_api_key rows w = (Ret 0, w')
      /\ files w' = files w
      /\ List.length (sent w') = (List.length (sent w) + List.length rows)%nat
      /\ script w' = rest.
Proof.
  intros G SG args pl_api_key rows answers rest w Hkey Hne Hrows Hans Hlen Hs.
  rewrite (main_with_records args pl_api_key rows w Hkey Hne).
  destruct (aoi_loop_no_features
              args (mkConfig (strip pl_api_key) (arg_download_dir args))
              (params_of_args args) (List.length rows) rows 0 answers rest
              {| orders_list := []; order_idx := 0 |} w Hrows Hans Hlen Hs)
    as (w' & Hloop & Hscript & Hfiles & _ & _ & _ & Hsent).
  exists w'. unfold bind. rewrite Hloop. simpl. auto.
Qed.

Lemma run_without_matches_exits_zero_witness :
  exists w',
    main default_args "KEY" [Sample.unit_square; Sample.unit_square]
         (Sample.fresh [Answer Cases2.nothing_found; Answer Cases2.no_list])
    = (Ret 0, w')
    /\ files w' = [] /\ List.length (sent w') = 2%nat /\ script w' = [].
Proof.
  apply (run_without_matches_exits_zero
           Grid.geometry Grid.shapely default_args "KEY"
           [Sample.unit_square; Sample.unit_square]
           [Cases2.nothing_found; Cases2.no_list] []
           (Sample.fresh [Answer Cases2.nothing_found; Answer Cases2.no_list])).
  - discriminate.
  - discriminate.
  - repeat constructor; eexists; reflexivity.
  - constructor; [|constructor; [|constructor]].
    + split; [reflexivity|]. eexists. split; [reflexivity|]. right. reflexivity.
    + split; [reflexivity|]. eexists. split; [reflexivity|]. left. reflexivity.
  - reflexivity.
  - reflexivity.
Defined.

(** ** Run orchestrator: a run without [--order] *)

Lemma searching_silent {A} (cfg : Config) (m : M A) :
  (forall w, sent (snd (m w)) = sent w) -> searching cfg m.
Proof. intros Hm w. exists []. rewrite Hm, app_nil_r. auto. Qed.

Lemma searching_ret {A} (cfg : Config) (a : A) : searching cfg (ret a).
Proof. now apply searching_silent. Qed.

Lemma searching_raise {A} (cfg : Config) (e : exn) : searching cfg (@raise A e).
Proof. now apply searching_silent. Qed.

Lemma searching_lift {A} (cfg : Config) (r : result A) : searching cfg (lift r).
Proof. now apply searching_silent. Qed.

Lemma searching_write_file (cfg : Config) (path : string) (f : file) :
  searching cfg (write_file path f).
Proof. now apply searching_silent. Qed.

Lemma searching_open_browser (cfg : Config) (path : string) :
  searching cfg (open_browser path).
Proof. now apply searching_silent. Qed.

Lemma searching_input (cfg : Config) : searching cfg input.
Proof.
  apply searching_silent. intro w. unfold input. destruct (stdin w); reflexivity.
Qed.

Lemma searching_bind {A B} (cfg : Config) (m : M A) (k : A -> M B) :
  searching cfg m -> (forall a, searching cfg (k a)) -> searching cfg (bind m k).
Proof.
  intros Hm Hk w. unfold bind. destruct (Hm w) as (more & Hmore & Hall).
  destruct (m w) as [[a|e|] w1]; simpl in *.
  - destruct (Hk a w1) as (more' & Hmore' & Hall'). exists (more ++ more').
    rewrite Hmore', Hmore, app_assoc. split; [reflexivity|].
    apply Forall_app. auto.
  - eauto.
  - eauto.
Qed.

Lemma searching_try_except {A} (cfg : Config) (m : M A) (handler : exn -> M A) :
  searching cfg m -> (forall e, searching cfg (handler e)) ->
  searching cfg (try_except m handler).
Proof.
  intros Hm Hh w. unfold try_except. destruct (Hm w) as (more & Hmore & Hall).
  destruct (m w) as [[a|e|] w1]; simpl in *.
  - eauto.
  - destruct (Hh e w1) as (more' & Hmore' & Hall'). exists (more ++ more').
    rewrite Hmore', Hmore, app_assoc. split; [reflexivity|].
    apply Forall_app. auto.
  - eauto.
Qed.

Lemma searching_quick_search {G : Type} `{Shapely G} (cfg : Config) (g : G)
      (p : SearchParams) :
  searching cfg (quick_search cfg g p).
Proof.
  intro w. exists [search_post cfg g p]. split.
  - unfold quick_search, bind, http, search_post.
    destruct (script w) as [|[r|e] rest]; simpl; try reflexivity.
    destruct (ok r); simpl; try reflexivity.
    unfold resp_json. destruct (body r); reflexivity.
  - constructor; [|constructor]. split; reflexivity.
Qed.

Create HintDb searching.
#[local] Hint Resolve searching_ret searching_raise searching_lift searching_write_file
  searching_open_browser searching_input searching_quick_search : searching.

Ltac search_only :=
  repeat first
    [ apply searching_bind; [|intro]
    | apply searching_try_except; [|intro]
    | solve [auto with searching]
    | match goal with
      | |- searching _ (if ?b then _ else _) => destruct b
      | |- searching _ (match ?x with _ => _ end) => destruct x
      end ].

Section DryRun.
Context {G : Type} `{Shapely G}.

Lemma searching_make_preview_map (cfg : Config) (g : G) (geojson : json) (path : string) :
  searching cfg (make_preview_map g geojson path).
Proof. unfold make_preview_map. search_only. Qed.

Lemma searching_pick_item (cfg : Config) (args : Args) (feats : list json) :
  searching cfg (pick_item args feats).
Proof. unfold pick_item. search_only. Qed.

Lemma searching_process_aoi (args : Args) (cfg : Config) (params : SearchParams)
      (nrows idx : nat) (row : G) (st : loop_state) :
  arg_order args = false ->
  searching cfg (process_aoi args cfg params nrows idx row st).
Proof.
  intro Horder. unfold process_aoi.
  apply searching_bind; [auto with searching | intro geom].
  apply searching_bind; [auto with searching | intro geojson].
  apply searching_bind; [auto with searching | intro feats_v].
  destruct (negb (truthy feats_v)); [auto with searching|].
  apply searching_bind.
  - destruct (arg_preview args); [|auto with searching].
    apply searching_bind; [destruct (1 <? nrows)%nat; auto with searching | intro path].
    apply searching_bind; [apply searching_make_preview_map | intro].
    destruct (arg_open_map args); auto with searching.
  - intro. apply searching_bind; [auto with searching | intro feats].
    apply searching_bind; [apply searching_pick_item | intros [chosen|]];
      [|auto with searching].
    apply searching_bind; [auto with searching | intro match_].
    apply searching_bind; [auto with searching | intro props].
    apply searching_bind; [auto with searching | intro item_type].
    rewrite Horder. auto with searching.
Qed.

Lemma searching_aoi_loop (args : Args) (cfg : Config) (params : SearchParams)
      (nrows : nat) (rows : list G) :
  arg_order args = false ->
  forall idx st, searching cfg (aoi_loop args cfg params nrows idx rows st).
Proof.
  intro Horder. induction rows as [|row rows IH]; intros idx st; simpl.
  - auto with searching.
  - apply searching_bind; [now apply searching_process_aoi | intro st'; apply IH].
Qed.
End DryRun.

(** X15: without [--order] the run is a dry run.  Whatever the records, the
    provider's answers and what is typed at the prompt, every request that
    [main] sends is a POST to the quick-search endpoint; nothing is sent to
    the orders endpoint. *)
Theorem run_without_order_only_searches :
  forall (G : Type) (SG : Shapely G) (args : Args) (pl_api_key : string)
         (rows : list G) (w : world),
    arg_order args = false ->
    exists more,
      sent (snd (main args pl_api_key rows w)) = sent w ++ more
      /\ Forall (fun rq =>
                   method rq = "POST"
                   /\ url rq = "https://api.planet.com/data/v1/quick-search"
                   /\ url rq <> orders_url (mkConfig (strip pl_api_key)
                                                     (arg_download_dir args))) more.
Proof.
  intros G SG args pl_api_key rows w Horder.
  assert (Hmain : searching (mkConfig (strip pl_api_key) (arg_download_dir args))
                            (main args pl_api_key rows)).
  { unfold main. destruct (strip pl_api_key =? "")%string; [auto with searching|].
    destruct rows as [|row rows]; [auto with searching|].
    apply searching_bind; [now apply searching_aoi_loop | intro st].
    destruct (orders_list st); [auto with searching|].
    apply searching_bind; auto with searching. }
  destruct (Hmain w) as (more & Hmore & Hall). exists more. split; [exact Hmore|].
  eapply Forall_impl; [|exact Hall].
  intros rq [Hm Hu]. simpl in Hu. rewrite Hu. repeat split; auto. discriminate.
Qed.

Lemma run_without_order_only_searches_witness :
  exists more,
    sent (snd (main default_args "KEY" [Sample.unit_square]
                    (Sample.fresh [Sample.three_features; Sample.accepted])))
    = [] ++ more
    /\ Forall (fun rq =>
                 method rq = "POST"
                 /\ url rq = "https://api.planet.com/data/v1/quick-search"
                 /\ url rq <> "https://api.planet.com/compute/ops/orders/v2") more.
Proof.
  exact (run_without_order_only_searches
           Grid.geometry Grid.shapely default_args "KEY" [Sample.unit_square]
           (Sample.fresh [Sample.three_features; Sample.accepted]) eq_refl).
Defined.

(** ** Run orchestrator: an order that fails *)

Lemma list_index_first {A} (x : A) (l : list A) : list_index (x :: l) 0 = Ret x.
Proof.
  assert (E : (Z.of_nat (List.length (x :: l)) <=? 0) = false)
    by (apply Z.leb_gt; simpl List.length; lia).
  unfold list_index. cbv zeta. change (0 <? 0) with false. cbv iota.
  rewrite E. reflexivity.
Qed.

Section FailedOrder.
Context {G : Type} `{Shapely G}.

(** A non-interactive run with [--order], without [--item-id] and without
    [--preview]: after the search, the body of the loop places the order for
    the first feature and records its reference line. *)
Lemma process_aoi_orders_first (args : Args) (cfg : Config) (params : SearchParams)
      (nrows idx : nat) (row geom : G) (st : loop_state) (w w1 : world)
      (geojson f0 props item_type : json) (fs : list json) (i : string) :
  arg_prompt args = false -> arg_order args = true -> arg_preview args = false ->
  strip (arg_item_id args) = "" ->
  validate_geometry row = Ret geom ->
  quick_search cfg geom params w = (Ret geojson, w1) ->
  get geojson "features" (JArr []) = Ret (JArr (f0 :: fs)) ->
  getitem f0 "id" = Ret (JStr i) ->
  getitem f0 "properties" = Ret props ->
  getitem props "item_type" = Ret item_type ->
  process_aoi args cfg params nrows idx row st w
  = bind (try_except
            (place_order_and_download
               cfg (JStr i) item_type geom (arg_bundle args)
               ("AOI_" ++ fmt_03d (idx + 1) ++ "_" ++ fmt_03d (S (order_idx st)))%string
             ;;; ret tt)
            (fun _ => ret tt))
         (fun _ => ret {| orders_list :=
                            orders_list st
                            ++ [{| ref_item_id := JStr i;
                                   ref_item_type := item_type;
                                   ref_aoi_wkt := str_take 120 (wkt geom) |}];
                          order_idx := S (order_idx st) |}) w1.
Proof.
  intros Hprompt Horder Hpreview Hid Hv Hsearch Hfeats Hi Hprops Htype.
  assert (Hpick : pick_item args (f0 :: fs) = ret (Some (JStr i))).
  { unfold pick_item. rewrite Hprompt, Hid. simpl String.eqb. cbv iota.
    unfold first_id. rewrite list_index_first. simpl. rewrite Hi. reflexivity. }
  assert (Hmatch : resolve_match (JStr i) (f0 :: fs) = Ret f0).
  { unfold resolve_match. rewrite list_index_first. simpl. rewrite Hi. simpl.
    now rewrite String.eqb_refl. }
  unfold process_aoi. unfold bind at 1. unfold lift at 1. rewrite Hv.
  unfold bind at 1. rewrite Hsearch. unfold bind at 1. unfold lift at 1. rewrite Hfeats.
  change (truthy (JArr (f0 :: fs))) with true. cbv beta iota. change (negb true) with false.
  cbv iota. rewrite Hpreview.
  unfold bind, lift, ret at 1. simpl as_list. cbv iota.
  rewrite Hpick. unfold ret at 1. rewrite Hmatch, Hprops, Htype, Horder.
  reflexivity.
Qed.
End FailedOrder.

(** X16: an order that fails does not end the run.  In a non-interactive
    run with [--order] (no [--item-id], no [--preview]), when placing the
    order for the first feature raises an exception, the body of the loop
    returns all the same: the reference line of that order is recorded, the
    order counter has advanced, and the loop goes on with the next record. *)
Theorem failed_order_does_not_stop_the_run :
  forall (G : Type) (SG : Shapely G) (args : Args) (cfg : Config) (params : SearchParams)
         (nrows idx : nat) (row geom : G) (others : list G)
         (st : loop_state) (w w1 w2 : world)
         (geojson f0 props item_type : json) (fs : list json) (i : string) (e : exn),
    arg_prompt args = false -> arg_order args = true -> arg_preview args = false ->
    strip (arg_item_id args) = "" ->
    validate_geometry row = Ret geom ->
    quick_search cfg geom params w = (Ret geojson, w1) ->
    get geojson "features" (JArr []) = Ret (JArr (f0 :: fs)) ->
    getitem f0 "id" = Ret (JStr i) ->
    getitem f0 "properties" = Ret props ->
    getitem props "item_type" = Ret item_type ->
    place_order_and_download
      cfg (JStr i) item_type geom (arg_bundle args)
      ("AOI_" ++ fmt_03d (idx + 1) ++ "_" ++ fmt_03d (S (order_idx st)))%string w1
    = (Raise e, w2) ->
    let st' := {| orders_list :=
                    orders_list st
                    ++ [{| ref_item_id := JStr i; ref_item_type := item_type;
                           ref_aoi_wkt := str_take 120 (wkt geom) |}];
                  order_idx := S (order_idx st) |} in
    process_aoi args cfg params nrows idx row st w = (Ret st', w2)
    /\ aoi_loop args cfg params nrows idx (row :: others) st w
       = aoi_loop args cfg params nrows (S idx) others st' w2.
Proof.
  intros G SG args cfg params nrows idx row geom others st w w1 w2
         geojson f0 props item_type fs i e
         Hprompt Horder Hpreview Hid Hv Hsearch Hfeats Hi Hprops Htype Hfail st'.
  assert (Hstep : process_aoi args cfg params nrows idx row st w = (Ret st', w2)).
  { rewrite (process_aoi_orders_first args cfg params nrows idx row geom st w w1
               geojson f0 props item_type fs i
               Hprompt Horder Hpreview Hid Hv Hsearch Hfeats Hi Hprops Htype).
    unfold bind, try_except. rewrite Hfail. reflexivity. }
  split; [exact Hstep|]. simpl. unfold bind. now rewrite Hstep.
Qed.

Lemma failed_order_does_not_stop_the_run_witness :
  fst (process_aoi Cases2.order_first Sample.cfg (params_of_args Cases2.order_first) 2 0
                   Sample.unit_square {| orders_list := []; order_idx := 0 |}
                   (Sample.fresh [Sample.three_features; Answer Cases2.rejected;
                                  Sample.three_features]))
  = Ret {| orders_list := [{| ref_item_id := JStr "s1"; ref_item_type := JStr "PSScene";
                              ref_aoi_wkt := "POLYGON ((0 0, 1 0, 1 1, 0 1, 0 0))" |}];
           order_idx := 1 |}.
Proof.
  refine (f_equal fst
            (proj1 (failed_order_does_not_stop_the_run
                      Grid.geometry Grid.shapely Cases2.order_first Sample.cfg
                      (params_of_args Cases2.order_first) 2 0
                      Sample.unit_square Sample.unit_square [Sample.unit_square]
                      {| orders_list := []; order_idx := 0 |}
                      (Sample.fresh [Sample.three_features; Answer Cases2.rejected;
                                     Sample.three_features])
                      (snd (quick_search Sample.cfg Sample.unit_square
                                         (params_of_args Cases2.order_first)
                                         (Sample.fresh [Sample.three_features;
                                                        Answer Cases2.rejected;
                                                        Sample.three_features])))
                      _
                      (JObj [("type", JStr "FeatureCollection");
                             ("features", JArr Cases2.three)])
                      (Sample.feature "s1" "PSScene")
                      (JObj [("item_type", JStr "PSScene")]) (JStr "PSScene")
                      [Sample.feature "s2" "PSScene"; Sample.feature "s3" "SkySatScene"]
                      "s1" (RuntimeError "Order failed: 400 bad order")
                      eq_refl eq_refl eq_refl eq_refl eq_refl eq_refl eq_refl
                      eq_refl eq_refl eq_refl _))).
  reflexivity.
Defined.

(** ** Run orchestrator: the interactive selection *)

Lemma list_index_at {A} (l : list A) (i : Z) (k : nat) (x : A) :
  nth_error l k = Some x ->
  i = Z.of_nat k \/ i = Z.of_nat k - Z.of_nat (List.length l) ->
  list_index l i = Ret x.
Proof.
  intros Hk Hi.
  assert (Hlt : (k < List.length l)%nat) by (apply nth_error_Some; congruence).
  unfold list_index. cbv zeta.
  destruct Hi as [-> | ->].
  - assert (E1 : (Z.of_nat k <? 0) = false) by (apply Z.ltb_ge; lia).
    rewrite E1, E1.
    assert (E2 : (Z.of_nat (List.length l) <=? Z.of_nat k) = false)
      by (apply Z.leb_gt; lia).
    rewrite E2. simpl. now rewrite Nat2Z.id, Hk.
  - assert (E1 : (Z.of_nat k - Z.of_nat (List.length l) <? 0) = true)
      by (apply Z.ltb_lt; lia).
    rewrite E1.
    replace (Z.of_nat k - Z.of_nat (List.length l) + Z.of_nat (List.length l))
      with (Z.of_nat k) by lia.
    assert (E0 : (Z.of_nat k <? 0) = false) by (apply Z.ltb_ge; lia).
    assert (E2 : (Z.of_nat (List.length l) <=? Z.of_nat k) = false)
      by (apply Z.leb_gt; lia).
    rewrite E0, E2. simpl. now rewrite Nat2Z.id, Hk.
Qed.

Lemma list_index_out {A} (l : list A) (i : Z) :
  Z.of_nat (List.length l) <= i \/ i < - Z.of_nat (List.length l) ->
  list_index l i = Raise IndexError.
Proof.
  intro Hi. unfold list_index. cbv zeta.
  destruct (i <? 0) eqn:E.
  - apply Z.ltb_lt in E.
    assert (E1 : (i + Z.of_nat (List.length l) <? 0) = true) by (apply Z.ltb_lt; lia).
    now rewrite E1.
  - apply Z.ltb_ge in E.
    assert (E2 : (Z.of_nat (List.length l) <=? i) = true) by (apply Z.leb_le; lia).
    rewrite E2. now rewrite orb_true_r.
Qed.

(** X17: the number typed at the prompt is used as a Python index after
    subtracting one.  A number from 1 to the number of features selects that
    feature; 0 and the negative numbers down to minus the number of features
    (excluded) count from the end, so that 0 selects the last feature; any
    other number falls back to the first feature.  One line of input is
    consumed, and [--item-id] plays no part. *)
Theorem prompt_number_is_a_python_index :
  forall (args : Args) (feats : list json) (line : string) (typed : list string)
         (w : world) (n : Z),
    arg_prompt args = true ->
    stdin w = line :: typed ->
    print_features feats = Ret tt ->
    Forall (fun f => exists i, getitem f "id" = Ret i) feats -> feats <> [] ->
    lower (strip line) <> "s" -> lower (strip line) <> "" ->
    py_int (lower (strip line)) = Ret n ->
    let len := Z.of_nat (List.length feats) in
    exists k f i,
      fst (pick_item args feats w) = Ret (Some i)
      /\ stdin (snd (pick_item args feats w)) = typed
      /\ nth_error feats k = Some f /\ getitem f "id" = Ret i
      /\ (1 <= n <= len -> Z.of_nat k = n - 1)
      /\ (- len < n <= 0 -> Z.of_nat k = len + n - 1)
      /\ (len < n \/ n <= - len -> k = 0%nat).
Proof.
  intros args feats line typed w n Hprompt Hin Hprint Hids Hne Hs He Hint len.
  apply String.eqb_neq in Hs, He.
  assert (Hpick :
            pick_item args feats w
            = try_except
                (lift (rbind (list_index feats (n - 1))
                             (fun f => rbind (getitem f "id") (fun i => Ret (Some i)))))
                (fun _ => lift (rbind (first_id feats) (fun i => Ret (Some i))))
                {| script := script w; stdin := typed; sent := sent w; slept := slept w;
                   files := files w; browser := browser w |}).
  { unfold pick_item. rewrite Hprompt. unfold bind at 1. unfold lift at 1.
    rewrite Hprint. unfold bind at 1. unfold input. rewrite Hin.
    rewrite Hs, He. simpl negb. cbv iota. rewrite Hint. reflexivity. }
  rewrite Hpick. unfold try_except, lift.
  destruct feats as [|f0 fs]; [contradiction|].
  assert (Hfirst : exists i0, getitem f0 "id" = Ret i0) by (inversion Hids; auto).
  destruct Hfirst as [i0 Hi0].
  destruct (Z_le_gt_dec 1 n) as [H1 | H1].
  - destruct (Z_le_gt_dec n len) as [H2 | H2].
    + (* 1 <= n <= len *)
      assert (Hk : (Z.to_nat (n - 1) < List.length (f0 :: fs))%nat) by (subst len; lia).
      destruct (nth_error (f0 :: fs) (Z.to_nat (n - 1))) as [f|] eqn:Ef;
        [|apply nth_error_None in Ef; lia].
      assert (Hf : exists i, getitem f "id" = Ret i).
      { rewrite Forall_forall in Hids. apply Hids. eapply nth_error_In; eauto. }
      destruct Hf as [i Hi].
      rewrite (list_index_at (f0 :: fs) (n - 1) (Z.to_nat (n - 1)) f Ef)
        by (left; lia).
      simpl rbind. rewrite Hi. exists (Z.to_nat (n - 1)), f, i. cbn [fst snd stdin].
      repeat split; auto; subst len; lia.
    + (* len < n *)
      rewrite (list_index_out (f0 :: fs) (n - 1)) by (subst len; lia).
      cbn [rbind]. unfold first_id. rewrite list_index_first. cbn [rbind]. rewrite Hi0.
      exists 0%nat, f0, i0. cbn [fst snd stdin nth_error].
      repeat split; auto; subst len; lia.
  - destruct (Z_lt_ge_dec (- len) n) as [H2 | H2].
    + (* - len < n <= 0 *)
      assert (Hk : (Z.to_nat (len + n - 1) < List.length (f0 :: fs))%nat)
        by (subst len; lia).
      destruct (nth_error (f0 :: fs) (Z.to_nat (len + n - 1))) as [f|] eqn:Ef;
        [|apply nth_error_None in Ef; lia].
      assert (Hf : exists i, getitem f "id" = Ret i).
      { rewrite Forall_forall in Hids. apply Hids. eapply nth_error_In; eauto. }
      destruct Hf as [i Hi].
      rewrite (list_index_at (f0 :: fs) (n - 1) (Z.to_nat (len + n - 1)) f Ef)
        by (right; subst len; lia).
      simpl rbind. rewrite Hi. exists (Z.to_nat (len + n - 1)), f, i. cbn [fst snd stdin].
      repeat split; auto; subst len; lia.
    + (* n <= - len *)
      rewrite (list_index_out (f0 :: fs) (n - 1)) by (subst len; lia).
      cbn [rbind]. unfold first_id. rewrite list_index_first. cbn [rbind]. rewrite Hi0.
      exists 0%nat, f0, i0. cbn [fst snd stdin nth_error].
      repeat split; auto; subst len; lia.
Qed.

(** Typing 0 at the prompt, with three features listed and [--item-id s3]
    given on the command line. *)
Lemma prompt_number_is_a_python_index_witness :
  fst (pick_item Cases2.prompting Cases2.three (Cases2.typing " 0 "))
  = Ret (Some (JStr "s3")).
Proof.
  destruct (prompt_number_is_a_python_index
              Cases2.prompting Cases2.three " 0 " [] (Cases2.typing " 0 ") 0
              eq_refl eq_refl eq_refl
              ltac:(repeat constructor; eexists; reflexivity)
              ltac:(discriminate) ltac:(discriminate) ltac:(discriminate) eq_refl)
    as (k & f & i & Hfst & _ & Hnth & Hid & _ & Hzero & _).
  assert (Hk : k = 2%nat) by (specialize (Hzero ltac:(simpl; lia)); simpl in Hzero; lia).
  subst k. simpl in Hnth. injection Hnth as <-. simpl in Hid. injection Hid as <-.
  exact Hfst.
Defined.

(** ** Run orchestrator: the orders reference *)

Section ReferenceLines.
Context {G : Type} `{Shapely G}.
Variables (args : Args) (cfg : Config) (params : SearchParams) (nrows : nat).

Lemma process_aoi_one_step (idx : nat) (row : G) (st st' : loop_state) (w w' : world) :
  process_aoi args cfg params nrows idx row st w = (Ret st', w') ->
  one_step st st' /\ (arg_order args = false -> order_idx st' = order_idx st).
Proof.
  unfold process_aoi. intro E.
  apply bind_ret_inv in E. destruct E as (geom & w1 & _ & E).
  apply bind_ret_inv in E. destruct E as (geojson & w2 & _ & E).
  apply bind_ret_inv in E. destruct E as (feats_v & w3 & _ & E).
  destruct (negb (truthy feats_v)).
  { inversion E; subst. split; [now left | reflexivity]. }
  apply bind_ret_inv in E. destruct E as (u & w4 & _ & E).
  apply bind_ret_inv in E. destruct E as (feats & w5 & _ & E).
  apply bind_ret_inv in E. destruct E as ([chosen|] & w6 & _ & E).
  2:{ inversion E; subst. split; [now left | reflexivity]. }
  apply bind_ret_inv in E. destruct E as (match_ & w7 & _ & E).
  apply bind_ret_inv in E. destruct E as (props & w8 & _ & E).
  apply bind_ret_inv in E. destruct E as (item_type & w9 & _ & E).
  destruct (arg_order args).
  - apply bind_ret_inv in E. destruct E as (u' & w10 & _ & E).
    inversion E; subst. split; [|discriminate].
    right. eexists. split; [reflexivity | now right].
  - inversion E; subst. split; [|reflexivity].
    right. eexists. split; [reflexivity | now left].
Qed.

(** Over a batch, the reference lines already recorded stay, at most one is
    added per record, and the order counter never exceeds the lines added. *)
Lemma aoi_loop_accumulates (rows : list G) :
  forall (idx : nat) (st st' : loop_state) (w w' : world),
    aoi_loop args cfg params nrows idx rows st w = (Ret st', w') ->
    exists added,
      orders_list st' = orders_list st ++ added
      /\ (List.length added <= List.length rows)%nat
      /\ (order_idx st <= order_idx st' <= order_idx st + List.length added)%nat
      /\ (arg_order args = false -> order_idx st' = order_idx st).
Proof.
  induction rows as [|row rows IH]; intros idx st st' w w' E; simpl in E.
  - inversion E; subst. exists []. rewrite app_nil_r. simpl. repeat split; auto; lia.
  - apply bind_ret_inv in E. destruct E as (st1 & w1 & Hstep & E).
    apply process_aoi_one_step in Hstep. destruct Hstep as [Hstep Hdry].
    destruct (IH _ _ _ _ _ E) as (added & Hl & Hn & Hi & Hdry').
    destruct Hstep as [-> | (line & Hline & Hidx)].
    + exists added. simpl. repeat split; auto; lia.
    + exists (line :: added). rewrite Hl, Hline, <- app_assoc. simpl.
      repeat split; auto; try lia.
      intro Hno. rewrite (Hdry' Hno). auto.
Qed.
End ReferenceLines.

(** X18: the orders reference of a run that ends normally.  It has at most
    one line per record, in the order of the records; the number of orders
    placed never exceeds the number of lines, and is zero without [--order].
    The file is written once, after the last record, and only when there is
    at least one line: a run that records nothing leaves no such file. *)
Theorem orders_reference_one_line_per_record :
  forall (G : Type) (SG : Shapely G) (args : Args) (pl_api_key : string)
         (rows : list G) (w w' : world),
    main args pl_api_key rows w = (Ret 0, w') ->
    exists st w1,
      aoi_loop args (mkConfig (strip pl_api_key) (arg_download_dir args))
               (params_of_args args) (List.length rows) 0 rows
               {| orders_list := []; order_idx := 0 |} w
      = (Ret st, w1)
      /\ (List.length (orders_list st) <= List.length rows)%nat
      /\ (order_idx st <= List.length (orders_list st))%nat
      /\ (arg_order args = false -> order_idx st = 0%nat)
      /\ ((orders_list st = [] /\ w' = w1)
          \/ (orders_list st <> []
              /\ files w' = (arg_orders_out args, OrdersText (orders_list st)) :: files w1
              /\ sent w' = sent w1)).
Proof.
  intros G SG args pl_api_key rows w w' E.
  destruct (main_ret_inv args pl_api_key rows w w' 0 E) as [(Hc & _) | (_ & Hkey & Hne)];
    [discriminate|].
  rewrite (main_with_records args pl_api_key rows w Hkey Hne) in E.
  apply bind_ret_inv in E. destruct E as (st & w1 & Hloop & E).
  exists st, w1. split; [exact Hloop|].
  destruct (aoi_loop_accumulates _ _ _ _ rows _ _ _ _ _ Hloop)
    as (added & Hl & Hn & Hi & Hdry).
  simpl in Hl, Hi. subst added.
  split; [exact Hn|]. split; [lia|]. split; [exact Hdry|].
  destruct (orders_list st) as [|line lines] eqn:El.
  - left. inversion E; subst. auto.
  - right. split; [discriminate|].
    apply bind_ret_inv in E. destruct E as (u & w2 & Hwrite & E).
    inversion E; subst. inversion Hwrite; subst. simpl. auto.
Qed.

Lemma sample_run_ends :
  main default_args "KEY" [Sample.unit_square] (Sample.fresh [Sample.three_features])
  = (Ret 0, snd (main default_args "KEY" [Sample.unit_square]
                      (Sample.fresh [Sample.three_features]))).
Proof. vm_compute. reflexivity. Defined.

(** One record, three features, no [--order]: one line, no order. *)
Lemma orders_reference_one_line_per_record_witness :
  exists st w1,
    aoi_loop default_args (mkConfig "KEY" "./downloads") (params_of_args default_args)
             1 0 [Sample.unit_square] {| orders_list := []; order_idx := 0 |}
             (Sample.fresh [Sample.three_features])
    = (Ret st, w1)
    /\ (List.length (orders_list st) <= 1)%nat
    /\ order_idx st = 0%nat
    /\ files (snd (main default_args "KEY" [Sample.unit_square]
                        (Sample.fresh [Sample.three_features])))
       = ("./orders/list_of_orders_2020.txt", OrdersText (orders_list st)) :: files w1.
Proof.
  destruct (orders_reference_one_line_per_record
              Grid.geometry Grid.shapely default_args "KEY" [Sample.unit_square]
              (Sample.fresh [Sample.three_features])
              (snd (main default_args "KEY" [Sample.unit_square]
                         (Sample.fresh [Sample.three_features])))
              sample_run_ends)
    as (st & w1 & Hloop & Hlen & _ & Hdry & Hfile).
  exists st, w1. split; [exact Hloop|]. split; [exact Hlen|].
  split; [exact (Hdry eq_refl)|].
  destruct Hfile as [[Hnil _] | (_ & Hfiles & _)]; [|exact Hfiles].
  exfalso. inversion Hloop. subst st. discriminate.
Defined.

(** ** The remaining helpers *)

Lemma dict_lookup_app_none (k : string) (d d' : dict) :
  dict_lookup k d = None -> dict_lookup k (d ++ d') = dict_lookup k d'.
Proof.
  induction d as [|[k0 v0] d IH]; simpl; [reflexivity|].
  destruct (k0 =? k)%string; [discriminate | exact IH].
Qed.

Lemma dict_lookup_app_other (k k' : string) (v : json) (d : dict) :
  k' <> k -> dict_lookup k' (d ++ [(k, v)]) = dict_lookup k' d.
Proof.
  intro Hneq. induction d as [|[k0 v0] d IH]; simpl.
  - destruct (k =? k')%string eqn:E; [|reflexivity].
    apply String.eqb_eq in E. congruence.
  - destruct (k0 =? k')%string; [reflexivity | exact IH].
Qed.

(** X19: the timeout wrapper of the session.  Every call goes through with
    a [timeout] keyword: the caller's own when there is one, which is never
    overridden, and [timeout_s] otherwise; the other keyword arguments, the
    method and the URL are passed on as they are.  Wrapping twice changes
    nothing: the outer default is the one in force. *)
Theorem with_timeout_sets_a_default_only :
  forall (R : Type) (request_func : string -> string -> dict -> R) (timeout_s : Z)
         (method url : string) (kwargs : dict),
    exists kwargs',
      _with_timeout request_func timeout_s method url kwargs
      = request_func method url kwargs'
      /\ (forall v, dict_lookup "timeout" kwargs = Some v -> kwargs' = kwargs)
      /\ (dict_lookup "timeout" kwargs = None ->
          dict_lookup "timeout" kwargs' = Some (JNum (inject_Z timeout_s)))
      /\ (forall k, k <> "timeout" -> dict_lookup k kwargs' = dict_lookup k kwargs)
      /\ (forall inner_s,
             _with_timeout (_with_timeout request_func inner_s) timeout_s method url kwargs
             = _with_timeout request_func timeout_s method url kwargs).
Proof.
  intros R request_func timeout_s method url kwargs.
  exists (setdefault "timeout" (JNum (inject_Z timeout_s)) kwargs).
  unfold _with_timeout, setdefault. split; [reflexivity|].
  destruct (dict_lookup "timeout" kwargs) as [v|] eqn:E.
  - repeat split; auto; try discriminate.
    intro inner_s. now rewrite E.
  - repeat split; try discriminate.
    + intros _. rewrite (dict_lookup_app_none _ _ _ E). reflexivity.
    + intros k Hk. now apply dict_lookup_app_other.
    + intro inner_s. rewrite (dict_lookup_app_none _ _ _ E). reflexivity.
Qed.

Lemma with_timeout_sets_a_default_only_witness :
  _with_timeout (fun (_ _ : string) (kwargs : dict) => kwargs) 30 "GET" "https://orders/1"
                [("stream", JBool true)]
  = [("stream", JBool true); ("timeout", JNum 30)]
  /\ _with_timeout (fun (_ _ : string) (kwargs : dict) => kwargs) 30 "GET" "https://orders/1"
                   [("timeout", JNum 5)]
     = [("timeout", JNum 5)].
Proof.
  split.
  - destruct (with_timeout_sets_a_default_only
                dict (fun (_ _ : string) (kwargs : dict) => kwargs) 30
                "GET" "https://orders/1" [("stream", JBool true)])
      as (kwargs' & Hcall & _).
    reflexivity.
  - destruct (with_timeout_sets_a_default_only
                dict (fun (_ _ : string) (kwargs : dict) => kwargs) 30
                "GET" "https://orders/1" [("timeout", JNum 5)])
      as (kwargs' & Hcall & Hkeep & _).
    rewrite Hcall. exact (Hkeep (JNum 5) eq_refl).
Defined.

Lemma split_line (r t : string) :
  no_newline r = true ->
  split newline (r ++ String newline t)%string = r :: split newline t.
Proof.
  induction r as [|c r IH]; simpl.
  - reflexivity.
  - intro E. apply andb_prop in E. destruct E as [Hc Hr].
    apply negb_true_iff in Hc. rewrite Hc, (IH Hr). reflexivity.
Qed.

(** X20: the text list can be read back.  When no row contains a newline,
    splitting the written text at the newlines gives the rows again, in
    order, followed by one empty string for the final newline; an empty list
    of rows writes an empty file. *)
Theorem write_text_list_reads_back :
  forall rows : list string,
    Forall (fun r => no_newline r = true) rows ->
    split newline (write_text_list rows) = rows ++ [""].
Proof.
  induction 1 as [|r rows Hr _ IH]; simpl; [reflexivity|].
  now rewrite (split_line r _ Hr), IH.
Qed.

Lemma write_text_list_reads_back_witness :
  split newline (write_text_list ["(api_key=****, item_id=s1)"; "(api_key=****, item_id=s2)"])
  = ["(api_key=****, item_id=s1)"; "(api_key=****, item_id=s2)"; ""].
Proof.
  apply (write_text_list_reads_back
           ["(api_key=****, item_id=s1)"; "(api_key=****, item_id=s2)"]).
  repeat constructor.
Defined.

(** X21: verbosity only ever lowers the logging threshold.  The level is
    WARNING exactly for a verbosity up to 0 (negative ones included), INFO
    exactly at 1 and DEBUG exactly from 2 on, so a higher verbosity never
    hides a message that a lower one shows. *)
Theorem setup_logging_is_monotone :
  forall v1 v2 : Z,
    v1 <= v2 ->
    setup_logging v2 <= setup_logging v1
    /\ (setup_logging v1 = WARNING <-> v1 <= 0)
    /\ (setup_logging v1 = INFO <-> v1 = 1)
    /\ (setup_logging v1 = DEBUG <-> 2 <= v1).
Proof.
  intros v1 v2 Hle. unfold setup_logging, WARNING, INFO, DEBUG.
  destruct (v1 =? 1) eqn:E1; destruct (v2 =? 1) eqn:E2;
    destruct (v1 >=? 2) eqn:G1; destruct (v2 >=? 2) eqn:G2;
    rewrite ?Z.eqb_eq, ?Z.eqb_neq, ?Z.geb_leb, ?Z.leb_le, ?Z.leb_gt in *;
    repeat split; intros; lia.
Qed.

(** [-v] against [-vv]: INFO, then DEBUG. *)
Lemma setup_logging_is_monotone_witness :
  setup_logging 2 <= setup_logging 1
  /\ setup_logging 1 = INFO /\ setup_logging 1 <> WARNING /\ setup_logging 1 <> DEBUG.
Proof.
  destruct (setup_logging_is_monotone 1 2 ltac:(lia)) as (Hmono & Hwarn & Hinfo & Hdebug).
  split; [exact Hmono|]. split; [apply Hinfo; reflexivity|].
  split; intro E; [apply Hwarn in E | apply Hdebug in E]; lia.
Defined.

(** ** Preview *)

Lemma preview_layers_ok (feats : list json) :
  forallb feature_ok feats = true -> preview_layers feats = Ret (layers_of feats).
Proof.
  induction feats as [|f feats IH]; simpl; [reflexivity|].
  intro E. apply andb_prop in E. destruct E as [Hf Hfs].
  rewrite (IH Hfs). clear IH.
  destruct f as [| | | | |d]; try discriminate. simpl in *.
  destruct (dict_lookup "id" d) as [item_id|];
    destruct (dict_lookup "properties" d) as [[| | | | |p]|]; try discriminate; simpl;
    try (destruct (dict_lookup "item_type" p) as [item_type|]; simpl);
    repeat match goal with
           | |- context [truthy ?v] => destruct (truthy v); simpl
           end; reflexivity.
Qed.

Lemma preview_layers_bad (before after : list json) (bad : json) :
  forallb feature_ok before = true -> (forall d, bad <> JObj d) ->
  preview_layers (before ++ bad :: after) = Raise AttributeError.
Proof.
  intros Hb Hbad. induction before as [|f before IH]; simpl.
  - destruct bad; try reflexivity. exfalso. eapply Hbad. reflexivity.
  - simpl in Hb. apply andb_prop in Hb. destruct Hb as [Hf Hfs].
    rewrite (IH Hfs). clear IH.
    destruct f as [| | | | |d]; try discriminate. simpl in *.
    destruct (dict_lookup "id" d);
      destruct (dict_lookup "properties" d) as [[| | | | |p]|]; try discriminate; simpl;
      try (destruct (dict_lookup "item_type" p); simpl); reflexivity.
Qed.

Lemma layers_of_length (feats : list json) :
  (List.length (layers_of feats) <= List.length feats)%nat.
Proof.
  induction feats as [|f feats IH]; simpl; [lia|].
  destruct (layer_of f); simpl; lia.
Qed.

(** X22: the preview gets one tile layer for every feature that has both an
    id and an item type, in the order of the search result; the features
    that lack one of them are passed over without an error, and the map is
    saved even when no layer is left.  A feature that is not an object makes
    the preview fail before anything is written. *)
Theorem preview_has_a_layer_per_identified_feature :
  forall (G : Type) (SG : Shapely G) (g : G) (geojson : json) (feats : list json)
         (out_html : string) (w : world),
    get geojson "features" (JArr []) = Ret (JArr feats) ->
    (forallb feature_ok feats = true ->
     make_preview_map g geojson out_html w
     = (Ret tt, snd (write_file out_html (PreviewMap (mapping g) (layers_of feats)) w))
     /\ (List.length (layers_of feats) <= List.length feats)%nat)
    /\ (forall before bad after,
           feats = before ++ bad :: after ->
           forallb feature_ok before = true -> (forall d, bad <> JObj d) ->
           make_preview_map g geojson out_html w = (Raise AttributeError, w)).
Proof.
  intros G SG g geojson feats out_html w Hfeats. split.
  - intro Hok. split; [|apply layers_of_length].
    unfold make_preview_map, bind, lift. rewrite Hfeats.
    change (rbind (Ret (JArr feats)) as_list) with (Ret feats). cbv iota.
    now rewrite (preview_layers_ok feats Hok).
  - intros before bad after -> Hb Hbad.
    unfold make_preview_map, bind, lift. rewrite Hfeats.
    change (rbind (Ret (JArr (before ++ bad :: after))) as_list)
      with (Ret (before ++ bad :: after)). cbv iota.
    now rewrite (preview_layers_bad before after bad Hb Hbad).
Qed.

Lemma preview_has_a_layer_per_identified_feature_witness :
  make_preview_map Sample.unit_square
                   (JObj [("features",
                           JArr [Sample.feature "s1" "PSScene";
                                 JObj [("id", JStr "s2")];
                                 JObj [("properties", JObj [("item_type", JStr "PSScene")])];
                                 Sample.feature "s4" "SkySatScene"])])
                   "map.html" (Sample.fresh [])
  = (Ret tt,
     snd (write_file "map.html"
                     (PreviewMap (mapping Sample.unit_square)
                                 [(JStr "PSScene", JStr "s1");
                                  (JStr "SkySatScene", JStr "s4")])
                     (Sample.fresh []))).
Proof.
  exact (proj1 (proj1 (preview_has_a_layer_per_identified_feature
                         Grid.geometry Grid.shapely Sample.unit_square
                         (JObj [("features",
                                 JArr [Sample.feature "s1" "PSScene";
                                       JObj [("id", JStr "s2")];
                                       JObj [("properties",
                                              JObj [("item_type", JStr "PSScene")])];
                                       Sample.feature "s4" "SkySatScene"])])
                         _ "map.html" (Sample.fresh []) eq_refl) eq_refl)).
Defined.

Lemma str_of_nat_inj (a b : nat) : str_of_nat a = str_of_nat b -> a = b.
Proof.
  unfold str_of_nat. intro E.
  assert (Hu : Nat.to_uint a = Nat.to_uint b).
  { apply (f_equal NilEmpty.uint_of_string) in E.
    rewrite !NilEmpty.usu in E. now injection E. }
  apply (f_equal Nat.of_uint) in Hu. now rewrite !DecimalNat.Unsigned.of_to in Hu.
Qed.

Lemma append_cancel_l (p a b : string) : (p ++ a = p ++ b)%string -> a = b.
Proof.
  induction p as [|c p IH]; simpl; [auto|].
  intro E. injection E as E. auto.
Qed.

Lemma length_append (a b : string) :
  String.length (a ++ b) = (String.length a + String.length b)%nat.
Proof. induction a as [|c a IH]; simpl; [reflexivity | now rewrite IH]. Qed.

Lemma append_cancel_r (t : string) :
  forall a b : string, (a ++ t = b ++ t)%string -> a = b.
Proof.
  induction a as [|x a IH]; intros [|y b] E; simpl in E.
  - reflexivity.
  - exfalso. apply (f_equal String.length) in E. simpl in E.
    rewrite length_append in E. lia.
  - exfalso. apply (f_equal String.length) in E. simpl in E.
    rewrite length_append in E. lia.
  - injection E as -> E. f_equal. auto.
Qed.

Lemma string_append_assoc (a b c : string) : ((a ++ b) ++ c = a ++ (b ++ c))%string.
Proof. induction a as [|x a IH]; simpl; [reflexivity | now rewrite IH]. Qed.

Lemma concat_last_part (sep : string) (dir : list string) :
  exists prefix, forall n, String.concat sep (dir ++ [n]) = (prefix ++ n)%string.
Proof.
  induction dir as [|x dir [prefix IH]].
  - exists "". reflexivity.
  - exists (x ++ sep ++ prefix)%string. intro n. simpl.
    destruct (dir ++ [n]) as [|y ys] eqn:E.
    + destruct dir; discriminate.
    + rewrite <- E, IH.
      rewrite !string_append_assoc. reflexivity.
Qed.

Lemma with_name_inj (s n1 n2 p : string) :
  with_name s n1 = Ret p -> with_name s n2 = Ret p -> n1 = n2.
Proof.
  unfold with_name. destruct (path_name s =? "")%string; [discriminate|].
  intros E1 E2. injection E1 as E1. injection E2 as E2. rewrite <- E2 in E1.
  apply append_cancel_l in E1.
  destruct (concat_last_part "/" (removelast (path_parts s))) as [prefix Hp].
  rewrite !Hp in E1. now apply append_cancel_l in E1.
Qed.

Lemma str_take_drop (i : nat) :
  forall s : string, (str_take i s ++ str_drop i s)%string = s.
Proof.
  induction i as [|i IH]; intros [|c s]; simpl; try reflexivity. now rewrite IH.
Qed.

Lemma stem_suffix_split (name : string) :
  (name_stem name ++ name_suffix name)%string = name.
Proof.
  unfold name_stem, name_suffix. destruct (rfind_dot name) as [i|].
  - destruct ((0 <? i) && (i <? String.length name - 1))%nat.
    + apply str_take_drop.
    + induction name; simpl; [reflexivity | now f_equal].
  - induction name; simpl; [reflexivity | now f_equal].
Qed.

(** *** What writes a file *)

Lemma keeps_files_ret {A} (a : A) : keeps_files (ret a).
Proof. now intro w. Qed.

Lemma keeps_files_raise {A} (e : exn) : keeps_files (@raise A e).
Proof. now intro w. Qed.

Lemma keeps_files_lift {A} (r : result A) : keeps_files (lift r).
Proof. now intro w. Qed.

Lemma keeps_files_open_browser (path : string) : keeps_files (open_browser path).
Proof. now intro w. Qed.

Lemma keeps_files_input : keeps_files input.
Proof. intro w. unfold input. destruct (stdin w); reflexivity. Qed.

Lemma keeps_files_http (rq : request) : keeps_files (http rq).
Proof. intro w. unfold http. destruct (script w) as [|[r|e] rest]; reflexivity. Qed.

Lemma keeps_files_resp_json (r : response) : keeps_files (resp_json r).
Proof. intro w. unfold resp_json. destruct (body r); reflexivity. Qed.

Lemma keeps_files_bind {A B} (m : M A) (k : A -> M B) :
  keeps_files m -> (forall a, keeps_files (k a)) -> keeps_files (bind m k).
Proof.
  intros Hm Hk w. unfold bind. specialize (Hm w).
  destruct (m w) as [[a|e|] w1]; simpl in *; [|exact Hm|exact Hm].
  now rewrite Hk.
Qed.

Lemma keeps_files_try_except {A} (m : M A) (handler : exn -> M A) :
  keeps_files m -> (forall e, keeps_files (handler e)) ->
  keeps_files (try_except m handler).
Proof.
  intros Hm Hh w. unfold try_except. specialize (Hm w).
  destruct (m w) as [[a|e|] w1]; simpl in *; [exact Hm| |exact Hm].
  now rewrite Hh.
Qed.

Create HintDb keeps_files.
#[local] Hint Resolve keeps_files_ret keeps_files_raise keeps_files_lift
  keeps_files_open_browser keeps_files_input keeps_files_http
  keeps_files_resp_json : keeps_files.

Ltac files_kept :=
  repeat first
    [ apply keeps_files_bind; [|intro]
    | apply keeps_files_try_except; [|intro]
    | solve [auto with keeps_files]
    | match goal with
      | |- keeps_files (if ?b then _ else _) => destruct b
      | |- keeps_files (match ?x with _ => _ end) => destruct x
      end ].

Lemma previews_at_keeps {A} (path : result string) (m : M A) :
  keeps_files m -> previews_at path m.
Proof. intros Hm w. left. apply Hm. Qed.

Lemma previews_at_bind_l {A B} (path : result string) (m : M A) (k : A -> M B) :
  keeps_files m -> (forall a, previews_at path (k a)) -> previews_at path (bind m k).
Proof.
  intros Hm Hk w. unfold bind. specialize (Hm w).
  destruct (m w) as [[a|e|] w1]; simpl in *; [|now left|now left].
  rewrite <- Hm. apply Hk.
Qed.

Lemma previews_at_bind_r {A B} (path : result string) (m : M A) (k : A -> M B) :
  previews_at path m -> (forall a, keeps_files (k a)) -> previews_at path (bind m k).
Proof.
  intros Hm Hk w. unfold bind. specialize (Hm w).
  destruct (m w) as [[a|e|] w1]; simpl in *; [|exact Hm|exact Hm].
  destruct Hm as [Hm | (p & aoi & layers & Hp & Hm)].
  - left. now rewrite Hk.
  - right. exists p, aoi, layers. now rewrite Hk.
Qed.

Lemma previews_at_lift_bind {A B} (path : result string) (r : result A) (k : A -> M B) :
  (forall a, r = Ret a -> previews_at path (k a)) -> previews_at path (bind (lift r) k).
Proof.
  intros Hk w. unfold bind, lift. destruct r as [a| |]; [|now left|now left].
  now apply Hk.
Qed.

Lemma previews_at_ret_bind {A B} (path : result string) (a : A) (k : A -> M B) :
  previews_at path (k a) -> previews_at path (bind (ret a) k).
Proof. intros Hk w. exact (Hk w). Qed.

Section PreviewFiles.
Context {G : Type} `{Shapely G}.

Lemma keeps_files_quick_search (cfg : Config) (g : G) (p : SearchParams) :
  keeps_files (quick_search cfg g p).
Proof. unfold quick_search. files_kept. Qed.

Lemma keeps_files_pick_item (args : Args) (feats : list json) :
  keeps_files (pick_item args feats).
Proof. unfold pick_item. files_kept. Qed.

Lemma previews_at_make_preview_map (g : G) (geojson : json) (path : string) :
  previews_at (Ret path) (make_preview_map g geojson path).
Proof.
  intro w. unfold make_preview_map, bind, lift.
  destruct (rbind _ as_list) as [feats| |]; [|now left|now left].
  destruct (preview_layers feats) as [layers| |]; [|now left|now left].
  right. now exists path, (mapping g), layers.
Qed.

(** In a run without [--order], the one file the body of the loop may write
    is the preview of its record. *)
Lemma process_aoi_previews (args : Args) (cfg : Config) (params : SearchParams)
      (nrows idx : nat) (row : G) (st : loop_state) :
  arg_order args = false ->
  previews_at (if (1 <? nrows)%nat
               then with_name (arg_map_out args)
                              (name_stem (path_name (arg_map_out args)) ++ "_aoi"
                               ++ str_of_nat (idx + 1)
                               ++ name_suffix (path_name (arg_map_out args)))%string
               else Ret (arg_map_out args))
              (process_aoi args cfg params nrows idx row st).
Proof.
  intro Horder. unfold process_aoi.
  apply previews_at_bind_l; [auto with keeps_files | intro geom].
  apply previews_at_bind_l; [apply keeps_files_quick_search | intro geojson].
  apply previews_at_bind_l; [auto with keeps_files | intro feats_v].
  destruct (negb (truthy feats_v)); [apply previews_at_keeps; auto with keeps_files|].
  apply previews_at_bind_r.
  - destruct (arg_preview args); [|apply previews_at_keeps; auto with keeps_files].
    cbv zeta. destruct (1 <? nrows)%nat.
    + apply previews_at_lift_bind. intros path ->.
      apply previews_at_bind_r; [apply previews_at_make_preview_map|].
      intro. destruct (arg_open_map args); auto with keeps_files.
    + apply previews_at_ret_bind.
      apply previews_at_bind_r; [apply previews_at_make_preview_map|].
      intro. destruct (arg_open_map args); auto with keeps_files.
  - intro. apply keeps_files_bind; [auto with keeps_files | intro feats].
    apply keeps_files_bind; [apply keeps_files_pick_item | intros [chosen|]];
      [|auto with keeps_files].
    apply keeps_files_bind; [auto with keeps_files | intro match_].
    apply keeps_files_bind; [auto with keeps_files | intro props].
    apply keeps_files_bind; [auto with keeps_files | intro item_type].
    rewrite Horder. auto with keeps_files.
Qed.

(** Over the records from position [idx] on: the files written are previews,
    each at the path of its own record, newest first. *)
Lemma aoi_loop_previews (args : Args) (cfg : Config) (params : SearchParams)
      (nrows : nat) (rows : list G) :
  arg_order args = false -> (1 < nrows)%nat ->
  forall idx st w,
  exists written : list (nat * (string * file)),
    files (snd (aoi_loop args cfg params nrows idx rows st w))
    = map snd written ++ files w
    /\ (forall i p m, In (i, (p, m)) written ->
          (idx <= i < idx + List.length rows)%nat
          /\ with_name (arg_map_out args)
                       (name_stem (path_name (arg_map_out args)) ++ "_aoi"
                        ++ str_of_nat (i + 1)
                        ++ name_suffix (path_name (arg_map_out args)))%string = Ret p
          /\ exists aoi layers, m = PreviewMap aoi layers)
    /\ NoDup (map fst written).
Proof.
  intros Horder Hn. apply Nat.ltb_lt in Hn.
  induction rows as [|row rows IH]; intros idx st w.
  - exists []. simpl. split; [reflexivity|]. split; [intros i p m []|constructor].
  - pose proof (process_aoi_previews args cfg params nrows idx row st Horder w) as Hrow.
    rewrite Hn in Hrow.
    assert (Hfirst : exists first : list (nat * (string * file)),
               files (snd (process_aoi args cfg params nrows idx row st w))
               = map snd first ++ files w
               /\ (forall i p m, In (i, (p, m)) first ->
                     i = idx
                     /\ with_name (arg_map_out args)
                                  (name_stem (path_name (arg_map_out args)) ++ "_aoi"
                                   ++ str_of_nat (i + 1)
                                   ++ name_suffix (path_name (arg_map_out args)))%string
                        = Ret p
                     /\ exists aoi layers, m = PreviewMap aoi layers)
               /\ NoDup (map fst first)).
    { destruct Hrow as [Hrow | (p & aoi & layers & Hp & Hrow)].
      - exists []. rewrite Hrow. split; [reflexivity|].
        split; [intros i q m []|constructor].
      - exists [(idx, (p, PreviewMap aoi layers))]. rewrite Hrow.
        split; [reflexivity|]. split.
        + intros i q m [E|[]]. injection E as <- <- <-.
          split; [reflexivity|]. split; [exact Hp | eauto].
        + constructor; [intros []|constructor]. }
    clear Hrow. destruct Hfirst as (first & Hfiles & Hfirst & Hnodup).
    simpl aoi_loop. unfold bind.
    destruct (process_aoi args cfg params nrows idx row st w) as [[st'|e|] w1];
      simpl in Hfiles.
    + destruct (IH (S idx) st' w1) as (later & Hlater & Hin & Hnd).
      exists (later ++ first). rewrite Hlater, Hfiles, map_app, app_assoc.
      split; [reflexivity|]. split.
      * intros i p m Hi. apply in_app_or in Hi. destruct Hi as [Hi|Hi].
        -- destruct (Hin i p m Hi) as (Hrange & Hpath & Hmap).
           split; [simpl; lia|]. split; [exact Hpath | exact Hmap].
        -- destruct (Hfirst i p m Hi) as (-> & Hpath & Hmap).
           split; [simpl; lia|]. split; [exact Hpath | exact Hmap].
      * rewrite map_app. apply NoDup_app; [exact Hnd | exact Hnodup |].
        intros i Hi Hj. apply in_map_iff in Hi, Hj.
        destruct Hi as ([i1 [p1 m1]] & <- & Hi). destruct Hj as ([i2 [p2 m2]] & E & Hj).
        simpl in E. subst i2.
        destruct (Hin _ _ _ Hi) as (Hrange & _). destruct (Hfirst _ _ _ Hj) as (E & _).
        simpl in *. lia.
    + exists first. simpl. split; [exact Hfiles|]. split; [|exact Hnodup].
      intros i p m Hi. destruct (Hfirst i p m Hi) as (-> & Hpath & Hmap).
      split; [simpl; lia|]. split; [exact Hpath | exact Hmap].
    + exists first. simpl. split; [exact Hfiles|]. split; [|exact Hnodup].
      intros i p m Hi. destruct (Hfirst i p m Hi) as (-> & Hpath & Hmap).
      split; [simpl; lia|]. split; [exact Hpath | exact Hmap].
Qed.
End PreviewFiles.

(** X23: in a run without [--order] over more than one record, the files
    written while the records are processed are preview maps, at most one
    per record, and the preview of the record at position [i] (counted from
    0) is at [map_out] renamed to [<stem>_aoi<i+1><suffix>], where stem and
    suffix split the name of [map_out]; no two of them are at the same
    path, so that no preview overwrites another. *)
Theorem previews_do_not_overwrite_each_other :
  forall (G : Type) (SG : Shapely G) (args : Args) (cfg : Config) (params : SearchParams)
         (nrows idx : nat) (rows : list G) (st : loop_state) (w : world),
    arg_order args = false ->
    (1 < nrows)%nat ->
    exists written : list (nat * (string * file)),
      files (snd (aoi_loop args cfg params nrows idx rows st w))
      = map snd written ++ files w
      /\ (forall i p m, In (i, (p, m)) written ->
            (idx <= i < idx + List.length rows)%nat
            /\ with_name (arg_map_out args)
                         (name_stem (path_name (arg_map_out args)) ++ "_aoi"
                          ++ str_of_nat (i + 1)
                          ++ name_suffix (path_name (arg_map_out args)))%string = Ret p
            /\ exists aoi layers, m = PreviewMap aoi layers)
      /\ NoDup (map fst written)
      /\ NoDup (map (fun e => fst (snd e)) written)
      /\ (name_stem (path_name (arg_map_out args))
          ++ name_suffix (path_name (arg_map_out args)))%string
         = path_name (arg_map_out args).
Proof.
  intros G SG args cfg params nrows idx rows st w Horder Hn.
  destruct (aoi_loop_previews args cfg params nrows rows Horder Hn idx st w)
    as (written & Hfiles & Hin & Hnodup).
  exists written. split; [exact Hfiles|]. split; [exact Hin|]. split; [exact Hnodup|].
  split; [|apply stem_suffix_split].
  clear Hfiles. induction written as [|[i [p m]] written IH]; simpl; [constructor|].
  inversion Hnodup as [|? ? Hnotin Hrest]; subst.
  constructor.
  - intro Hp. apply in_map_iff in Hp. destruct Hp as ([j [q m']] & E & Hj).
    simpl in E. subst q. apply Hnotin. apply in_map_iff.
    exists (j, (p, m')). split; [|exact Hj]. simpl.
    destruct (Hin i p m (or_introl eq_refl)) as (_ & Hi & _).
    destruct (Hin j p m' (or_intror Hj)) as (_ & Hj' & _).
    pose proof (with_name_inj _ _ _ _ Hi Hj') as E.
    apply append_cancel_l, append_cancel_l, append_cancel_r, str_of_nat_inj in E. lia.
  - apply IH; [|exact Hrest]. intros j q m' Hj. apply Hin. now right.
Qed.

(** Two records, three features found for each: two maps, [_aoi1] and
    [_aoi2], in the directory of the map path. *)
Lemma previews_do_not_overwrite_each_other_witness :
  (exists written : list (nat * (string * file)),
      files (snd (aoi_loop Cases2.previewing Sample.cfg
                           (params_of_args Cases2.previewing) 2 0
                           [Sample.unit_square; Sample.unit_square]
                           {| orders_list := []; order_idx := 0 |}
                           (Sample.fresh [Sample.three_features; Sample.three_features])))
      = map snd written
      /\ NoDup (map (fun e => fst (snd e)) written))
  /\ map fst
         (files (snd (aoi_loop Cases2.previewing Sample.cfg
                               (params_of_args Cases2.previewing) 2 0
                               [Sample.unit_square; Sample.unit_square]
                               {| orders_list := []; order_idx := 0 |}
                               (Sample.fresh [Sample.three_features;
                                              Sample.three_features]))))
     = ["preview/planet_search_preview_map_aoi2.html";
        "preview/planet_search_preview_map_aoi1.html"].
Proof.
  split; [|reflexivity].
  destruct (previews_do_not_overwrite_each_other
              Grid.geometry Grid.shapely Cases2.previewing Sample.cfg
              (params_of_args Cases2.previewing) 2 0
              [Sample.unit_square; Sample.unit_square]
              {| orders_list := []; order_idx := 0 |}
              (Sample.fresh [Sample.three_features; Sample.three_features])
              eq_refl ltac:(lia))
    as (written & Hfiles & _ & _ & Hpaths & _).
  exists written. split; [|exact Hpaths].
  rewrite Hfiles. apply app_nil_r.
Defined.
